(** * tinychain: a shallow embedding of the node core

    The development follows [tinychain.py] section by section: the data
    model (NamedTuples), the JSON flavoured codec, Merkle trees, the chain
    state with its UTXO set and mempool, validation, block connection,
    reorganisation and mempool selection.

    Conventions.
    - Python [int] is [Z]; [str] is [string] (one character per code point
      below 256); [bytes] is [list byte]; [None] in a field typed
      [Union[T, None]] is [option].
    - A Python exception is a value of [exn]; a call that may raise returns
      [result]; a call that also mutates module globals is a function
      [State -> result A * State], so that mutations done before a raise
      stay visible, as they do in Python.
    - [hashlib], [ecdsa], [time] and the peer sockets are not code of the
      repository: they are the fields of the class [Env]. *)

From Stdlib Require Import ZArith NArith Lia Ascii String List.
From Stdlib.Strings Require Import Byte.
From stdpp Require Import base option list gmap strings pretty.

Open Scope Z_scope.
Set Warnings "-register-all".

Definition bytes := list byte.

#[global] Instance byte_eq_dec : EqDecision byte := Byte.byte_eq_dec.

(** ** Data model *)

Record OutPoint := mkOutPoint {
  txid : string;
  txout_idx : Z }.

Record TxIn := mkTxIn {
  to_spend : option OutPoint;
  unlock_sig : bytes;
  unlock_pk : option bytes;
  sequence : Z }.

Record TxOut := mkTxOut {
  value : Z;
  to_address : string }.

Record UnspentTxOut := mkUnspentTxOut {
  utxo_value : Z;
  utxo_to_address : string;
  utxo_txid : string;
  utxo_tx_idx : Z;
  utxo_is_coinbase : bool;
  utxo_height : Z }.

Record Transaction := mkTransaction {
  txins : list TxIn;
  txouts : list TxOut;
  locktime : option Z }.

Record Block := mkBlock {
  version : Z;
  prev_block_hash : option string;
  merkle_hash : string;
  timestamp : Z;
  bits : Z;
  nonce : Z;
  txns : list Transaction }.

#[global] Instance OutPoint_eq_dec : EqDecision OutPoint.
Proof. solve_decision. Defined.
#[global] Instance TxIn_eq_dec : EqDecision TxIn.
Proof. solve_decision. Defined.
#[global] Instance TxOut_eq_dec : EqDecision TxOut.
Proof. solve_decision. Defined.
#[global] Instance UnspentTxOut_eq_dec : EqDecision UnspentTxOut.
Proof. solve_decision. Defined.
#[global] Instance Transaction_eq_dec : EqDecision Transaction.
Proof. solve_decision. Defined.
#[global] Instance Block_eq_dec : EqDecision Block.
Proof. solve_decision. Defined.

#[global] Instance OutPoint_countable : Countable OutPoint.
Proof.
  refine (inj_countable' (fun o => (txid o, txout_idx o))
                         (fun p => mkOutPoint p.1 p.2) _).
  by intros [].
Defined.

(** [UnspentTxOut.outpoint] *)
Definition outpoint (u : UnspentTxOut) : OutPoint :=
  mkOutPoint (utxo_txid u) (utxo_tx_idx u).

(** The Python exceptions the modelled code can raise.  The two validation
    errors carry [msg] and the [to_orphan] payload of the source; messages
    built from the [repr] of an object keep their literal part only.
    [EcdsaError] stands for whatever the [ecdsa] package raises on a
    malformed key; [Unmodelled] marks an input that leaves the modelled
    fragment of Python (a JSON float, a character above U+00FF). *)
Inductive exn :=
| BlockValidationError (msg : string) (to_orphan : option Block)
| TxnValidationError (msg : string) (to_orphan : option Transaction)
| TxUnlockError (msg : string)
| TypeError
| ValueError
| KeyError
| IndexError
| AttributeError
| EcdsaError
| Unmodelled.

Inductive result (A : Type) :=
| Ok (a : A)
| Raise (e : exn).
Arguments Ok {A} a.
Arguments Raise {A} e.

#[global] Instance result_ret : MRet result := @Ok.
#[global] Instance result_bind : MBind result := λ A B k r,
  match r with
  | Ok a => k a
  | Raise e => Raise e
  end.
#[global] Instance result_fmap : FMap result := λ A B f r,
  match r with
  | Ok a => Ok (f a)
  | Raise e => Raise e
  end.


Section rmap.
Context {A B : Type} (f : A -> result B).

(** [[f(x) for x in l]] where [f] may raise: evaluation stops at the
    first raise. *)
Fixpoint rmap (l : list A) : result (list B) :=
  match l with
  | [] => Ok []
  | x :: l' => y ← f x; ys ← rmap l'; Ok (y :: ys)
  end.
End rmap.

(** ** Hexadecimal text: [binascii.hexlify], [binascii.unhexlify],
       [int(s, 16)] and [hexdigest()] *)

Definition hex_char (n : N) : ascii :=
  if (n <? 10)%N then ascii_of_N (48 + n) else ascii_of_N (87 + n).

Definition hex_val (c : ascii) : option N :=
  let n := N_of_ascii c in
  if ((48 <=? n) && (n <=? 57))%N then Some (n - 48)%N
  else if ((97 <=? n) && (n <=? 102))%N then Some (n - 87)%N
  else if ((65 <=? n) && (n <=? 70))%N then Some (n - 55)%N
  else None.

Fixpoint hexlify (b : bytes) : string :=
  match b with
  | [] => ""
  | x :: b' =>
      let n := Byte.to_N x in
      String (hex_char (n / 16)) (String (hex_char (n mod 16)) (hexlify b'))
  end.

(** [binascii.unhexlify] on a [str]: [binascii.Error] (a [ValueError]) on an
    odd length or a digit that is not hexadecimal. *)
Fixpoint unhexlify (s : string) : result bytes :=
  match s with
  | EmptyString => Ok []
  | String _ EmptyString => Raise ValueError
  | String c1 (String c2 s') =>
      match hex_val c1, hex_val c2 with
      | Some h, Some l =>
          match Byte.of_N (16 * h + l) with
          | Some x => b ← unhexlify s'; Ok (x :: b)
          | None => Raise ValueError
          end
      | _, _ => Raise ValueError
      end
  end.

Fixpoint int16_from (acc : N) (s : string) : result N :=
  match s with
  | EmptyString => Ok acc
  | String c s' =>
      match hex_val c with
      | Some d => int16_from (16 * acc + d) s'
      | None => Raise ValueError
      end
  end.

(** [int(s, 16)] on a string of hexadecimal digits (the only strings the
    source passes are digests). *)
Definition int16 (s : string) : result Z :=
  match s with
  | EmptyString => Raise ValueError
  | _ => Z.of_N <$> int16_from 0 s
  end.

(** The [k] low hexadecimal digits of [n], most significant first. *)
Fixpoint hex_digits (k : nat) (n : N) : string :=
  match k with
  | O => ""
  | S k' => hex_digits k' (n / 16) +:+ String (hex_char (n mod 16)) ""
  end.

(** [hexdigest()] of a 256-bit digest: 64 lower-case digits. *)
Definition hexdigest (n : N) : string := hex_digits 64 n.

(** ** Python values and JSON documents *)

(** The dynamically typed values [serialize] and [deserialize] work on.
    [VObj cls fields] is an instance of the NamedTuple class [cls] with its
    fields in declaration order. *)
Inductive pyval :=
| VNone
| VBool (b : bool)
| VInt (z : Z)
| VStr (s : string)
| VBytes (b : bytes)
| VList (l : list pyval)
| VObj (cls : string) (fields : list (string * pyval)).

(** What [json.dumps] consumes and [json.loads] produces; a [JObj] is a
    [dict] in insertion order. *)
Inductive json :=
| JNull
| JBool (b : bool)
| JInt (z : Z)
| JStr (s : string)
| JArr (l : list json)
| JObj (d : list (string * json)).

(** *** Insertion-ordered dictionaries with string keys *)

Section dict.
Context {V : Type}.

Fixpoint dict_get (k : string) (d : list (string * V)) : option V :=
  match d with
  | [] => None
  | (k', v) :: d' => if decide (k = k') then Some v else dict_get k d'
  end.

(** [d[k] = v]: an existing key keeps its position. *)
Fixpoint dict_set (k : string) (v : V) (d : list (string * V))
  : list (string * V) :=
  match d with
  | [] => [(k, v)]
  | (k', v') :: d' =>
      if decide (k = k') then (k, v) :: d' else (k', v') :: dict_set k v d'
  end.

(** [d.pop(k, None)], the dictionary part. *)
Fixpoint dict_del (k : string) (d : list (string * V)) : list (string * V) :=
  match d with
  | [] => []
  | (k', v') :: d' =>
      if decide (k = k') then d' else (k', v') :: dict_del k d'
  end.

Definition dict_keys (d : list (string * V)) : list string := d.*1.
End dict.

(** *** [json.dumps(o, sort_keys=True, separators=(',', ':'))] *)

Definition hex4 (n : N) : string := hex_digits 4 n.

(** The double quote. *)
Definition dquote : ascii := ascii_of_N 34.

(** One character of a string under [ensure_ascii]. *)
Definition json_escape_char (c : ascii) : string :=
  let n := N_of_ascii c in
  if (n =? 34)%N then String "\" (String dquote "")
  else if (n =? 92)%N then "\\"
  else if (n =? 10)%N then "\n"
  else if (n =? 13)%N then "\r"
  else if (n =? 9)%N then "\t"
  else if (n =? 8)%N then "\b"
  else if (n =? 12)%N then "\f"
  else if ((n <? 32) || (126 <? n))%N then "\u" +:+ hex4 n
  else String c "".

Fixpoint json_escape (s : string) : string :=
  match s with
  | EmptyString => ""
  | String c s' => json_escape_char c +:+ json_escape s'
  end.

Definition json_quote (s : string) : string :=
  String dquote (json_escape s) +:+ String dquote "".

Fixpoint join_comma (l : list string) : string :=
  match l with
  | [] => ""
  | [x] => x
  | x :: l' => x +:+ "," +:+ join_comma l'
  end.

(** Keys in ascending code-point order, as [sort_keys=True] emits them. *)
Fixpoint insert_sorted (kv : string * string) (l : list (string * string))
  : list (string * string) :=
  match l with
  | [] => [kv]
  | kv' :: l' =>
      if String.leb kv.1 kv'.1 then kv :: l else kv' :: insert_sorted kv l'
  end.

Definition sort_keys (l : list (string * string)) : list (string * string) :=
  foldr insert_sorted [] l.

(** An integer is printed whatever its size.  An interpreter that
    limits the digits of the conversion between [int] and [str]
    (CPython from 3.11 on: 4300 digits) raises [ValueError] beyond the
    limit, in [json.dumps] as in [json.loads]; such integers are outside
    this model. *)
Fixpoint json_dumps (j : json) : string :=
  match j with
  | JNull => "null"
  | JBool true => "true"
  | JBool false => "false"
  | JInt z => pretty z
  | JStr s => json_quote s
  | JArr l => "[" +:+ join_comma (map json_dumps l) +:+ "]"
  | JObj d =>
      "{" +:+
      join_comma
        (map (λ kv : string * string, json_quote kv.1 +:+ ":" +:+ kv.2)
             (sort_keys (map (λ kv : string * json, (kv.1, json_dumps kv.2)) d)))
      +:+ "}"
  end.

(** *** The length of the text *)

(** The length of [json_escape s], without building it. *)
Fixpoint escaped_length (s : string) : nat :=
  match s with
  | EmptyString => 0
  | String c s' => String.length (json_escape_char c) + escaped_length s'
  end.

Definition sum_with {A} (f : A → nat) (l : list A) : nat :=
  foldr (λ x n, f x + n)%nat 0%nat l.

(** The length of [json_dumps j], without building it. *)
Fixpoint json_size (j : json) : nat :=
  match j with
  | JNull => 4
  | JBool true => 4
  | JBool false => 5
  | JInt z => String.length (pretty z)
  | JStr s => 2 + escaped_length s
  | JArr l => 2 + (sum_with json_size l + (length l - 1))
  | JObj d =>
      2 + (sum_with (λ kv : string * json,
                       2 + escaped_length kv.1 + 1 + json_size kv.2) d
           + (length d - 1))
  end%nat.

(** *** [json.loads] *)

Definition is_ws (c : ascii) : bool :=
  let n := N_of_ascii c in
  ((n =? 32) || (n =? 9) || (n =? 10) || (n =? 13))%N.

Definition is_digit (c : ascii) : bool :=
  let n := N_of_ascii c in ((48 <=? n) && (n <=? 57))%N.

Fixpoint skip_ws (s : string) : string :=
  match s with
  | String c s' => if is_ws c then skip_ws s' else s
  | EmptyString => s
  end.

(** [expect_lit lit s]: [s] with the prefix [lit] removed. *)
Fixpoint expect_lit (lit s : string) : option string :=
  match lit, s with
  | EmptyString, _ => Some s
  | String a lit', String b s' =>
      if decide (a = b) then expect_lit lit' s' else None
  | String _ _, EmptyString => None
  end.

(** The body of a string literal, after its opening quote. *)
Fixpoint parse_string_body (s : string) : result (string * string) :=
  match s with
  | EmptyString => Raise ValueError
  | String c s' =>
      let n := N_of_ascii c in
      if (n =? 34)%N then Ok ("", s')
      else if (n =? 92)%N then
        match s' with
        | String e s'' =>
            let m := N_of_ascii e in
            if (m =? 117)%N then
              match s'' with
              | String h1 (String h2 (String h3 (String h4 s3))) =>
                  match hex_val h1, hex_val h2, hex_val h3, hex_val h4 with
                  | Some a, Some b, Some c', Some d =>
                      let cp := (((a * 16 + b) * 16 + c') * 16 + d)%N in
                      if (cp <? 256)%N
                      then '(r, rest) ← parse_string_body s3;
                           Ok (String (ascii_of_N cp) r, rest)
                      else Raise Unmodelled
                  | _, _, _, _ => Raise ValueError
                  end
              | _ => Raise ValueError
              end
            else
              let plain (x : N) :=
                '(r, rest) ← parse_string_body s'';
                Ok (String (ascii_of_N x) r, rest) in
              if (m =? 34)%N then plain 34%N
              else if (m =? 92)%N then plain 92%N
              else if (m =? 47)%N then plain 47%N
              else if (m =? 98)%N then plain 8%N
              else if (m =? 102)%N then plain 12%N
              else if (m =? 110)%N then plain 10%N
              else if (m =? 114)%N then plain 13%N
              else if (m =? 116)%N then plain 9%N
              else Raise ValueError
        | EmptyString => Raise ValueError
        end
      else if (n <? 32)%N then Raise ValueError
      else '(r, rest) ← parse_string_body s'; Ok (String c r, rest)
  end.

Fixpoint parse_digits (acc : Z) (s : string) : Z * string :=
  match s with
  | String c s' =>
      if is_digit c
      then parse_digits (10 * acc + Z.of_N (N_of_ascii c - 48)) s'
      else (acc, s)
  | EmptyString => (acc, s)
  end.

(** An integer literal; a fraction or an exponent makes it a float, which
    the value model does not have. *)
Definition parse_number (neg : bool) (s : string) : result (json * string) :=
  match s with
  | String c s' =>
      if is_digit c then
        let '(z, rest) :=
          if (N_of_ascii c =? 48)%N then (0, s') else parse_digits 0 s in
        match rest with
        | String d _ =>
            let n := N_of_ascii d in
            if ((n =? 46) || (n =? 101) || (n =? 69))%N then Raise Unmodelled
            else Ok (JInt (if neg then - z else z), rest)
        | EmptyString => Ok (JInt (if neg then - z else z), rest)
        end
      else Raise ValueError
  | EmptyString => Raise ValueError
  end.

Fixpoint parse_value (fuel : nat) (s : string) {struct fuel}
  : result (json * string) :=
  match fuel with
  | O => Raise ValueError
  | S fuel' =>
      match skip_ws s with
      | EmptyString => Raise ValueError
      | String c s' =>
          let n := N_of_ascii c in
          if (n =? 34)%N then
            '(str, rest) ← parse_string_body s'; Ok (JStr str, rest)
          else if (n =? 91)%N then
            match skip_ws s' with
            | String c' rest =>
                if (N_of_ascii c' =? 93)%N then Ok (JArr [], rest)
                else parse_elems fuel' s' []
            | EmptyString => Raise ValueError
            end
          else if (n =? 123)%N then
            match skip_ws s' with
            | String c' rest =>
                if (N_of_ascii c' =? 125)%N then Ok (JObj [], rest)
                else parse_members fuel' s' []
            | EmptyString => Raise ValueError
            end
          else if (n =? 45)%N then
            match expect_lit "Infinity" s' with
            | Some _ => Raise Unmodelled
            | None => parse_number true s'
            end
          else if is_digit c then parse_number false (String c s')
          else
            match expect_lit "null" (String c s'),
                  expect_lit "true" (String c s'),
                  expect_lit "false" (String c s') with
            | Some rest, _, _ => Ok (JNull, rest)
            | _, Some rest, _ => Ok (JBool true, rest)
            | _, _, Some rest => Ok (JBool false, rest)
            | _, _, _ =>
                match expect_lit "NaN" (String c s'),
                      expect_lit "Infinity" (String c s') with
                | None, None => Raise ValueError
                | _, _ => Raise Unmodelled
                end
            end
      end
  end
with parse_elems (fuel : nat) (s : string) (acc : list json) {struct fuel}
  : result (json * string) :=
  match fuel with
  | O => Raise ValueError
  | S fuel' =>
      '(v, rest) ← parse_value fuel' s;
      match skip_ws rest with
      | String c rest' =>
          let n := N_of_ascii c in
          if (n =? 44)%N then parse_elems fuel' rest' (acc ++ [v])
          else if (n =? 93)%N then Ok (JArr (acc ++ [v]), rest')
          else Raise ValueError
      | EmptyString => Raise ValueError
      end
  end
with parse_members (fuel : nat) (s : string) (acc : list (string * json))
  {struct fuel} : result (json * string) :=
  match fuel with
  | O => Raise ValueError
  | S fuel' =>
      match skip_ws s with
      | String q s' =>
          if (N_of_ascii q =? 34)%N then
            '(k, rest) ← parse_string_body s';
            match skip_ws rest with
            | String c rest' =>
                if (N_of_ascii c =? 58)%N then
                  '(v, rest2) ← parse_value fuel' rest';
                  match skip_ws rest2 with
                  | String c2 rest3 =>
                      let n := N_of_ascii c2 in
                      if (n =? 44)%N
                      then parse_members fuel' rest3 (dict_set k v acc)
                      else if (n =? 125)%N
                      then Ok (JObj (dict_set k v acc), rest3)
                      else Raise ValueError
                  | EmptyString => Raise ValueError
                  end
                else Raise ValueError
            | EmptyString => Raise ValueError
            end
          else Raise ValueError
      | EmptyString => Raise ValueError
      end
  end.

(** [json.loads]: one value, then nothing but white space.  Every call
    of the parser consumes a character within two steps, so twice the
    length of the text is fuel enough. *)
Definition json_loads (s : string) : result json :=
  '(j, rest) ← parse_value (2 * String.length s + 2) s;
  match skip_ws rest with
  | EmptyString => Ok j
  | String _ _ => Raise ValueError
  end.

(** ** The typed records as Python values *)

Class ToVal (A : Type) := to_val : A -> pyval.
#[global] Hint Mode ToVal ! : typeclass_instances.

#[global] Instance Z_to_val : ToVal Z := VInt.
#[global] Instance bool_to_val : ToVal bool := VBool.
#[global] Instance string_to_val : ToVal string := VStr.
#[global] Instance bytes_to_val : ToVal bytes := VBytes.
#[global] Instance option_to_val `{ToVal A} : ToVal (option A) :=
  λ o, match o with Some a => to_val a | None => VNone end.
#[global] Instance list_to_val `{ToVal A} : ToVal (list A) :=
  λ l, VList (map to_val l).

#[global] Instance OutPoint_to_val : ToVal OutPoint := λ o,
  VObj "OutPoint" [("txid", to_val (txid o));
                   ("txout_idx", to_val (txout_idx o))].

#[global] Instance TxIn_to_val : ToVal TxIn := λ i,
  VObj "TxIn" [("to_spend", to_val (to_spend i));
               ("unlock_sig", to_val (unlock_sig i));
               ("unlock_pk", to_val (unlock_pk i));
               ("sequence", to_val (sequence i))].

#[global] Instance TxOut_to_val : ToVal TxOut := λ o,
  VObj "TxOut" [("value", to_val (value o));
                ("to_address", to_val (to_address o))].

#[global] Instance UnspentTxOut_to_val : ToVal UnspentTxOut := λ u,
  VObj "UnspentTxOut" [("value", to_val (utxo_value u));
                       ("to_address", to_val (utxo_to_address u));
                       ("txid", to_val (utxo_txid u));
                       ("tx_idx", to_val (utxo_tx_idx u));
                       ("is_coinbase", to_val (utxo_is_coinbase u));
                       ("height", to_val (utxo_height u))].

#[global] Instance Transaction_to_val : ToVal Transaction := λ t,
  VObj "Transaction" [("txins", to_val (txins t));
                      ("txouts", to_val (txouts t));
                      ("locktime", to_val (locktime t))].

#[global] Instance Block_to_val : ToVal Block := λ b,
  VObj "Block" [("version", to_val (version b));
                ("prev_block_hash", to_val (prev_block_hash b));
                ("merkle_hash", to_val (merkle_hash b));
                ("timestamp", to_val (timestamp b));
                ("bits", to_val (bits b));
                ("nonce", to_val (nonce b));
                ("txns", to_val (txns b))].

(** ** [serialize] *)

(** [contents_to_primitive]: a NamedTuple becomes the dictionary of its
    fields plus ["_type"], a list is mapped, [bytes] are hexlified, and the
    values of the dictionary are converted in turn. *)
Fixpoint contents_to_primitive (o : pyval) : json :=
  match o with
  | VNone => JNull
  | VBool b => JBool b
  | VInt z => JInt z
  | VStr s => JStr s
  | VBytes b => JStr (hexlify b)
  | VList l => JArr (map contents_to_primitive l)
  | VObj cls fields =>
      JObj (map (λ kv : string * pyval, (kv.1, contents_to_primitive kv.2))
                fields
            ++ [("_type", JStr cls)])
  end.

Definition serialize_val (o : pyval) : string :=
  json_dumps (contents_to_primitive o).

Definition serialize `{ToVal A} (x : A) : string := serialize_val (to_val x).

(** ** [deserialize] *)

(** A NamedTuple class as [deserialize] sees it: its fields in order, each
    with its default when it has one, and the fields whose type hint is
    [bytes]. *)
Record pyclass := mkClass {
  cls_name : string;
  cls_fields : list (string * option pyval);
  cls_bytes_keys : list string }.

(** [globals()], restricted to the NamedTuple classes of the data model
    (and [MerkleNode]); any other name is reported absent. *)
Definition gs (name : string) : option pyclass :=
  let req (l : list string) := map (λ k, (k, @None pyval)) l in
  if decide (name = "OutPoint") then
    Some (mkClass name (req ["txid"; "txout_idx"]) [])
  else if decide (name = "TxIn") then
    Some (mkClass name (req ["to_spend"; "unlock_sig"; "unlock_pk"; "sequence"])
                  ["unlock_sig"; "unlock_pk"])
  else if decide (name = "TxOut") then
    Some (mkClass name (req ["value"; "to_address"]) [])
  else if decide (name = "UnspentTxOut") then
    Some (mkClass name
            (req ["value"; "to_address"; "txid"; "tx_idx"; "is_coinbase";
                  "height"]) [])
  else if decide (name = "Transaction") then
    Some (mkClass name (req ["txins"; "txouts"] ++ [("locktime", Some VNone)])
                  [])
  else if decide (name = "Block") then
    Some (mkClass name
            (req ["version"; "prev_block_hash"; "merkle_hash"; "timestamp";
                  "bits"; "nonce"; "txns"]) [])
  else if decide (name = "MerkleNode") then
    Some (mkClass name (req ["val"] ++ [("children", Some VNone)]) [])
  else None.

(** [gs[o.pop('_type', None)]] on the raw JSON value of the tag. *)
Definition lookup_type (tag : option json) : result pyclass :=
  match tag with
  | Some (JStr name) =>
      match gs name with
      | Some c => Ok c
      | None => Raise KeyError
      end
  | Some (JArr _) | Some (JObj _) => Raise TypeError
  | _ => Raise KeyError
  end.

(** [binascii.unhexlify(v)] on a Python value. *)
Definition unhexlify_val (v : pyval) : result pyval :=
  match v with
  | VStr s => VBytes <$> unhexlify s
  | VBytes b => VBytes <$> unhexlify (string_of_list_byte b)
  | _ => Raise TypeError
  end.

(** The call of [_type] with the dictionary unpacked as keywords: every
    keyword must be a field, every field without a default must be given. *)
Definition construct (c : pyclass) (o : list (string * pyval))
  : result pyval :=
  if forallb (λ k, bool_decide (k ∈ (cls_fields c).*1)) (dict_keys o) then
    fields ← rmap (λ fd : string * option pyval,
                     match dict_get fd.1 o, fd.2 with
                     | Some v, _ => Ok (fd.1, v)
                     | None, Some dflt => Ok (fd.1, dflt)
                     | None, None => Raise TypeError
                     end) (cls_fields c);
    Ok (VObj (cls_name c) fields)
  else Raise TypeError.

(** [contents_to_objs]; the inner loop is [for k, v in o.items()] over the
    members left after the tag has been popped. *)
Fixpoint contents_to_objs (o : json) : result pyval :=
  match o with
  | JNull => Ok VNone
  | JBool b => Ok (VBool b)
  | JInt z => Ok (VInt z)
  | JStr s => Ok (VStr s)
  | JArr l => VList <$> rmap contents_to_objs l
  | JObj d =>
      c ← lookup_type (dict_get "_type" d);
      fields ← (fix members (d : list (string * json)) :=
                  match d with
                  | [] => Ok []
                  | (k, v) :: d' =>
                      if decide (k = "_type") then members d'
                      else
                        v1 ← contents_to_objs v;
                        v2 ← (if bool_decide (k ∈ cls_bytes_keys c)
                              then unhexlify_val v1 else Ok v1);
                        rest ← members d';
                        Ok ((k, v2) :: rest)
                  end) d;
      construct c fields
  end.

Definition deserialize (serialized : string) : result pyval :=
  j ← json_loads serialized;
  contents_to_objs j.

(** ** Parameters of the node *)

Module Params.
Definition MAX_BLOCK_SERIALIZED_SIZE : Z := 1000000.
Definition COINBASE_MATURITY : Z := 2.
Definition MAX_FUTURE_BLOCK_TIME : Z := 60 * 60 * 2.
Definition BELUSHIS_PER_COIN : Z := 100000000.
Definition TOTAL_COINS : Z := 21000000.
Definition MAX_MONEY : Z := BELUSHIS_PER_COIN * TOTAL_COINS.
Definition TIME_BETWEEN_BLOCKS_IN_SECS_TARGET : Z := 1 * 60.
Definition DIFFICULTY_PERIOD_IN_SECS_TARGET : Z := 60 * 60 * 10.
(** The source computes this with [/]: it is the float [600.0]. *)
Definition DIFFICULTY_PERIOD_IN_BLOCKS : Z :=
  DIFFICULTY_PERIOD_IN_SECS_TARGET / TIME_BETWEEN_BLOCKS_IN_SECS_TARGET.
Definition INITIAL_DIFFICULTY_BITS : Z := 22.
Definition HALVE_SUBSIDY_AFTER_BLOCKS_NUM : Z := 210000.
End Params.

(** ** Merkle nodes *)

Inductive MerkleNode :=
| mkMerkleNode (val : string) (children : option (list MerkleNode)).

Definition val (n : MerkleNode) : string :=
  match n with mkMerkleNode v _ => v end.

Definition children (n : MerkleNode) : option (list MerkleNode) :=
  match n with mkMerkleNode _ c => c end.

(** ** Chain state *)

(** The module globals.  [active_chain] is the current binding of the
    global of that name.  [find_block] takes the list object the global
    named when the module was loaded as the default of its [chain]
    parameter; [try_reorg] rebinds the global to a fresh list, after which
    the two differ: [stale_default_chain] is [None] while they are the same
    object and holds the old object once they are not.  [outbox] records
    what [send_to_peer] was asked to send. *)
Record State := mkState {
  active_chain : list Block;
  stale_default_chain : option (list Block);
  side_branches : list (list Block);
  orphan_blocks : list Block;
  utxo_set : gmap OutPoint UnspentTxOut;
  mempool : list (string * Transaction);
  orphan_txns : list Transaction;
  mine_interrupt : bool;
  outbox : list (string * Block) }.

Definition initial_state : State :=
  mkState [] None [] [] ∅ [] [] false [].

Definition set_active_chain (f : list Block -> list Block) (s : State) :=
  mkState (f (active_chain s)) (stale_default_chain s) (side_branches s)
          (orphan_blocks s) (utxo_set s) (mempool s) (orphan_txns s)
          (mine_interrupt s) (outbox s).

Definition set_stale_default_chain (v : option (list Block)) (s : State) :=
  mkState (active_chain s) v (side_branches s)
          (orphan_blocks s) (utxo_set s) (mempool s) (orphan_txns s)
          (mine_interrupt s) (outbox s).

Definition set_side_branches
    (f : list (list Block) -> list (list Block)) (s : State) :=
  mkState (active_chain s) (stale_default_chain s) (f (side_branches s))
          (orphan_blocks s) (utxo_set s) (mempool s) (orphan_txns s)
          (mine_interrupt s) (outbox s).

Definition set_orphan_blocks (f : list Block -> list Block) (s : State) :=
  mkState (active_chain s) (stale_default_chain s) (side_branches s)
          (f (orphan_blocks s)) (utxo_set s) (mempool s) (orphan_txns s)
          (mine_interrupt s) (outbox s).

Definition set_utxo_set
    (f : gmap OutPoint UnspentTxOut -> gmap OutPoint UnspentTxOut)
    (s : State) :=
  mkState (active_chain s) (stale_default_chain s) (side_branches s)
          (orphan_blocks s) (f (utxo_set s)) (mempool s) (orphan_txns s)
          (mine_interrupt s) (outbox s).

Definition set_mempool
    (f : list (string * Transaction) -> list (string * Transaction))
    (s : State) :=
  mkState (active_chain s) (stale_default_chain s) (side_branches s)
          (orphan_blocks s) (utxo_set s) (f (mempool s)) (orphan_txns s)
          (mine_interrupt s) (outbox s).

Definition set_orphan_txns
    (f : list Transaction -> list Transaction) (s : State) :=
  mkState (active_chain s) (stale_default_chain s) (side_branches s)
          (orphan_blocks s) (utxo_set s) (mempool s) (f (orphan_txns s))
          (mine_interrupt s) (outbox s).

Definition set_mine_interrupt (v : bool) (s : State) :=
  mkState (active_chain s) (stale_default_chain s) (side_branches s)
          (orphan_blocks s) (utxo_set s) (mempool s) (orphan_txns s)
          v (outbox s).

Definition set_outbox
    (f : list (string * Block) -> list (string * Block)) (s : State) :=
  mkState (active_chain s) (stale_default_chain s) (side_branches s)
          (orphan_blocks s) (utxo_set s) (mempool s) (orphan_txns s)
          (mine_interrupt s) (f (outbox s)).

(** The list object that is the default [chain] of [find_block]. *)
Definition default_chain (s : State) : list Block :=
  match stale_default_chain s with
  | None => active_chain s
  | Some l => l
  end.

(** ** Computations over the module globals *)

Definition Py (A : Type) : Type := State -> result A * State.

#[global] Instance Py_ret : MRet Py := λ A a s, (Ok a, s).
#[global] Instance Py_bind : MBind Py := λ A B k m s,
  match m s with
  | (Ok a, s') => k a s'
  | (Raise e, s') => (Raise e, s')
  end.

Definition raise {A} (e : exn) : Py A := λ s, (Raise e, s).
Definition lift {A} (r : result A) : Py A := λ s, (r, s).
(** A computation that only reads the globals. *)
Definition reading {A} (f : State -> result A) : Py A := λ s, (f s, s).
Definition modify (f : State -> State) : Py unit := λ s, (Ok tt, f s).

(** [try: m  except E: h], with [h e = None] when [e] is not an [E]. *)
Definition try_except {A} (m : Py A) (h : exn -> option (Py A)) : Py A :=
  λ s, match m s with
       | (Ok a, s') => (Ok a, s')
       | (Raise e, s') =>
           match h e with
           | Some k => k s'
           | None => (Raise e, s')
           end
       end.

(** [for x in l: f(x)] *)
Fixpoint for_each {A} (f : A -> Py unit) (l : list A) : Py unit :=
  match l with
  | [] => mret tt
  | x :: l' => _ ← f x; for_each f l'
  end.

Fixpoint rfor_each {A} (f : A -> result unit) (l : list A) : result unit :=
  match l with
  | [] => Ok tt
  | x :: l' => _ ← f x; rfor_each f l'
  end.

(** [enumerate(l, start)] *)
Fixpoint enumerate {A} (start : nat) (l : list A) : list (nat * A) :=
  match l with
  | [] => []
  | x :: l' => (start, x) :: enumerate (S start) l'
  end.

(** ** Transactions *)

(** [Transaction.is_coinbase] *)
Definition is_coinbase (t : Transaction) : bool :=
  bool_decide (length (txins t) = 1%nat) &&
  match txins t !! 0%nat with
  | Some i => bool_decide (to_spend i = None)
  | None => false
  end.

(** [Transaction.create_coinbase] *)
Definition create_coinbase (pay_to_addr : string) (value height : Z)
  : Transaction :=
  mkTransaction
    [mkTxIn None (list_byte_of_string (pretty height)) None 0]
    [mkTxOut value pay_to_addr]
    None.

Definition sum_values (l : list TxOut) : Z := foldr Z.add 0 (map value l).

(** [Transaction.validate_basics] *)
Definition validate_basics (t : Transaction) (as_coinbase : bool)
  : result unit :=
  if bool_decide (txouts t = []) ||
     (bool_decide (txins t = []) && negb as_coinbase)
  then Raise (TxnValidationError "Missing txouts or txins" None)
  else if Z.of_nat (String.length (serialize t))
          >? Params.MAX_BLOCK_SERIALIZED_SIZE
  then Raise (TxnValidationError "Too large" None)
  else if sum_values (txouts t) >? Params.MAX_MONEY
  then Raise (TxnValidationError "Spend value too high" None)
  else Ok tt.

(** [str(x)] for a field that is a string or [None]. *)
Definition str_or_None (o : option string) : string :=
  match o with
  | Some s => s
  | None => "None"
  end.

(** [Block.header] *)
Definition header (b : Block) (nonce_arg : option Z) : string :=
  pretty (version b) +:+ str_or_None (prev_block_hash b) +:+ merkle_hash b
  +:+ pretty (timestamp b) +:+ pretty (bits b)
  +:+ pretty (match nonce_arg with
              | Some n => if n =? 0 then nonce b else n
              | None => nonce b
              end).

(** [block._replace(txns=[*block.txns, tx])] *)
Definition with_txn (b : Block) (tx : Transaction) : Block :=
  mkBlock (version b) (prev_block_hash b) (merkle_hash b) (timestamp b)
          (bits b) (nonce b) (txns b ++ [tx]).

(** The literal of the source. *)
Definition genesis_block : Block :=
  mkBlock 0 None
    "dfef8eb972026bbe9e98b26616fe90e60e3ff223d0a596e78bde6632109d7ef0"
    1501396299 26 1845989
    [mkTransaction []
       [mkTxOut 5000000000 "143UVyz7ooiAv1pMqbwPPpnH4BV9ifJGFF"]
       None].

(** [a << n]: Python refuses a negative shift count. *)
Definition lshift (a n : Z) : result Z :=
  if n <? 0 then Raise ValueError else Ok (Z.shiftl a n).

(** The argument [UnspentTxOut.from_mempool_txn] is called with. *)
Inductive txn_arg :=
| ArgStr (s : string)
| ArgTxn (t : Transaction).

(** What the node takes from outside the repository. *)
Class Env := mkEnv {
  (** [hashlib.sha256(hashlib.sha256(s.encode()).digest())], as a number;
      [sha256d] prints its 256 low bits. *)
  double_sha256 : string -> N;
  (** The reading of [time.time()], rounded down (timestamps are integers,
      so the comparison with it is not affected); one reading per call. *)
  time_time : Z;
  (** [TC_PEERLIST] *)
  peerlist : list string;
  (** SHA-256, RIPEMD-160 and base58check of a public key. *)
  pubkey_to_address_bytes : bytes -> string;
  (** Whether [ecdsa.VerifyingKey.from_string] accepts the key, and
      whether the key verifies a signature of a message. *)
  VerifyingKey_from_string : bytes -> bool;
  VerifyingKey_verify : bytes -> bytes -> string -> bool }.

Section Node.
Context `{Env}.

Definition sha256d (s : string) : string := hexdigest (double_sha256 s).

(** [Transaction.id] and [Block.id] *)
Definition Transaction_id (t : Transaction) : string :=
  sha256d (serialize t).

Definition Block_id (b : Block) : string := sha256d (header b None).

(** [UnspentTxOut.from_mempool_txn]: reads [txn.txouts], then unpacks
    each output with a double star, which a NamedTuple does not
    support. *)
Definition from_mempool_txn (txn : txn_arg) : result (list UnspentTxOut) :=
  match txn with
  | ArgStr _ => Raise AttributeError
  | ArgTxn t =>
      rmap (λ _ : TxOut, @Raise UnspentTxOut TypeError) (txouts t)
  end.

(** *** Chain queries *)

Definition get_current_height (s : State) : Z :=
  Z.of_nat (length (active_chain s)).

Fixpoint find_in_chain (block_hash : option string) (height : nat)
    (chain : list Block) : option (Block * nat) :=
  match chain with
  | [] => None
  | block :: chain' =>
      if bool_decide (Some (Block_id block) = block_hash)
      then Some (block, height)
      else find_in_chain block_hash (S height) chain'
  end.

Fixpoint find_in_chains (block_hash : option string) (chain_idx : nat)
    (chains : list (list Block)) : option (Block * nat * nat) :=
  match chains with
  | [] => None
  | chain :: chains' =>
      match find_in_chain block_hash 0 chain with
      | Some (block, height) => Some (block, height, chain_idx)
      | None => find_in_chains block_hash (S chain_idx) chains'
      end
  end.

(** [find_block(block_hash, chain)]; [None] stands for the triple of
    [None]s.  An empty [chain] is as false as [None]. *)
Definition find_block (block_hash : option string)
    (chain : option (list Block)) (s : State)
  : option (Block * nat * nat) :=
  let chains :=
    match chain with
    | Some (b :: c) => [b :: c]
    | _ => active_chain s :: side_branches s
    end in
  find_in_chains block_hash 0 chains.

(** [find_block(block_hash)], with the default [chain]. *)
Definition find_block_default (block_hash : option string) (s : State)
  : option (Block * nat * nat) :=
  find_block block_hash (Some (default_chain s)) s.

(** [get_median_time_past] *)
Definition get_median_time_past (num_last_blocks : nat) (s : State) : Z :=
  let last_n_blocks := take num_last_blocks (reverse (active_chain s)) in
  match last_n_blocks !! (length last_n_blocks / 2)%nat with
  | Some b => timestamp b
  | None => 0
  end.

(** *** Proof of work *)

(** [get_next_work_required].  [DIFFICULTY_PERIOD_IN_BLOCKS] is a float,
    so [prev_height - (PERIOD - 1)] is one too; [max(x, 0)] returns the
    integer [0] only when [0 > x], and a float is no list index. *)
Definition get_next_work_required (prev_block_hash : option string)
    (s : State) : result Z :=
  match prev_block_hash with
  | None | Some "" => Ok Params.INITIAL_DIFFICULTY_BITS
  | Some _ =>
      match find_block prev_block_hash None s with
      | None => Raise TypeError
      | Some (prev_block, prev_height, _) =>
          if negb ((Z.of_nat prev_height + 1)
                     mod Params.DIFFICULTY_PERIOD_IN_BLOCKS =? 0)
          then Ok (bits prev_block)
          else
            let x := Z.of_nat prev_height
                     - (Params.DIFFICULTY_PERIOD_IN_BLOCKS - 1) in
            if 0 >? x then
              match active_chain s !! 0%nat with
              | None => Raise IndexError
              | Some period_start_block =>
                  let actual_time_taken :=
                    timestamp prev_block - timestamp period_start_block in
                  if actual_time_taken
                     <? Params.DIFFICULTY_PERIOD_IN_SECS_TARGET
                  then Ok (bits prev_block + 1)
                  else if actual_time_taken
                          >? Params.DIFFICULTY_PERIOD_IN_SECS_TARGET
                  then Ok (bits prev_block - 1)
                  else Ok (bits prev_block)
              end
            else Raise TypeError
      end
  end.

(** *** Merkle trees *)

(** One level up: the comprehension over [_chunks(nodes, 2)], whose
    pattern takes exactly two nodes from every chunk. *)
Fixpoint pair_level (nodes : list MerkleNode) : result (list MerkleNode) :=
  match nodes with
  | [] => Ok []
  | [_] => Raise ValueError
  | i1 :: i2 :: rest =>
      let node := mkMerkleNode (sha256d (val i1 +:+ val i2))
                               (Some [i1; i2]) in
      newlevel ← pair_level rest;
      Ok (node :: newlevel)
  end.

(** [find_root]; a level is at most half as long as the one below, so
    the length of the first level bounds the depth of the recursion
    (lemma [find_root_fuel]). *)
Fixpoint find_root (fuel : nat) (nodes : list MerkleNode)
  : result MerkleNode :=
  match fuel with
  | O => Raise Unmodelled
  | S fuel' =>
      newlevel ← pair_level nodes;
      if bool_decide (1 < length newlevel)%nat
      then find_root fuel' newlevel
      else match newlevel !! 0%nat with
           | Some root => Ok root
           | None => Raise IndexError
           end
  end.

(** [get_merkle_root] *)
Definition get_merkle_root (leaves : list string) : result MerkleNode :=
  let leaves :=
    if bool_decide (length leaves `mod` 2 = 1)%nat
    then match last leaves with
         | Some l => leaves ++ [l]
         | None => leaves
         end
    else leaves in
  find_root (S (length leaves))
            (map (λ l, mkMerkleNode (sha256d l) None) leaves).

Definition get_merkle_root_of_txns (txns : list Transaction)
  : result MerkleNode :=
  get_merkle_root (map Transaction_id txns).

(** *** UTXO set and mempool *)

(** [add_to_utxo] *)
Definition add_to_utxo (txout : TxOut) (tx : Transaction) (idx : Z)
    (is_cb : bool) (height : Z) : Py unit :=
  let utxo := mkUnspentTxOut (value txout) (to_address txout)
                             (Transaction_id tx) idx is_cb height in
  modify (set_utxo_set (λ m, <[outpoint utxo := utxo]> m)).

(** [rm_from_utxo]: [del] of a missing key raises. *)
Definition rm_from_utxo (txid : string) (tx_idx : Z) : Py unit :=
  λ s, match utxo_set s !! mkOutPoint txid tx_idx with
       | Some _ => (Ok tt, set_utxo_set (delete (mkOutPoint txid tx_idx)) s)
       | None => (Raise KeyError, s)
       end.

(** [utxo_set.get(txin.to_spend)] and [txin.to_spend in utxo_set] *)
Definition utxo_get (k : option OutPoint) (s : State)
  : option UnspentTxOut :=
  match k with
  | Some op => utxo_set s !! op
  | None => None
  end.

(** [find_utxo_in_mempool]: the transaction found is handed to
    [from_mempool_txn] as its [id]. *)
Definition find_utxo_in_mempool (txin : TxIn) (s : State)
  : result (option UnspentTxOut) :=
  match to_spend txin with
  | None => Raise AttributeError
  | Some op =>
      let tx_to_spend_hash := txid op in
      let idx := txout_idx op in
      match dict_get tx_to_spend_hash (mempool s) with
      | Some found_in_mempool =>
          found_utxos ←
            from_mempool_txn (ArgStr (Transaction_id found_in_mempool));
          (* [found_utxos[idx]], a negative index counting from the end *)
          let n := Z.of_nat (length found_utxos) in
          let i := if idx <? 0 then idx + n else idx in
          if (0 <=? i) && (i <? n)
          then Ok (found_utxos !! Z.to_nat i)
          else Ok None
      | None => Ok None
      end
  end.

(** *** Validation *)

Definition build_spend_message (to_spend : option OutPoint) (pk : bytes)
    (sequence : Z) (txouts : list TxOut) : string :=
  sha256d (serialize to_spend +:+ pretty sequence +:+ hexlify pk
           +:+ serialize txouts).

(** [validate_signature_for_spend] *)
Definition validate_signature_for_spend (txin : TxIn) (utxo : UnspentTxOut)
    (txn : Transaction) : result bool :=
  match unlock_pk txin with
  | None => Raise TypeError
  | Some pk =>
      let pubkey_as_addr := pubkey_to_address_bytes pk in
      if negb (VerifyingKey_from_string pk) then Raise EcdsaError
      else if negb (bool_decide (pubkey_as_addr = utxo_to_address utxo))
      then Raise (TxUnlockError "Pubkey doesn't match")
      else
        let spend_msg :=
          build_spend_message (to_spend txin) pk (sequence txin)
                              (txouts txn) in
        if VerifyingKey_verify pk (unlock_sig txin) spend_msg then Ok true
        else Raise (TxUnlockError "Signature doesn't match")
  end.

(** The body of the loop of [validate_txn] over the inputs; it returns
    [utxo.value]. *)
Definition validate_txin (txn : Transaction)
    (allow_utxo_from_mempool : bool) (s : State) (i : nat) (txin : TxIn)
  : result Z :=
  utxo ← (match utxo_get (to_spend txin) s with
          | Some u => Ok (Some u)
          | None =>
              if allow_utxo_from_mempool then find_utxo_in_mempool txin s
              else Ok None
          end);
  match utxo with
  | None =>
      Raise (TxnValidationError
               ("Could find no UTXO for TxIn[" +:+ pretty i
                +:+ "] -- orphaning txn") (Some txn))
  | Some utxo =>
      if utxo_is_coinbase utxo &&
         (get_current_height s - utxo_height utxo
            <? Params.COINBASE_MATURITY)
      then Raise (TxnValidationError "Coinbase UTXO not ready for spend"
                                     None)
      else
        match validate_signature_for_spend txin utxo txn with
        | Raise (TxUnlockError _) =>
            Raise (TxnValidationError " is not a valid spend of " None)
        | Raise e => Raise e
        | Ok _ => Ok (utxo_value utxo)
        end
  end.

Fixpoint validate_txins (txn : Transaction) (allow : bool) (s : State)
    (available_to_spend : Z) (l : list (nat * TxIn)) : result Z :=
  match l with
  | [] => Ok available_to_spend
  | (i, txin) :: l' =>
      v ← validate_txin txn allow s i txin;
      validate_txins txn allow s (available_to_spend + v) l'
  end.

(** [validate_txn], for an argument that is a [Transaction]. *)
Definition validate_txn (txn : Transaction) (as_coinbase : bool)
    (allow_utxo_from_mempool : bool) (s : State) : result Transaction :=
  _ ← validate_basics txn as_coinbase;
  available_to_spend ←
    validate_txins txn allow_utxo_from_mempool s 0
                   (enumerate 0 (txins txn));
  if available_to_spend <? sum_values (txouts txn)
  then Raise (TxnValidationError "Spend value is more than available" None)
  else Ok txn.

(** [[i for (i, tx) in enumerate(block.txns) if tx.is_coinbase]] *)
Definition coinbase_indices (txns : list Transaction) : list nat :=
  (filter (λ p : nat * Transaction, is_coinbase p.2 = true)
          (enumerate 0 txns)).*1.

(** Re-raise a [TxnValidationError] as a [BlockValidationError]. *)
Definition as_block_error {A} (msg : string) (r : result A) : result A :=
  match r with
  | Raise (TxnValidationError _ _) => Raise (BlockValidationError msg None)
  | _ => r
  end.

(** [validate_block], for an argument that is a [Block]. *)
Definition validate_block (block : Block) (s : State)
  : result (Block * nat) :=
  if bool_decide (txns block = [])
  then Raise (BlockValidationError "txns empty" None)
  else if timestamp block - time_time >? Params.MAX_FUTURE_BLOCK_TIME
  then Raise (BlockValidationError "Block timestamp too far in future" None)
  else
    h ← int16 (Block_id block);
    target ← lshift 1 (256 - bits block);
    if h >? target
    then Raise (BlockValidationError "Block header doesn't satisfy bits"
                                     None)
    else if negb (bool_decide (coinbase_indices (txns block) = [0%nat]))
    then Raise (BlockValidationError
                  "First txn must be coinbase and no more" None)
    else
      _ ← as_block_error "Invalid txn {txn.id}"
            (rfor_each (λ p : nat * Transaction,
                          validate_basics p.2 (bool_decide (p.1 = 0%nat)))
                       (enumerate 0 (txns block)));
      root ← get_merkle_root_of_txns (txns block);
      if negb (bool_decide (val root = merkle_hash block))
      then Raise (BlockValidationError "Merkle hash invalid" None)
      else
        required ← get_next_work_required (prev_block_hash block) s;
        if negb (required =? bits block)
        then Raise (BlockValidationError "bits is incorrect" None)
        else if timestamp block <=? get_median_time_past 11 s
        then Raise (BlockValidationError "timestamp too old" None)
        else
          let validate_rest (prev_block_chain_idx : nat) :=
            _ ← as_block_error " failed to validate"
                  (rfor_each (λ txn, _ ← validate_txn txn false false s;
                                     Ok tt)
                             (drop 1 (txns block)));
            Ok (block, prev_block_chain_idx) in
          let no_prev_hash :=
            match prev_block_hash block with
            | None | Some "" => true
            | Some _ => false
            end in
          if no_prev_hash && bool_decide (active_chain s = [])
          then validate_rest 0%nat
          else
            match find_block (prev_block_hash block) None s with
            | None =>
                Raise (BlockValidationError
                         "prev block not found in any chain" (Some block))
            | Some (prev_block, prev_block_height, prev_block_chain_idx) =>
                if negb (bool_decide (prev_block_chain_idx = 0%nat))
                then Ok (block, prev_block_chain_idx)
                else if negb (bool_decide
                                (Some prev_block = last (active_chain s)))
                then Ok (block, (prev_block_chain_idx + 1)%nat)
                else validate_rest prev_block_chain_idx
            end.

(** *** Reorganisation *)

(** The loop of [try_reorg] over the branch.  [false] is the
    [return False] of the handler, which first rebinds [active_chain];
    [true] means that the loop ran to its end. *)
Fixpoint reorg_connect (fork_idx : nat) (old_active_branch : list Block)
    (branch : list Block) : Py bool :=
  match branch with
  | [] => mret true
  | block :: rest =>
      ok ← try_except
             (_ ← reading (validate_block block); mret true)
             (λ e, match e with
                   | BlockValidationError _ _ =>
                       Some (_ ← modify (set_active_chain
                               (λ ac, take fork_idx ac ++ old_active_branch));
                             mret false)
                   | _ => None
                   end);
      if ok : bool
      then _ ← modify (set_active_chain (λ ac, ac ++ [block]));
           reorg_connect fork_idx old_active_branch rest
      else mret false
  end.

(** [d.pop(k)] without a default, on the mempool *)
Definition mempool_pop_strict (txn_id : string) : Py unit :=
  λ s, match dict_get txn_id (mempool s) with
       | Some _ => (Ok tt, set_mempool (dict_del txn_id) s)
       | None => (Raise KeyError, s)
       end.

(** [try_reorg(branch, branch_idx, fork_idx)].  The first assignment to
    the global makes it name a fresh list; the list it named before
    stays the default of [find_block].  The last step is the
    [active_chain[-1].id] of the final log line, which raises on an
    empty chain. *)
Definition try_reorg (branch : list Block) (branch_idx fork_idx : nat)
  : Py bool :=
  λ s,
    let old_active_branch := drop (S fork_idx) (active_chain s) in
    let rebound :=
      set_active_chain (λ ac, take fork_idx ac ++ branch)
        (set_stale_default_chain (Some (default_chain s)) s) in
    let add :=
      foldl (λ d txn, dict_set (Transaction_id txn) txn d) []
            (concat (map txns branch)) in
    let rm := map Transaction_id (concat (map txns old_active_branch)) in
    (ok ← reorg_connect fork_idx old_active_branch branch;
     if ok : bool then
       _ ← (λ s', if bool_decide (branch_idx < length (side_branches s'))%nat
                  then (Ok tt,
                        set_side_branches
                          (λ sb, delete branch_idx sb ++ [old_active_branch])
                          s')
                  else (Raise IndexError, s'));
       _ ← for_each mempool_pop_strict rm;
       _ ← for_each (λ kv : string * Transaction,
                       modify (set_mempool (dict_set kv.1 kv.2))) add;
       _ ← ((λ s', match last (active_chain s') with
                   | Some _ => (Ok tt, s')
                   | None => (Raise IndexError, s')
                   end) : Py unit);
       mret true
     else mret false) rebound.

(** The call [try_reorg(chain)] of [reorg_if_necessary]: two of the three
    positional arguments are missing, and Python raises before the body
    runs. *)
Definition try_reorg_one_argument (chain : list Block) : Py bool :=
  raise TypeError.

(** The body of the loop of [reorg_if_necessary]. *)
Definition reorg_step (reorged : bool) (i : nat) (chain : list Block)
  : Py bool :=
  λ s,
    match chain !! 0%nat with
    | None => (Raise IndexError, s)
    | Some root =>
        match find_block_default (prev_block_hash root) s with
        | None => (Raise TypeError, s)
        | Some (fork_block, fork_idx, _) =>
            let active_height := length (active_chain s) in
            let branch_height := (length chain + fork_idx)%nat in
            if bool_decide (active_height < branch_height)%nat
            then (r ← try_reorg_one_argument chain;
                  mret (reorged || r)) s
            else (Ok reorged, s)
        end
    end.

Fixpoint reorg_loop (reorged : bool) (l : list (nat * list Block))
  : Py bool :=
  match l with
  | [] => mret reorged
  | (i, chain) :: l' =>
      reorged' ← reorg_step reorged i chain;
      reorg_loop reorged' l'
  end.

(** [reorg_if_necessary] *)
Definition reorg_if_necessary : Py bool :=
  λ s, reorg_loop false (enumerate 1 (side_branches s)) s.

(** *** Connecting a block *)

(** [send_to_peer], which swallows every failure. *)
Definition send_to_peer (block : Block) (peer : string) : Py unit :=
  modify (set_outbox (λ l, l ++ [(peer, block)])).

(** [idx_to_chain(idx)] *)
Definition idx_to_chain (idx : nat) (s : State) : result (list Block) :=
  match idx with
  | O => Ok (active_chain s)
  | S i =>
      match side_branches s !! i with
      | Some chain => Ok chain
      | None => Raise IndexError
      end
  end.

(** [idx_to_chain(idx).append(block)] *)
Definition chain_append (idx : nat) (block : Block) : Py unit :=
  λ s, match idx with
       | O => (Ok tt, set_active_chain (λ ac, ac ++ [block]) s)
       | S i =>
           match side_branches s !! i with
           | Some chain =>
               (Ok tt,
                set_side_branches (λ sb, <[i := chain ++ [block]]> sb) s)
           | None => (Raise IndexError, s)
           end
       end.

(** The body of the loop of [connect_block] over the transactions of
    the block; [chain_len] is [len(chain)]. *)
Definition connect_txn (chain_len : Z) (tx : Transaction) : Py unit :=
  _ ← modify (set_mempool (dict_del (Transaction_id tx)));
  _ ← (if negb (is_coinbase tx)
       then for_each (λ txin,
                        match to_spend txin with
                        | None => raise TypeError
                        | Some op => rm_from_utxo (txid op) (txout_idx op)
                        end) (txins tx)
       else mret tt);
  for_each (λ p : nat * TxOut,
              add_to_utxo p.2 tx (Z.of_nat p.1) (is_coinbase tx) chain_len)
           (enumerate 0 (txouts tx)).

(** [connect_block], for an argument that is a [Block]. *)
Definition connect_block (block : Block) : Py (option nat) :=
  validated ←
    try_except
      (r ← reading (validate_block block); mret (Some r))
      (λ e, match e with
            | BlockValidationError _ to_orphan =>
                Some (_ ← match to_orphan with
                          | Some o =>
                              modify (set_orphan_blocks (λ l, l ++ [o]))
                          | None => mret tt
                          end;
                      mret None)
            | _ => None
            end);
  match validated with
  | None => mret None
  | Some (block, chain_idx) =>
      seen ← reading (λ s, Ok (find_block_default
                                 (Some (Block_id block)) s));
      match seen with
      | Some _ => mret None
      | None =>
          _ ← chain_append chain_idx block;
          chain ← reading (idx_to_chain chain_idx);
          _ ← for_each (connect_txn (Z.of_nat (length chain)))
                       (txns block);
          reorged ← reorg_if_necessary;
          _ ← (if reorged || bool_decide (chain_idx = 0%nat)
               then modify (set_mine_interrupt true)
               else mret tt);
          _ ← for_each (send_to_peer block) peerlist;
          mret (Some chain_idx)
      end
  end.

(** *** Mempool selection *)

(** [check_block_size(b)]: the body measures [block], the variable of
    [select_from_mempool], and not its parameter [b]. *)
Definition check_block_size (outer_block : option Block)
    (b : option Block) : bool :=
  Z.of_nat (String.length (serialize outer_block))
    <? Params.MAX_BLOCK_SERIALIZED_SIZE.

(** The loop of [add_to_block] over the inputs: [true] when it runs to
    its end, [false] for its [return None].  The recursive call
    [add_to_block(in_mempool.txid)] lacks an argument. *)
Fixpoint resolve_txins (s : State) (l : list TxIn) : result bool :=
  match l with
  | [] => Ok true
  | txin :: l' =>
      match utxo_get (to_spend txin) s with
      | Some _ => resolve_txins s l'
      | None =>
          in_mempool ← find_utxo_in_mempool txin s;
          match in_mempool with
          | None => Ok false
          | Some _ => Raise TypeError
          end
      end
  end.

(** [add_to_block(block, txid)], with the set [added_to_block] threaded
    through. *)
Definition add_to_block (s : State) (outer_block : option Block)
    (added_to_block : gset string) (block : option Block) (txid : string)
  : result (option Block * gset string) :=
  if bool_decide (txid ∈ added_to_block) then Ok (block, added_to_block)
  else
    match dict_get txid (mempool s) with
    | None => Raise KeyError
    | Some tx =>
        resolved ← resolve_txins s (txins tx);
        if resolved : bool then
          match block with
          | None => Raise AttributeError
          | Some b =>
              let newblock := with_txn b tx in
              if check_block_size outer_block (Some newblock)
              then Ok (Some newblock, {[txid]} ∪ added_to_block)
              else Ok (block, added_to_block)
          end
        else Ok (None, added_to_block)
    end.

(** The loop [for txid in mempool] of [select_from_mempool]. *)
Fixpoint select_loop (s : State) (added_to_block : gset string)
    (block : option Block) (txids : list string) : result (option Block) :=
  match txids with
  | [] => Ok block
  | txid :: txids' =>
      '(newblock, added) ← add_to_block s block added_to_block block txid;
      if check_block_size block newblock
      then select_loop s added newblock txids'
      else Ok block
  end.

(** [select_from_mempool] *)
Definition select_from_mempool (block : Block) (s : State)
  : result (option Block) :=
  select_loop s ∅ (Some block) (dict_keys (mempool s)).

End Node.

(** ** Vocabulary of the statements *)

Section vocabulary.
Context `{Env}.

(** A side branch as [reorg_if_necessary] measures it: the parent of its
    first block is found by [find_block] at position [fork_idx], and the
    branch height is [len(chain) + fork_idx]. *)
Definition branch_height (s : State) (chain : list Block) (h : nat) : Prop :=
  ∃ root fork_block fork_idx chain_idx,
    chain !! 0%nat = Some root
    ∧ find_block_default (prev_block_hash root) s
      = Some (fork_block, fork_idx, chain_idx)
    ∧ h = (length chain + fork_idx)%nat.

Definition branch_not_longer (s : State) (chain : list Block) : Prop :=
  ∃ h, branch_height s chain h ∧ (h ≤ length (active_chain s))%nat.

Definition branch_longer (s : State) (chain : list Block) : Prop :=
  ∃ h, branch_height s chain h ∧ (length (active_chain s) < h)%nat.

(** The upkeep of the UTXO set and of the mempool for a connected block,
    as folds: every non-coinbase input is deleted, every output is
    inserted at [height], every transaction leaves the mempool. *)
Definition spend_inputs (tx : Transaction)
    (m : gmap OutPoint UnspentTxOut) : gmap OutPoint UnspentTxOut :=
  foldl (λ m txin, match to_spend txin with
                   | Some op => delete op m
                   | None => m
                   end) m (txins tx).

Definition add_outputs (tx : Transaction) (height : Z)
    (m : gmap OutPoint UnspentTxOut) : gmap OutPoint UnspentTxOut :=
  foldl (λ m (p : nat * TxOut),
           <[mkOutPoint (Transaction_id tx) (Z.of_nat p.1) :=
               mkUnspentTxOut (value p.2) (to_address p.2)
                              (Transaction_id tx) (Z.of_nat p.1)
                              (is_coinbase tx) height]> m)
        m (enumerate 0 (txouts tx)).

Definition upkeep_utxo (b : Block) (height : Z)
    (m : gmap OutPoint UnspentTxOut) : gmap OutPoint UnspentTxOut :=
  foldl (λ m tx, add_outputs tx height
                   (if is_coinbase tx then m else spend_inputs tx m))
        m (txns b).

Definition upkeep_mempool (b : Block)
    (mp : list (string * Transaction)) : list (string * Transaction) :=
  foldl (λ mp tx, dict_del (Transaction_id tx) mp) mp (txns b).

Definition serialized_size `{ToVal A} (x : A) : Z :=
  Z.of_nat (String.length (serialize x)).

(** The digest of the header of a block, as the number [int(block.id, 16)]
    is. *)
Definition block_hash_int (b : Block) : Z :=
  Z.of_N (double_sha256 (header b None) mod 2 ^ 256).

(** [r] is a raised [BlockValidationError]. *)
Definition raises_block_error {A} (r : result A) : Prop :=
  ∃ msg to_orphan, r = Raise (BlockValidationError msg to_orphan).
End vocabulary.

(** ** Concrete nodes

    Closed instances of the environment and small chains, on which the
    functions above are run. *)

Module Scenario.

(** A stand-in for the double SHA-256: a 32-bit polynomial checksum of
    the first 256 characters.  Its digests are far below every target. *)
Fixpoint checksum (acc : N) (s : string) : N :=
  match s with
  | EmptyString => acc
  | String c s' =>
      checksum (N.land (acc * 31 + N_of_ascii c) 4294967295)%N s'
  end.

Definition digest (s : string) : N :=
  checksum 7 (String.substring 0 256 s).

Definition env : Env :=
  mkEnv digest 1600000000 ["peer:9999"] (λ _, "1addr")
        (λ _, true) (λ _ _ _, true).

(** An environment whose digest is always [2^234], the target of
    [bits = 22]. *)
Definition boundary_env : Env :=
  mkEnv (λ _, 2 ^ 234)%N 1600000000 [] (λ _, "1addr")
        (λ _, true) (λ _ _ _, true).

(** A block over [txs] with its Merkle root filled in. *)
Definition block_of `{Env} (prev : option string) (ts : Z)
    (txs : list Transaction) : Block :=
  let root := match get_merkle_root_of_txns txs with
              | Ok r => val r
              | Raise _ => ""
              end in
  mkBlock 0 prev root ts 22 0 txs.

Definition boundary_block : Block :=
  block_of (H := boundary_env) None 1500000000
           [create_coinbase "1miner" 5000000000 0].

Section chains.
Existing Instance env.

(** The active chain [G; A1], mined from the empty chain. *)
Definition G : Block :=
  block_of None 1500000000 [create_coinbase "1miner" 5000000000 0].
Definition A1 : Block :=
  block_of (Some (Block_id G)) 1500000100
           [create_coinbase "1miner" 5000000000 1].

Definition after_G : State := (connect_block G initial_state).2.
Definition after_A1 : State := (connect_block A1 after_G).2.

(** A competing branch that forks after [G]. *)
Definition B1 : Block :=
  block_of (Some (Block_id G)) 1500000200
           [create_coinbase "1other" 5000000000 1].
Definition B2 : Block :=
  block_of (Some (Block_id B1)) 1500000300
           [create_coinbase "1other" 5000000000 2].
Definition B3 : Block :=
  block_of (Some (Block_id B2)) 1500000400
           [create_coinbase "1other" 5000000000 3].

Definition with_branch (branch : list Block) (s : State) : State :=
  set_side_branches (λ _, [branch]) s.

(** [G; A1] active, [B1; B2; B3] aside: the branch is longer. *)
Definition longer_branch : State := with_branch [B1; B2; B3] after_A1.

(** A block without transactions, which [validate_block] refuses. *)
Definition empty_block : Block :=
  mkBlock 0 (Some (Block_id G)) "" 1500000200 22 0 [].

(** A transaction of the mempool that spends the coinbase of [G], and
    a block for the side branch that includes it. *)
Definition spend_G : Transaction :=
  mkTransaction
    [mkTxIn (Some (mkOutPoint
                     (Transaction_id
                        (create_coinbase "1miner" 5000000000 0)) 0))
            [x01] (Some [x02]) 0]
    [mkTxOut 4000000000 "1bob"]
    None.

Definition side_state : State :=
  set_mempool (λ _, [(Transaction_id spend_G, spend_G)])
              (with_branch [B1] after_A1).

Definition B2_spending : Block :=
  block_of (Some (Block_id B1)) 1500000300
           [create_coinbase "1other" 5000000000 2; spend_G].

(** A mempool holding [spend_G], and a transaction that spends its
    output while it is unmined. *)
Definition child_of_spend_G : Transaction :=
  mkTransaction
    [mkTxIn (Some (mkOutPoint (Transaction_id spend_G) 0))
            [x01] (Some [x02]) 0]
    [mkTxOut 3000000000 "1carol"]
    None.

Definition mempool_state : State :=
  set_mempool (λ _, [(Transaction_id spend_G, spend_G)]) after_A1.

(** Two transactions of some 600,000 bytes each, both spending
    committed outputs, and the template the miner starts from. *)
Fixpoint repeat_char (n : nat) (c : ascii) : string :=
  match n with
  | O => ""
  | S n' => String c (repeat_char n' c)
  end.

Definition long_address : string :=
  repeat_char (N.to_nat 600000) "a"%char.

Definition big_tx (from : Transaction) (n : Z) : Transaction :=
  mkTransaction
    [mkTxIn (Some (mkOutPoint (Transaction_id from) 0))
            [x01] (Some [x02]) n]
    [mkTxOut 1 long_address]
    None.

Definition big_tx1 : Transaction :=
  big_tx (create_coinbase "1miner" 5000000000 0) 1.
Definition big_tx2 : Transaction :=
  big_tx (create_coinbase "1miner" 5000000000 1) 2.

Definition big_mempool_state : State :=
  set_mempool (λ _, [(Transaction_id big_tx1, big_tx1);
                     (Transaction_id big_tx2, big_tx2)]) after_A1.

Definition template : Block :=
  mkBlock 0 (Some (Block_id A1)) "" 1500000500 22 0 [].
End chains.

(** The coinbase input and transaction the codec is run on. *)
Definition coinbase_txin : TxIn := mkTxIn None [x30] None 0.
Definition coinbase_txn : Transaction :=
  create_coinbase "143UVyz7ooiAv1pMqbwPPpnH4BV9ifJGFF" 5000000000 0.
Definition coinbase_block : Block :=
  mkBlock 0 None "" 1501396299 22 0 [coinbase_txn].
End Scenario.

(** ** Further functions of the node

    The chain queries, the miner and the handlers of transactions that
    the sections above do not need. *)

(** [l[i]] for a Python [int]: a negative index counts from the end. *)
Definition getitem {A} (l : list A) (i : Z) : result A :=
  let n := Z.of_nat (length l) in
  let j := if i <? 0 then i + n else i in
  if (0 <=? j) && (j <? n)
  then match l !! Z.to_nat j with
       | Some x => Ok x
       | None => Raise IndexError
       end
  else Raise IndexError.

(** [range(l)] for a list [l]: a list is no integer. *)
Definition range_of_list {A} (l : list A) : result (list Z) :=
  Raise TypeError.

(** [block._replace(nonce=nonce)] *)
Definition with_nonce (b : Block) (n : Z) : Block :=
  mkBlock (version b) (prev_block_hash b) (merkle_hash b) (timestamp b)
          (bits b) n (txns b).



(** How a call whose body starts with an [assert] ends. *)
Inductive asserted (A : Type) :=
| Passed (r : result A)
| AssertionError.
Arguments Passed {A} r.
Arguments AssertionError {A}.

Section Miner.
Context `{Env}.

(** *** Chain queries *)

(** [get_height]: the loop runs over the reversed active chain. *)
Definition get_height (block_hash : string) (s : State) : Z :=
  match find_in_chain (Some block_hash) 0 (reverse (active_chain s)) with
  | Some (_, i) => Z.of_nat i
  | None => -1
  end.

(** [txn_iterator] and [txin_iterator], as the lists they generate. *)
Definition txn_iterator (chain : list Block)
  : list (Transaction * Block * nat) :=
  concat (map (λ p : nat * Block, map (λ txn, (txn, p.2, p.1)) (txns p.2))
              (enumerate 0 chain)).

Definition txin_iterator (chain : list Block) : list (TxIn * nat) :=
  concat (map (λ p : Transaction * Block * nat,
                 map (λ txin, (txin, p.2)) (txins p.1.1))
              (txn_iterator chain)).

(** [find_with_txin_in_mempool] *)
Definition find_with_txin_in_mempool (txin : TxIn) (s : State)
  : option Transaction :=
  (λ p : nat * (string * Transaction), p.2.2)
    <$> list_find (λ kv : string * Transaction, txin ∈ txins kv.2)
                  (mempool s).

(** *** Subsidy and fees *)

(** [get_block_subsidy] *)
Definition get_block_subsidy (s : State) : Z :=
  let halvings :=
    Z.of_nat (length (active_chain s))
    / Params.HALVE_SUBSIDY_AFTER_BLOCKS_NUM in
  if halvings >=? 64 then 0
  else 50 * Params.BELUSHIS_PER_COIN / 2 ^ halvings.

(** [utxo_from_block] of [calculate_fees].  The filter reads
    [txin.to_spend.txid] once per transaction of the block; the result
    reads [txin.to_spend.tx_idx], an attribute an [OutPoint] does not
    have. *)
Definition utxo_from_block (block : Block) (txin : TxIn)
  : result (option TxOut) :=
  tx ← match txns block, to_spend txin with
       | [], _ => Ok []
       | _ :: _, None => Raise AttributeError
       | _ :: _, Some op =>
           Ok (map txouts
                   (filter (λ t, Transaction_id t = txid op) (txns block)))
       end;
  match tx with
  | [] => Ok None
  | _ :: _ => Raise AttributeError
  end.

(** [find_utxo(txin).value] of [calculate_fees] *)
Definition find_utxo_value (block : Block) (s : State) (txin : TxIn)
  : result Z :=
  match utxo_get (to_spend txin) s with
  | Some u => Ok (utxo_value u)
  | None =>
      found ← utxo_from_block block txin;
      match found with
      | Some o => Ok (value o)
      | None => Raise AttributeError
      end
  end.

Definition sum_Z (l : list Z) : Z := foldr Z.add 0 l.

(** The loop of [calculate_fees]. *)
Fixpoint fees_loop (block : Block) (s : State) (fee : Z)
    (l : list Transaction) : result Z :=
  match l with
  | [] => Ok fee
  | txn :: l' =>
      values ← rmap (find_utxo_value block s) (txins txn);
      let spent := sum_Z values in
      let sent := sum_values (txouts txn) in
      fees_loop block s (fee + (spent - sent)) l'
  end.

(** [calculate_fees]; the argument is what [select_from_mempool]
    returned, which may be [None]. *)
Definition calculate_fees (block : option Block) (s : State) : result Z :=
  match block with
  | None => Raise AttributeError
  | Some b => fees_loop b s 0 (txns b)
  end.

(** *** Mining *)

(** The loop of [mine], from [nonce] on.  [is_set n] is what
    [mine_interrupt.is_set()] answers when it is asked at nonce [n]: the
    flag is set by the thread that connects blocks.  [None] is a search
    that has not ended within [fuel] nonces; [Ok None] is the
    interrupted search. *)
Fixpoint mine_loop (fuel : nat) (is_set : Z → bool) (block : Block)
    (target nonce : Z) : option (result (option Z)) :=
  match fuel with
  | O => None
  | S fuel' =>
      match int16 (sha256d (header block (Some nonce))) with
      | Raise e => Some (Raise e)
      | Ok h =>
          if h >=? target then
            let nonce := nonce + 1 in
            if (nonce mod 10000 =? 0) && is_set nonce then Some (Ok None)
            else mine_loop fuel' is_set block target nonce
          else Some (Ok (Some nonce))
      end
  end.

(** [mine] *)
Definition mine (fuel : nat) (is_set : Z → bool) (block : Block)
  : State → option (result (option Block) * State) :=
  λ s,
    match lshift 1 (256 - bits block) with
    | Raise e => Some (Raise e, s)
    | Ok target =>
        let s := set_mine_interrupt false s in
        match mine_loop fuel is_set block target 0 with
        | None => None
        | Some (Raise e) => Some (Raise e, s)
        | Some (Ok None) => Some (Ok None, s)
        | Some (Ok (Some nonce)) => Some (Ok (Some (with_nonce block nonce)), s)
        end
    end.



(** *** Accepting a transaction *)

(** [accept_txn], for an argument that is a [Transaction].  The value
    lists what was handed to [send_to_peer], peer by peer; the function
    of the source returns [None]. *)
Definition accept_txn (txn : Transaction)
  : Py (list (string * Transaction)) :=
  try_except
    (txn ← reading (validate_txn txn false true);
     _ ← modify (set_mempool (dict_set (Transaction_id txn) txn));
     mret (map (λ peer, (peer, txn)) peerlist))
    (λ e, match e with
          | TxnValidationError _ (Some o) =>
              Some (_ ← modify (set_orphan_txns (λ l, l ++ [o])); mret [])
          | TxnValidationError _ None => Some (mret [])
          | _ => None
          end).

(** *** Disconnecting a block *)

(** [_find_txout_for_txin]; [None] is the fall through the loop. *)
Definition _find_txout_for_txin (txin : TxIn) (chain : list Block)
  : result (option (TxOut * Transaction * Z * bool * Z)) :=
  match to_spend txin with
  | None => Raise TypeError
  | Some op =>
      match list_find (λ p : Transaction * Block * nat,
                         Transaction_id p.1.1 = txid op)
                      (txn_iterator chain) with
      | Some (_, (tx, _, height)) =>
          txout ← getitem (txouts tx) (txout_idx op);
          Ok (Some (txout, tx, txout_idx op, is_coinbase tx,
                    Z.of_nat height))
      | None => Ok None
      end
  end.

(** The body of the loop of [disconnect_block] over the transactions.
    Unpacking [None] with a star is a [TypeError]. *)
Definition disconnect_txn (chain : list Block) (tx : Transaction)
  : Py unit :=
  _ ← modify (set_mempool (dict_set (Transaction_id tx) tx));
  _ ← for_each (λ txin,
                  found ← lift (_find_txout_for_txin txin chain);
                  match found with
                  | Some (txout, tx', idx, is_cb, height) =>
                      add_to_utxo txout tx' idx is_cb height
                  | None => raise TypeError
                  end) (txins tx);
  idxs ← lift (range_of_list (txouts tx));
  for_each (rm_from_utxo (Transaction_id tx)) idxs.

(** [chain.pop()] on the list that is the default [chain]. *)
Definition default_chain_pop (s : State) : State :=
  match stale_default_chain s with
  | None => set_active_chain (λ l, removelast l) s
  | Some l => set_stale_default_chain (Some (removelast l)) s
  end.

(** [disconnect_block(block)], with the default [chain]. *)
Definition disconnect_block (block : Block)
  : State → asserted unit * State :=
  λ s,
    let chain := default_chain s in
    match last chain with
    | None => (Passed (Raise IndexError), s)
    | Some tip =>
        if bool_decide (block = tip) then
          match for_each (disconnect_txn chain) (txns block) s with
          | (Ok _, s') => (Passed (Ok tt), default_chain_pop s')
          | (Raise e, s') => (Passed (Raise e), s')
          end
        else (AssertionError, s)
    end.

(** *** Answering [GetBlocks] *)

(** The list [blocks] that [GetBlocks.handle] sends. *)
Definition GetBlocks_blocks (from_blockid : string) (s : State)
  : list Block :=
  let height :=
    match find_block_default (Some from_blockid) s with
    | Some (_, O, _) | None => 1%nat
    | Some (_, h, _) => h
    end in
  take 50 (drop height (active_chain s)).

End Miner.

(** ** JSON documents as [json.loads] gives them back

    [json.dumps] with [sort_keys] emits the members of an object in key
    order, so a document comes back with its objects sorted. *)

Fixpoint insert_member (kv : string * json) (l : list (string * json))
  : list (string * json) :=
  match l with
  | [] => [kv]
  | kv' :: l' =>
      if String.leb kv.1 kv'.1 then kv :: l else kv' :: insert_member kv l'
  end.

Definition sort_members (l : list (string * json)) : list (string * json) :=
  foldr insert_member [] l.

Fixpoint canonical (j : json) : json :=
  match j with
  | JArr l => JArr (map canonical l)
  | JObj d =>
      JObj (sort_members (map (λ kv : string * json,
                                 (kv.1, canonical kv.2)) d))
  | _ => j
  end.

(** No object of the document has a key twice. *)
Fixpoint well_keyed (j : json) : Prop :=
  match j with
  | JArr l => foldr (λ x P, well_keyed x ∧ P) True l
  | JObj d =>
      NoDup d.*1
      ∧ foldr (λ (kv : string * json) P, well_keyed kv.2 ∧ P) True d
  | _ => True
  end.

(** Fuel that is enough for [parse_value] on the text of [j]. *)
Fixpoint parse_fuel (j : json) : nat :=
  match j with
  | JArr l => S (sum_with (λ x, S (parse_fuel x)) l)
  | JObj d => S (sum_with (λ kv : string * json, S (parse_fuel kv.2)) d)
  | _ => 1
  end.

(** What may follow a value in a text: nothing, or the character that
    separates or closes. *)
Definition closes (rest : string) : Prop :=
  rest = ""
  ∨ ∃ c tl, rest = String c tl
            ∧ (c = ","%char ∨ c = "]"%char ∨ c = "}"%char).

(** What the parser is known to do on the text of a value. *)
Definition reads_back (j : json) : Prop :=
  ∀ fuel rest, (parse_fuel j ≤ fuel)%nat → closes rest →
               parse_value fuel (json_dumps j +:+ rest)
               = Ok (canonical j, rest).

(** The loop of [contents_to_objs] over the members of a dictionary, for
    the [bytes_keys] of its class. *)
Definition objs_members (bytes_keys : list string)
  : list (string * json) → result (list (string * pyval)) :=
  fix members (d : list (string * json)) :=
    match d with
    | [] => Ok []
    | (k, v) :: d' =>
        if decide (k = "_type") then members d'
        else
          v1 ← contents_to_objs v;
          v2 ← (if bool_decide (k ∈ bytes_keys)
                then unhexlify_val v1 else Ok v1);
          rest ← members d';
          Ok ((k, v2) :: rest)
    end.

(** [decodes v r]: the dictionary of [v], once through [json.dumps] and
    [json.loads], makes [contents_to_objs] end in [r]. *)
Definition decodes (v : pyval) (r : result pyval) : Prop :=
  well_keyed (contents_to_primitive v)
  ∧ contents_to_objs (canonical (contents_to_primitive v)) = r.

(** Inputs, transactions and blocks in which every input has a public
    key. *)
Definition signed_txin (i : TxIn) : bool :=
  match unlock_pk i with Some _ => true | None => false end.

Definition signed_txn (t : Transaction) : bool :=
  forallb signed_txin (txins t).

Definition signed_block (b : Block) : bool :=
  forallb signed_txn (txns b).

(** The integers an interpreter with the limit of 4300 digits on the
    conversion between [int] and [str] prints and reads (the sign is not
    counted), and the values that hold no other integer. *)
Definition MAX_STR_DIGITS : Z := 4300.

Definition int_prints (z : Z) : bool := Z.abs z <? 10 ^ MAX_STR_DIGITS.

Fixpoint ints_print (v : pyval) : bool :=
  match v with
  | VInt z => int_prints z
  | VList l => forallb ints_print l
  | VObj _ fields => forallb (λ kv : string * pyval, ints_print kv.2) fields
  | _ => true
  end.

(** ** Arguments that are texts

    [validate_txn] and [validate_block] take a text as well and put it
    through [deserialize] first.  The functions below read a Python
    value as a record of the data model; a value that is none is outside
    the model. *)

Definition as_Z (v : pyval) : option Z :=
  match v with VInt z => Some z | _ => None end.

Definition as_bool (v : pyval) : option bool :=
  match v with VBool b => Some b | _ => None end.

Definition as_string (v : pyval) : option string :=
  match v with VStr x => Some x | _ => None end.

Definition as_bytes (v : pyval) : option bytes :=
  match v with VBytes b => Some b | _ => None end.

Definition as_option {A} (f : pyval → option A) (v : pyval)
  : option (option A) :=
  match v with VNone => Some None | _ => Some <$> f v end.

Definition as_list {A} (f : pyval → option A) (v : pyval)
  : option (list A) :=
  match v with
  | VList l =>
      foldr (λ x acc, a ← f x; l' ← acc; Some (a :: l')) (Some []) l
  | _ => None
  end.

(** The field [k] of an instance of the class [cls]. *)
Definition field_of (cls k : string) (v : pyval) : option pyval :=
  match v with
  | VObj c fields => if decide (c = cls) then dict_get k fields else None
  | _ => None
  end.

Definition as_OutPoint (v : pyval) : option OutPoint :=
  t ← field_of "OutPoint" "txid" v ≫= as_string;
  i ← field_of "OutPoint" "txout_idx" v ≫= as_Z;
  Some (mkOutPoint t i).

Definition as_TxIn (v : pyval) : option TxIn :=
  sp ← field_of "TxIn" "to_spend" v ≫= as_option as_OutPoint;
  sg ← field_of "TxIn" "unlock_sig" v ≫= as_bytes;
  pk ← field_of "TxIn" "unlock_pk" v ≫= as_option as_bytes;
  sq ← field_of "TxIn" "sequence" v ≫= as_Z;
  Some (mkTxIn sp sg pk sq).

Definition as_TxOut (v : pyval) : option TxOut :=
  x ← field_of "TxOut" "value" v ≫= as_Z;
  a ← field_of "TxOut" "to_address" v ≫= as_string;
  Some (mkTxOut x a).

Definition as_Transaction (v : pyval) : option Transaction :=
  ins ← field_of "Transaction" "txins" v ≫= as_list as_TxIn;
  outs ← field_of "Transaction" "txouts" v ≫= as_list as_TxOut;
  lt ← field_of "Transaction" "locktime" v ≫= as_option as_Z;
  Some (mkTransaction ins outs lt).

Definition as_Block (v : pyval) : option Block :=
  ve ← field_of "Block" "version" v ≫= as_Z;
  pr ← field_of "Block" "prev_block_hash" v ≫= as_option as_string;
  mh ← field_of "Block" "merkle_hash" v ≫= as_string;
  ts ← field_of "Block" "timestamp" v ≫= as_Z;
  bt ← field_of "Block" "bits" v ≫= as_Z;
  nc ← field_of "Block" "nonce" v ≫= as_Z;
  tx ← field_of "Block" "txns" v ≫= as_list as_Transaction;
  Some (mkBlock ve pr mh ts bt nc tx).

Section texts.
Context `{Env}.

(** [validate_txn], for an argument that is a text. *)
Definition validate_txn_text (txn : string) (as_coinbase : bool)
    (allow_utxo_from_mempool : bool) (s : State) : result Transaction :=
  match deserialize txn with
  | Raise _ => Raise (TxnValidationError "Could not deserialize" None)
  | Ok v =>
      match as_Transaction v with
      | Some t => validate_txn t as_coinbase allow_utxo_from_mempool s
      | None => Raise Unmodelled
      end
  end.

(** [validate_block], for an argument that is a text. *)
Definition validate_block_text (block : string) (s : State)
  : result (Block * nat) :=
  match deserialize block with
  | Raise _ => Raise (BlockValidationError "Couldn't deserialize" None)
  | Ok v =>
      match as_Block v with
      | Some b => validate_block b s
      | None => Raise Unmodelled
      end
  end.

End texts.

(** ** Vocabulary of the further statements *)

Section more_vocabulary.
Context `{Env}.

(** The transactions after the coinbase pass [validate_txn] against the
    committed UTXO set. *)
Definition rest_valid (b : Block) (s : State) : Prop :=
  ∀ txn, txn ∈ drop 1 (txns b) → validate_txn txn false false s = Ok txn.

(** [s'] differs from [s] in the UTXO set and in the mempool at most. *)
Definition same_chains (s s' : State) : Prop :=
  active_chain s' = active_chain s
  ∧ stale_default_chain s' = stale_default_chain s
  ∧ side_branches s' = side_branches s
  ∧ orphan_blocks s' = orphan_blocks s
  ∧ orphan_txns s' = orphan_txns s
  ∧ mine_interrupt s' = mine_interrupt s
  ∧ outbox s' = outbox s.

(** What reaches the node and changes its state: a block handed to
    [connect_block] (by the miner, by [TCPHandler] or by [Inv.handle]) and
    a transaction handed to [accept_txn].  A call that raises ends its
    thread; the globals keep what it did. *)
Inductive event :=
| Connect (b : Block)
| Accept (txn : Transaction).

Definition step (s : State) (e : event) : State :=
  match e with
  | Connect b => (connect_block b s).2
  | Accept txn => (accept_txn txn s).2
  end.

Definition run (events : list event) (s : State) : State :=
  foldl step s events.

(** [u] is what [validate_txn] accepts for the input [txin] of [txn]:
    it is the committed output the input names, it is no coinbase output
    younger than [COINBASE_MATURITY], and the key and the signature of
    the input unlock it. *)
Definition spendable (txn : Transaction) (s : State) (txin : TxIn)
    (u : UnspentTxOut) : Prop :=
  utxo_get (to_spend txin) s = Some u
  ∧ (utxo_is_coinbase u = true →
     Params.COINBASE_MATURITY <= get_current_height s - utxo_height u)
  ∧ validate_signature_for_spend txin u txn = Ok true.

(** The input names an output that is neither committed nor produced by
    a transaction of the mempool. *)
Definition dangling (s : State) (txin : TxIn) : Prop :=
  ∃ op, to_spend txin = Some op
        ∧ utxo_set s !! op = None
        ∧ dict_get (txid op) (mempool s) = None.

(** Every input of every transaction of the block is a committed
    output. *)
Definition inputs_committed (b : Block) (s : State) : bool :=
  forallb (λ txn,
             forallb (λ txin,
                        bool_decide (is_Some (utxo_get (to_spend txin) s)))
                     (txins txn))
          (txns b).

(** What the transaction leaves to the miner. *)
Definition txn_fee (s : State) (txn : Transaction) : Z :=
  sum_Z (map (λ txin, default 0 (utxo_value <$> utxo_get (to_spend txin) s))
             (txins txn))
  - sum_values (txouts txn).

(** The subsidy of a block assembled on a chain of [n] blocks. *)
Definition subsidy_at_height (n : nat) : Z :=
  get_block_subsidy
    (set_active_chain (λ _, replicate n genesis_block) initial_state).

(** The number [mine] compares with the target at [nonce]. *)
Definition header_hash_int (b : Block) (nonce : Z) : Z :=
  Z.of_N (double_sha256 (header b (Some nonce)) mod 2 ^ 256).

(** The subsidies of the blocks of a chain, each taken at the length the
    chain had when the block was assembled. *)
Definition total_subsidy (chain : list Block) (s : State) : Z :=
  sum_Z (map (λ k, get_block_subsidy
                     (set_active_chain (λ _, take k chain) s))
             (seq 0 (length chain))).

End more_vocabulary.

(** ** Further concrete nodes *)

Module Cases.

(** A digest that sends every text that ends in the digit 3 to 0 and
    every other text to [2^255]: with it the search of [mine] takes four
    nonces. *)
Fixpoint last_ascii (c : ascii) (s : string) : ascii :=
  match s with
  | EmptyString => c
  | String c' s' => last_ascii c' s'
  end.

Definition mining_digest (s : string) : N :=
  if Ascii.eqb (last_ascii "0" s) "3" then 0%N else (2 ^ 255)%N.

Definition mining_env : Env :=
  mkEnv mining_digest 1600000000 [] (λ _, "1addr")
        (λ _, true) (λ _ _ _, true).

Definition unmined : Block := mkBlock 0 None "" 1500000000 22 0 [].


Section chains.
Existing Instance Scenario.env.

(** A chain of 600 blocks whose tip is at height 599, and a block for
    height 600.  Only the headers of the blocks of the chain matter. *)
Definition filler : Block := mkBlock 0 None "" 1500000000 22 0 [].
Definition period_tip : Block := mkBlock 0 None "" 1500000001 22 0 [].

Definition period_chain : list Block :=
  replicate 599 filler ++ [period_tip].

Definition period_state : State :=
  set_active_chain (λ _, period_chain) initial_state.

Definition after_period : Block :=
  Scenario.block_of (Some (Block_id period_tip)) 1500000200
                    [create_coinbase "1miner" 5000000000 600].

(** A block without parent hash, offered to a node that has a chain. *)
Definition stray : Block :=
  Scenario.block_of None 1500000100
                    [create_coinbase "1miner" 5000000000 7].

(** Three blocks whose coinbases pay the address every key of the
    environment hashes to, and a transaction that spends the first
    coinbase once it is mature. *)
Definition C0 : Block :=
  Scenario.block_of None 1500000000
                    [create_coinbase "1addr" 5000000000 0].
Definition C1 : Block :=
  Scenario.block_of (Some (Block_id C0)) 1500000100
                    [create_coinbase "1addr" 5000000000 1].
Definition C2 : Block :=
  Scenario.block_of (Some (Block_id C1)) 1500000200
                    [create_coinbase "1addr" 5000000000 2].

Definition after_C2 : State :=
  (connect_block C2
     (connect_block C1 (connect_block C0 initial_state).2).2).2.

Definition spend_C0 : Transaction :=
  mkTransaction
    [mkTxIn (Some (mkOutPoint
                     (Transaction_id
                        (create_coinbase "1addr" 5000000000 0)) 0))
            [x01] (Some [x02]) 0]
    [mkTxOut 4000000000 "1bob"]
    None.

(** A transaction that spends an output nobody has seen, alone in the
    mempool. *)
Definition unknown_input : TxIn :=
  mkTxIn (Some (mkOutPoint "nowhere" 0)) [x01] (Some [x02]) 0.

Definition spend_unknown : Transaction :=
  mkTransaction [unknown_input] [mkTxOut 1 "1bob"] None.

(** A block for the side branch [[B1]] whose second transaction spends
    that unknown output. *)
Definition B2_dangling : Block :=
  Scenario.block_of (Some (Block_id Scenario.B1)) 1500000300
                    [create_coinbase "1other" 5000000000 2; spend_unknown].

Definition dangling_state : State :=
  set_mempool (λ _, [(Transaction_id spend_unknown, spend_unknown)])
              Scenario.after_A1.

(** A chain of 210,000 blocks. *)
Definition halving_state : State :=
  set_active_chain (λ _, replicate (N.to_nat 210000) Scenario.G)
                   initial_state.

(** [G; A1] active and the branch [[B1]], which forks after [G]. *)
Definition fork_state : State :=
  Scenario.with_branch [Scenario.B1] Scenario.after_A1.

End chains.
End Cases.

(** * Properties *)

(** ** Digests read back as numbers *)

Lemma hex_val_hex_char (d : N) : (d < 16)%N -> hex_val (hex_char d) = Some d.
Proof.
  intros Hd.
  destruct d as [|p]; [reflexivity|].
  do 4 (destruct p as [p|p|]; try reflexivity; try lia).
Qed.

Lemma int16_from_app (s1 s2 : string) (acc : N) :
  int16_from acc (s1 +:+ s2) = a ← int16_from acc s1; int16_from a s2.
Proof.
  revert acc. induction s1 as [|c s1 IH]; intros acc; simpl; [reflexivity|].
  destruct (hex_val c); [apply IH | reflexivity].
Qed.

Lemma int16_from_hex_digits (k : nat) (n acc : N) :
  int16_from acc (hex_digits k n)
  = Ok (acc * 16 ^ N.of_nat k + n mod 16 ^ N.of_nat k)%N.
Proof.
  revert n acc. induction k as [|k IH]; intros n acc.
  - simpl. f_equal. rewrite N.mod_1_r. lia.
  - cbn [hex_digits]. rewrite int16_from_app, IH. cbn.
    rewrite hex_val_hex_char by (apply N.mod_upper_bound; lia).
    f_equal. rewrite Nat2N.inj_succ, N.pow_succ_r'.
    rewrite (N.Div0.mod_mul_r n 16). lia.
Qed.

Lemma hex_digits_nonempty (k : nat) (n : N) : hex_digits (S k) n ≠ "".
Proof. cbn [hex_digits]. destruct (hex_digits k (n / 16)); discriminate. Qed.

Lemma int16_hexdigest (n : N) :
  int16 (hexdigest n) = Ok (Z.of_N (n mod 2 ^ 256)).
Proof.
  unfold int16, hexdigest.
  pose proof (hex_digits_nonempty 63 n) as Hne.
  destruct (hex_digits 64 n) eqn:E; [congruence|].
  rewrite <- E, int16_from_hex_digits. cbn. do 2 f_equal.
Qed.

Lemma lshift_256 (b : Z) : b <= 256 -> lshift 1 (256 - b) = Ok (2 ^ (256 - b)).
Proof.
  intros Hb. unfold lshift.
  destruct (Z.ltb_spec (256 - b) 0); [lia|].
  by rewrite Z.shiftl_1_l.
Qed.

(** ** Coinbase transactions and the genesis literal *)

Lemma is_coinbase_true_iff (t : Transaction) :
  is_coinbase t = true ↔ ∃ i, txins t = [i] ∧ to_spend i = None.
Proof.
  unfold is_coinbase. destruct (txins t) as [|i [|j l]]; simpl.
  - split; [discriminate | intros (i & Hi & _); discriminate].
  - split.
    + intros Hc. exists i. split; [reflexivity|].
      by apply bool_decide_eq_true in Hc.
    + intros (i' & Hi & Hs). injection Hi as ->.
      by apply bool_decide_eq_true.
  - split; [discriminate | intros (i' & Hi & _); discriminate].
Qed.

Section genesis.
Context `{Env}.

(** Whatever the digest, the clock and the chain state, the genesis
    literal is refused with a [BlockValidationError] that orphans
    nothing. *)
Lemma validate_block_genesis (s : State) :
  ∃ msg, validate_block genesis_block s
         = Raise (BlockValidationError msg None).
Proof.
  unfold validate_block. cbn [txns genesis_block bool_decide].
  rewrite bool_decide_eq_false_2 by discriminate.
  destruct (_ >? Params.MAX_FUTURE_BLOCK_TIME); [by eexists|].
  unfold Block_id, sha256d. rewrite int16_hexdigest. cbn [mbind result_bind].
  rewrite lshift_256 by (cbn; lia). cbn [mbind result_bind].
  destruct (_ >? _); [by eexists|].
  by eexists.
Qed.

(** C10.  [is_coinbase] holds exactly of the transactions with one
    input whose [to_spend] is [None]; a transaction without inputs is
    no coinbase; the only transaction of the genesis literal has no
    input, so the list of coinbase positions of the literal is empty
    instead of [[0]], and [validate_block] refuses the literal in every
    state. *)
Theorem is_coinbase_one_nil_input :
  (∀ t, is_coinbase t = true ↔ ∃ i, txins t = [i] ∧ to_spend i = None)
  ∧ (∀ t, txins t = [] → is_coinbase t = false)
  ∧ (∃ tx, txns genesis_block = [tx] ∧ txins tx = []
           ∧ is_coinbase tx = false)
  ∧ coinbase_indices (txns genesis_block) = []
  ∧ coinbase_indices (txns genesis_block) ≠ [0%nat]
  ∧ (∀ s, ∃ msg, validate_block genesis_block s
                 = Raise (BlockValidationError msg None)).
Proof.
  split; [exact is_coinbase_true_iff|].
  split; [intros t Ht; unfold is_coinbase; by rewrite Ht|].
  split; [by eexists|].
  split; [reflexivity|].
  split; [discriminate|].
  exact validate_block_genesis.
Qed.

(** C1 (the code departs from it).  From the empty node,
    [connect_block] on the genesis literal returns [None] and changes
    nothing: the height stays 0 and the UTXO set stays empty. *)
Theorem connect_block_genesis_rejected :
  connect_block genesis_block initial_state = (Ok None, initial_state)
  ∧ get_current_height (connect_block genesis_block initial_state).2 = 0
  ∧ utxo_set (connect_block genesis_block initial_state).2 = ∅.
Proof.
  assert (connect_block genesis_block initial_state
          = (Ok None, initial_state)) as Heq.
  { destruct (validate_block_genesis initial_state) as [msg Hv].
    unfold connect_block, mbind, Py_bind, try_except, reading.
    by rewrite Hv. }
  rewrite Heq. done.
Qed.
End genesis.

(** ** The proof-of-work comparison of [validate_block] *)

Section pow.
Context `{Env}.

Lemma int16_Block_id (b : Block) : int16 (Block_id b) = Ok (block_hash_int b).
Proof. apply int16_hexdigest. Qed.

(** A digest strictly above the target is refused. *)
Lemma validate_block_rejects_hash_above_target (b : Block) (s : State) :
  bits b <= 256 →
  2 ^ (256 - bits b) < block_hash_int b →
  ∃ msg, validate_block b s = Raise (BlockValidationError msg None).
Proof.
  intros Hbits Hgt. unfold validate_block.
  destruct (bool_decide _); [by eexists|].
  destruct (_ >? Params.MAX_FUTURE_BLOCK_TIME); [by eexists|].
  rewrite int16_Block_id. cbn [mbind result_bind].
  rewrite lshift_256 by done. cbn [mbind result_bind].
  destruct (Z.gtb_spec (block_hash_int b) (2 ^ (256 - bits b))); [|lia].
  by eexists.
Qed.
End pow.

(** ** [reorg_if_necessary] *)

Lemma enumerate_app {A} (l1 l2 : list A) (n : nat) :
  enumerate n (l1 ++ l2) = enumerate n l1 ++ enumerate (n + length l1) l2.
Proof.
  revert n. induction l1 as [|x l1 IH]; intros n; simpl.
  - by rewrite Nat.add_0_r.
  - rewrite IH. do 3 f_equal. lia.
Qed.

Section reorg.
Context `{Env}.

Lemma reorg_step_not_longer (s : State) (r : bool) (i : nat)
    (chain : list Block) :
  branch_not_longer s chain → reorg_step r i chain s = (Ok r, s).
Proof.
  intros (h & (root & fb & fi & ci & Hroot & Hfind & ->) & Hle).
  unfold reorg_step. rewrite Hroot, Hfind.
  by rewrite bool_decide_eq_false_2 by lia.
Qed.

Lemma reorg_step_longer (s : State) (r : bool) (i : nat)
    (chain : list Block) :
  branch_longer s chain → reorg_step r i chain s = (Raise TypeError, s).
Proof.
  intros (h & (root & fb & fi & ci & Hroot & Hfind & ->) & Hlt).
  unfold reorg_step. rewrite Hroot, Hfind.
  by rewrite bool_decide_eq_true_2 by lia.
Qed.

(** A step that returns has changed neither the state nor the flag. *)
Lemma reorg_step_ok (s s' : State) (r r' : bool) (i : nat)
    (chain : list Block) :
  reorg_step r i chain s = (Ok r', s') → s' = s ∧ r' = r.
Proof.
  unfold reorg_step. destruct (chain !! 0%nat); [|discriminate].
  destruct (find_block_default _ _) as [[[? fi] ?]|]; [|discriminate].
  destruct (bool_decide _); [discriminate|].
  by intros [= -> ->].
Qed.

Lemma reorg_loop_ok (l : list (nat * list Block)) (s s' : State)
    (r r' : bool) :
  reorg_loop r l s = (Ok r', s') → s' = s ∧ r' = r.
Proof.
  revert r. induction l as [|[i chain] l IH]; intros r; simpl.
  - by intros [= -> ->].
  - unfold mbind, Py_bind.
    destruct (reorg_step r i chain s) as [[r1|e] s1] eqn:Hstep;
      [|discriminate].
    apply reorg_step_ok in Hstep as [-> ->]. apply IH.
Qed.

Lemma reorg_if_necessary_ok (s s' : State) (r : bool) :
  reorg_if_necessary s = (Ok r, s') → s' = s ∧ r = false.
Proof. apply reorg_loop_ok. Qed.

Lemma reorg_loop_not_longer (l : list (nat * list Block)) (s : State)
    (r : bool) :
  Forall (branch_not_longer s) l.*2 → reorg_loop r l s = (Ok r, s).
Proof.
  induction l as [|[i chain] l IH]; simpl; [done|].
  intros [Hc Hl]%Forall_cons. unfold mbind, Py_bind.
  rewrite reorg_step_not_longer by done. by apply IH.
Qed.

Lemma enumerate_snd {A} (l : list A) (n : nat) : (enumerate n l).*2 = l.
Proof. revert n. induction l; intros n; simpl; by f_equal. Qed.

(** No side branch is longer: nothing happens. *)
Lemma reorg_if_necessary_no_longer_branch (s : State) :
  Forall (branch_not_longer s) (side_branches s) →
  reorg_if_necessary s = (Ok false, s).
Proof.
  intros Hall. apply reorg_loop_not_longer. by rewrite enumerate_snd.
Qed.

Lemma reorg_loop_first_longer (l1 l2 : list (nat * list Block))
    (i : nat) (chain : list Block) (s : State) (r : bool) :
  Forall (branch_not_longer s) l1.*2 →
  branch_longer s chain →
  reorg_loop r (l1 ++ (i, chain) :: l2) s = (Raise TypeError, s).
Proof.
  intros Hl1 Hlong. induction l1 as [|[j c] l1 IH]; simpl.
  - unfold mbind, Py_bind. by rewrite reorg_step_longer.
  - apply Forall_cons in Hl1 as [Hc Hl1].
    unfold mbind, Py_bind. rewrite reorg_step_not_longer by done.
    by apply IH.
Qed.

(** C3 (the code departs from it).  At the first side branch that is
    longer than the active chain, [reorg_if_necessary] calls [try_reorg]
    with one argument out of three: it raises [TypeError] and no
    reorganisation is attempted; the state is as before. *)
Theorem reorg_if_necessary_longer_branch_raises (s : State)
    (pre post : list (list Block)) (chain : list Block) :
  side_branches s = pre ++ chain :: post →
  Forall (branch_not_longer s) pre →
  branch_longer s chain →
  reorg_if_necessary s = (Raise TypeError, s).
Proof.
  intros Hsb Hpre Hlong. unfold reorg_if_necessary.
  rewrite Hsb, enumerate_app. cbn [enumerate].
  apply reorg_loop_first_longer; [|done].
  by rewrite enumerate_snd.
Qed.
End reorg.

(** ** [try_reorg] *)

Lemma set_active_chain_twice (f : list Block → list Block) (l : list Block)
    (s : State) :
  set_active_chain (λ _, l) (set_active_chain f s)
  = set_active_chain (λ _, l) s.
Proof. reflexivity. Qed.

Section try_reorg.
Context `{Env}.

(** When the loop over the branch ends in the handler, the state is the
    one the loop started from, with the active chain cut at [fork_idx]
    and the old tail put back. *)
Lemma reorg_connect_false (fork_idx : nat) (old : list Block)
    (branch : list Block) (s s' : State) :
  reorg_connect fork_idx old branch s = (Ok false, s') →
  (fork_idx ≤ length (active_chain s))%nat →
  s' = set_active_chain (λ _, take fork_idx (active_chain s) ++ old) s.
Proof.
  revert s. induction branch as [|block rest IH]; intros s; simpl.
  - discriminate.
  - unfold mbind, Py_bind, try_except, reading, mret, Py_ret, modify.
    destruct (validate_block block s) as [r|e].
    + intros Hrest Hle. apply IH in Hrest.
      * rewrite Hrest. cbn [active_chain set_active_chain].
        rewrite set_active_chain_twice.
        by rewrite take_app_le.
      * cbn [active_chain set_active_chain]. rewrite length_app. lia.
    + destruct e; try discriminate.
      by intros [= <-] _.
Qed.

(** C4 (the code departs from it).  When [try_reorg] returns [False],
    the UTXO set, the mempool and the side branches are as before, but
    the active chain is not: the handler rebuilds it from
    [active_chain[:fork_idx]] and [active_chain[fork_idx + 1:]], so the
    block at [fork_idx] is gone. *)
Theorem try_reorg_failure_drops_fork_block (branch : list Block)
    (branch_idx fork_idx : nat) (s s' : State) :
  try_reorg branch branch_idx fork_idx s = (Ok false, s') →
  (fork_idx < length (active_chain s))%nat →
  active_chain s' = delete fork_idx (active_chain s)
  ∧ active_chain s' ≠ active_chain s
  ∧ utxo_set s' = utxo_set s
  ∧ mempool s' = mempool s
  ∧ side_branches s' = side_branches s.
Proof.
  intros Hrun Hlt. unfold try_reorg in Hrun.
  unfold mbind at 1, Py_bind at 1 in Hrun.
  match type of Hrun with
  | context [reorg_connect ?fi ?old ?br ?st] =>
      destruct (reorg_connect fi old br st) as [[[|]|e] s1] eqn:Hloop
  end.
  - exfalso. revert Hrun.
    unfold mbind, Py_bind, mret, Py_ret, modify.
    repeat match goal with
           | |- context [if ?c then _ else _] => destruct c
           | |- context [match ?x with _ => _ end] => destruct x as [[[]|?] ?]
           end; discriminate.
  - injection Hrun as <-.
    apply reorg_connect_false in Hloop.
    2:{ cbn [active_chain set_active_chain set_stale_default_chain].
        rewrite length_app, length_take. lia. }
    assert (active_chain s1
            = delete fork_idx (active_chain s)) as Hac.
    { rewrite Hloop. cbn [active_chain set_active_chain
                            set_stale_default_chain].
      rewrite take_app_le by (rewrite length_take; lia).
      rewrite take_take, Nat.min_id. by rewrite delete_take_drop. }
    split; [done|]. split.
    + rewrite Hac. intros Heq. apply (f_equal length) in Heq.
      rewrite length_delete in Heq; [lia|].
      by apply lookup_lt_is_Some_2.
    + by rewrite Hloop.
  - discriminate.
Qed.
End try_reorg.

(** ** [connect_block] on a side branch *)

Ltac py_unfold :=
  unfold mbind, mret, Py_bind, Py_ret, modify, reading, raise, lift,
         try_except in *.

Section connect.
Context `{Env}.

(** [validate_block] hands back the block it was given. *)
Lemma validate_block_same_block (b b' : Block) (k : nat) (s : State) :
  validate_block b s = Ok (b', k) → b' = b.
Proof.
  unfold validate_block, mbind, result_bind.
  repeat case_match; congruence.
Qed.

Lemma rm_inputs_ok (l : list TxIn) (s s' : State) :
  for_each (λ txin, match to_spend txin with
                    | None => raise TypeError
                    | Some op => rm_from_utxo (txid op) (txout_idx op)
                    end) l s = (Ok tt, s') →
  s' = set_utxo_set
         (λ m, foldl (λ m txin, match to_spend txin with
                                | Some op => delete op m
                                | None => m
                                end) m l) s.
Proof.
  revert s. induction l as [|txin l IH]; intros s; simpl.
  - py_unfold. intros [= <-]. by destruct s.
  - py_unfold. destruct (to_spend txin) as [[t i]|]; [|discriminate].
    unfold rm_from_utxo. cbn [txid txout_idx].
    destruct (utxo_set s !! _); [|discriminate].
    intros Hrest. apply IH in Hrest. rewrite Hrest. by destruct s.
Qed.

Lemma add_outputs_ok (tx : Transaction) (cb : bool) (height : Z)
    (l : list (nat * TxOut)) (s : State) :
  for_each (λ p : nat * TxOut,
              add_to_utxo p.2 tx (Z.of_nat p.1) cb height) l s
  = (Ok tt,
     set_utxo_set
       (λ m, foldl (λ m (p : nat * TxOut),
                      <[mkOutPoint (Transaction_id tx) (Z.of_nat p.1) :=
                          mkUnspentTxOut (value p.2) (to_address p.2)
                            (Transaction_id tx) (Z.of_nat p.1)
                            cb height]> m) m l) s).
Proof.
  revert s. induction l as [|p l IH]; intros s; simpl.
  - by destruct s.
  - py_unfold. unfold add_to_utxo, modify. rewrite IH. by destruct s.
Qed.

Lemma connect_txn_ok (height : Z) (tx : Transaction) (s s' : State) :
  connect_txn height tx s = (Ok tt, s') →
  s' = set_utxo_set
         (λ m, add_outputs tx height
                 (if is_coinbase tx then m else spend_inputs tx m))
         (set_mempool (dict_del (Transaction_id tx)) s).
Proof.
  unfold connect_txn. py_unfold. unfold add_outputs, spend_inputs.
  destruct (is_coinbase tx); cbn [negb].
  - rewrite add_outputs_ok. intros [= <-]. by destruct s.
  - match goal with
    | |- context [for_each ?f (txins tx) ?st] =>
        destruct (for_each f (txins tx) st) as [[[]|e] s1] eqn:Hrm
    end; [|discriminate].
    apply rm_inputs_ok in Hrm. rewrite add_outputs_ok.
    intros [= <-]. rewrite Hrm. by destruct s.
Qed.

Lemma connect_txns_ok (height : Z) (l : list Transaction) (s s' : State) :
  for_each (connect_txn height) l s = (Ok tt, s') →
  s' = set_utxo_set
         (λ m, foldl (λ m tx, add_outputs tx height
                                (if is_coinbase tx then m
                                 else spend_inputs tx m)) m l)
         (set_mempool
            (λ mp, foldl (λ mp tx, dict_del (Transaction_id tx) mp) mp l)
            s).
Proof.
  revert s. induction l as [|tx l IH]; intros s; simpl.
  - py_unfold. intros [= <-]. by destruct s.
  - py_unfold.
    destruct (connect_txn height tx s) as [[[]|e] s1] eqn:Htx;
      [|discriminate].
    apply connect_txn_ok in Htx. intros Hrest. apply IH in Hrest.
    rewrite Hrest, Htx. by destruct s.
Qed.

(** Gossip touches the outbox only. *)
Lemma send_all_frame (b : Block) (l : list string) (s : State) :
  ∃ out, for_each (send_to_peer b) l s
         = (Ok tt, set_outbox (λ _, out) s).
Proof.
  revert s. induction l as [|p l IH]; intros s; simpl.
  - exists (outbox s). by destruct s.
  - unfold mbind, Py_bind. unfold send_to_peer at 1. unfold modify.
    destruct (IH (set_outbox (λ l0, l0 ++ [(p, b)]) s)) as [out ->].
    exists out. by destruct s.
Qed.

(** C5 (the code departs from it).  The loop of [connect_block] over
    the transactions of the block is under no test of the chain index.
    When [connect_block] returns the index of a side branch, the block
    has been appended to that branch and the active chain is as before,
    and yet the transactions of the block have left the mempool, the
    outpoints spent by its non-coinbase transactions have been deleted
    from the UTXO set and its outputs inserted, at the new length of
    the branch. *)
Theorem connect_block_side_branch_upkeep (b : Block) (s s' : State)
    (k : nat) :
  connect_block b s = (Ok (Some (S k)), s') →
  ∃ branch,
    side_branches s !! k = Some branch
    ∧ side_branches s' = <[k := branch ++ [b]]> (side_branches s)
    ∧ active_chain s' = active_chain s
    ∧ mempool s' = upkeep_mempool b (mempool s)
    ∧ utxo_set s'
      = upkeep_utxo b (Z.of_nat (length branch) + 1) (utxo_set s).
Proof.
  unfold connect_block. py_unfold.
  destruct (validate_block b s) as [[b' idx]|e] eqn:Hval.
  2:{ destruct e; try discriminate. destruct to_orphan; discriminate. }
  apply validate_block_same_block in Hval as ->.
  destruct (find_block_default _ s); [discriminate|].
  unfold chain_append, idx_to_chain.
  destruct idx as [|i].
  { repeat case_match; try discriminate; intros [= ? ?]; discriminate. }
  destruct (side_branches s !! i) as [branch|] eqn:Hbranch;
    [|discriminate].
  cbn [side_branches set_side_branches].
  rewrite list_lookup_insert_eq by by eapply lookup_lt_Some.
  match goal with
  | |- context [for_each (connect_txn ?h) (txns b) ?st] =>
      destruct (for_each (connect_txn h) (txns b) st)
        as [[[]|e] s1] eqn:Htxns
  end; [|discriminate].
  apply connect_txns_ok in Htxns.
  destruct (reorg_if_necessary s1) as [[r|e] s2] eqn:Hreorg;
    [|discriminate].
  apply reorg_if_necessary_ok in Hreorg as [-> ->].
  cbn [orb bool_decide decide_rel]. rewrite bool_decide_eq_false_2 by done.
  destruct (send_all_frame b peerlist s1) as [out ->].
  intros [= -> <-]. exists branch. rewrite Htxns.
  rewrite length_app, Nat2Z.inj_add. cbn [length].
  destruct s; done.
Qed.
End connect.

(** C5, as stated, fails: on a node with the side branch [[B1]], connecting
    a block that extends [B1] returns the index of the side branch, and
    both the UTXO set and the mempool have changed. *)
Lemma connect_block_side_branch_changes_utxo_and_mempool :
  (connect_block (H := Scenario.env) Scenario.B2_spending
                 Scenario.side_state).1 = Ok (Some 1%nat)
  ∧ utxo_set (connect_block (H := Scenario.env) Scenario.B2_spending
                            Scenario.side_state).2
    ≠ utxo_set Scenario.side_state
  ∧ mempool (connect_block (H := Scenario.env) Scenario.B2_spending
                           Scenario.side_state).2
    ≠ mempool Scenario.side_state.
Proof.
  split; [vm_compute; reflexivity|]. split.
  - intros Heq.
    apply (f_equal (λ m, m !! mkOutPoint
                      (Transaction_id (H := Scenario.env) Scenario.spend_G)
                      0)) in Heq.
    vm_compute in Heq. discriminate.
  - intros Heq. vm_compute in Heq. discriminate.
Qed.

(** ** Merkle roots *)

Section merkle.
Context `{Env}.

Lemma pair_level_raise (nodes : list MerkleNode) (e : exn) :
  pair_level nodes = Raise e → e = ValueError.
Proof.
  induction nodes as [nodes IH] using (induction_ltof1 _ length).
  destruct nodes as [|i1 [|i2 rest]]; cbn [pair_level].
  - discriminate.
  - by intros [= <-].
  - unfold mbind, result_bind.
    destruct (pair_level rest) eqn:Hrest; [discriminate|].
    intros [= <-]. apply (IH rest); [unfold ltof; simpl; lia | done].
Qed.

Lemma pair_level_length (nodes newlevel : list MerkleNode) :
  pair_level nodes = Ok newlevel →
  (2 * length newlevel = length nodes)%nat.
Proof.
  revert newlevel.
  induction nodes as [nodes IH] using (induction_ltof1 _ length).
  intros newlevel.
  destruct nodes as [|i1 [|i2 rest]]; cbn [pair_level].
  - by intros [= <-].
  - discriminate.
  - unfold mbind, result_bind.
    destruct (pair_level rest) as [nl|] eqn:Hrest; [|discriminate].
    intros [= <-]. apply IH in Hrest; [|unfold ltof; simpl; lia].
    simpl. lia.
Qed.

(** The fuel [get_merkle_root] gives to [find_root] is never used up. *)
Lemma find_root_fuel (fuel : nat) (nodes : list MerkleNode) :
  (length nodes ≤ fuel)%nat → find_root (S fuel) nodes ≠ Raise Unmodelled.
Proof.
  revert nodes. induction fuel as [|fuel IH]; intros nodes Hlen;
    cbn [find_root]; unfold mbind, result_bind;
    destruct (pair_level nodes) as [nl|e] eqn:Hpair.
  - apply pair_level_length in Hpair.
    rewrite bool_decide_eq_false_2 by lia.
    destruct (nl !! 0%nat); discriminate.
  - apply pair_level_raise in Hpair as ->. discriminate.
  - apply pair_level_length in Hpair.
    case_bool_decide as Hlong.
    + apply IH. lia.
    + destruct (nl !! 0%nat); discriminate.
  - apply pair_level_raise in Hpair as ->. discriminate.
Qed.

Lemma get_merkle_root_modelled (leaves : list string) :
  get_merkle_root leaves ≠ Raise Unmodelled.
Proof.
  unfold get_merkle_root. apply find_root_fuel. by rewrite length_map.
Qed.

Lemma pair_level_even (nodes : list MerkleNode) (m : nat) :
  length nodes = (2 * m)%nat →
  ∃ newlevel, pair_level nodes = Ok newlevel ∧ length newlevel = m.
Proof.
  revert nodes. induction m as [|m IH]; intros nodes Hlen.
  - destruct nodes; [by eexists | discriminate].
  - destruct nodes as [|i1 [|i2 rest]]; simpl in Hlen; try lia.
    destruct (IH rest) as (nl & Hnl & Hm); [lia|].
    cbn [pair_level]. rewrite Hnl. eexists. split; [done|]. simpl. lia.
Qed.

Lemma pair_level_odd (nodes : list MerkleNode) (m : nat) :
  length nodes = (2 * m + 1)%nat → pair_level nodes = Raise ValueError.
Proof.
  revert nodes. induction m as [|m IH]; intros nodes Hlen.
  - destruct nodes as [|i1 [|i2 rest]]; simpl in Hlen; try lia. done.
  - destruct nodes as [|i1 [|i2 rest]]; simpl in Hlen; try lia.
    cbn [pair_level]. rewrite (IH rest) by lia. done.
Qed.

(** [find_root] returns exactly on the levels whose length is a power of
    two, the length 1 excepted. *)
Lemma find_root_defined_iff (fuel : nat) (nodes : list MerkleNode) :
  (length nodes ≤ fuel)%nat →
  (∃ root, find_root (S fuel) nodes = Ok root)
  ↔ ∃ k, length nodes = (2 ^ S k)%nat.
Proof.
  revert nodes. induction fuel as [fuel IH] using lt_wf_ind.
  intros nodes Hfuel.
  destruct (Nat.Even_or_Odd (length nodes)) as [[m Hm]|[m Hm]].
  - destruct (pair_level_even nodes m Hm) as (nl & Hnl & Hlen).
    cbn [find_root]. rewrite Hnl. cbn [mbind result_bind].
    case_bool_decide as Hlong.
    + destruct fuel as [|fuel']; [lia|].
      rewrite (IH fuel') by lia. rewrite Hm, Hlen. split.
      * intros [k ->]. exists (S k). rewrite (Nat.pow_succ_r' 2 (S k)). done.
      * intros [[|k] Hk]; [simpl in Hk; lia|]. exists k.
        rewrite (Nat.pow_succ_r' 2 (S k)) in Hk. lia.
    + destruct nl as [|root [|? ?]]; simpl in Hlen, Hlong; try lia.
      * split; [intros [? [=]]|]. intros [k Hk].
        pose proof (Nat.pow_nonzero 2 (S k)). lia.
      * split; [|by eexists]. intros _. exists 0%nat. rewrite Hm, <- Hlen. done.
  - cbn [find_root]. rewrite (pair_level_odd nodes m) by done.
    split; [intros [? [=]]|]. intros [k Hk].
    rewrite Nat.pow_succ_r' in Hk. lia.
Qed.

(** [get_merkle_root] returns exactly when the number of leaves, made even,
    is a power of two. *)
Lemma get_merkle_root_defined_iff (leaves : list string) :
  (∃ root, get_merkle_root leaves = Ok root)
  ↔ ∃ k, (length leaves + length leaves `mod` 2 = 2 ^ S k)%nat.
Proof.
  unfold get_merkle_root.
  rewrite find_root_defined_iff by (rewrite length_map; lia).
  rewrite length_map.
  assert (length leaves `mod` 2 < 2)%nat by (apply Nat.mod_upper_bound; lia).
  case_bool_decide as Hodd.
  - destruct (last leaves) as [l|] eqn:Hlast.
    + by rewrite length_app, Hodd.
    + apply last_None in Hlast. subst leaves. simpl in Hodd. lia.
  - replace (length leaves `mod` 2)%nat with 0%nat by lia.
    by rewrite Nat.add_0_r.
Qed.
(** One leaf is paired with itself, two leaves with each other. *)
Lemma get_merkle_root_one (a : string) :
  val <$> get_merkle_root [a]
  = Ok (sha256d (sha256d a +:+ sha256d a)).
Proof. reflexivity. Qed.

Lemma get_merkle_root_two (a b : string) :
  val <$> get_merkle_root [a; b]
  = Ok (sha256d (sha256d a +:+ sha256d b)).
Proof. reflexivity. Qed.

(** C6 (the code departs from it).  Only the level of the leaves is
    padded to an even length.  Six leaves give a level of three nodes,
    whose last chunk has one node where the comprehension takes two:
    [get_merkle_root] raises [ValueError] and there is no root.  In
    general there is a root exactly when the number of leaves, made even,
    is a power of two. *)
Theorem get_merkle_root_not_total :
  (∀ a b c d e f : string,
     get_merkle_root [a; b; c; d; e; f] = Raise ValueError)
  ∧ (∀ leaves : list string,
       (∃ root, get_merkle_root leaves = Ok root)
       ↔ ∃ k, (length leaves + length leaves `mod` 2 = 2 ^ S k)%nat).
Proof.
  split.
  - intros a b c d e f. reflexivity.
  - intros leaves. apply get_merkle_root_defined_iff.
Qed.
End merkle.

(** ** Where [validate_block] takes its errors from *)

Section no_block_error.
Context `{Env}.

Ltac no_block_error :=
  let Heq := fresh in
  intros (? & ? & Heq); revert Heq;
  repeat (unfold mbind, result_bind, fmap, result_fmap; case_match);
  discriminate.

Lemma validate_basics_no_block_error (t : Transaction) (c : bool) :
  ¬ raises_block_error (validate_basics t c).
Proof. unfold validate_basics. no_block_error. Qed.

Lemma rfor_each_no_block_error {A} (f : A → result unit) (l : list A) :
  (∀ x, ¬ raises_block_error (f x)) → ¬ raises_block_error (rfor_each f l).
Proof.
  intros Hf. induction l as [|x l IH]; simpl.
  - intros (? & ? & [=]).
  - unfold mbind, result_bind. destruct (f x) as [[]|e] eqn:Hx; [done|].
    rewrite <- Hx. apply Hf.
Qed.

Lemma get_merkle_root_no_block_error (leaves : list string) :
  ¬ raises_block_error (get_merkle_root leaves).
Proof.
  unfold get_merkle_root.
  generalize (S (length (if bool_decide (length leaves `mod` 2 = 1)%nat
                         then match last leaves with
                              | Some l => leaves ++ [l]
                              | None => leaves
                              end
                         else leaves))) as fuel.
  generalize (map (λ l, mkMerkleNode (sha256d l) None)
                (if bool_decide (length leaves `mod` 2 = 1)%nat
                 then match last leaves with
                      | Some l => leaves ++ [l]
                      | None => leaves
                      end
                 else leaves)) as nodes.
  intros nodes fuel. revert nodes.
  induction fuel as [|fuel IH]; intros nodes; cbn [find_root].
  - intros (? & ? & [=]).
  - unfold mbind, result_bind.
    destruct (pair_level nodes) as [nl|e] eqn:Hpair.
    + case_bool_decide; [apply IH|].
      destruct (nl !! 0%nat); intros (? & ? & [=]).
    + apply pair_level_raise in Hpair as ->. intros (? & ? & [=]).
Qed.

Lemma get_next_work_required_no_block_error (h : option string) (s : State) :
  ¬ raises_block_error (get_next_work_required h s).
Proof. unfold get_next_work_required. no_block_error. Qed.

Lemma validate_txn_no_block_error (txn : Transaction) (c a : bool)
    (s : State) :
  ¬ raises_block_error (validate_txn txn c a s).
Proof.
  assert (∀ i txin, ¬ raises_block_error (validate_txin txn a s i txin))
    as Htxin.
  { intros i txin. unfold validate_txin, mbind, result_bind.
    assert (∀ r : result (option UnspentTxOut),
              r = Ok None ∨ r = find_utxo_in_mempool txin s ∨
              (∃ u, r = Ok (Some u)) →
              ∀ e, r = Raise e → e = AttributeError) as Hfind.
    { intros r [->|[->|[u ->]]] e; try discriminate.
      unfold find_utxo_in_mempool, from_mempool_txn, mbind, result_bind.
      repeat case_match; congruence. }
    match goal with
    | |- context [match ?r with Ok _ => _ | Raise _ => _ end] =>
        destruct r as [[utxo|]|e] eqn:Hr
    end.
    - destruct (_ && _); [intros (? & ? & [=])|].
      destruct (validate_signature_for_spend txin utxo txn) as [v|e] eqn:Hsig.
      + intros (? & ? & [=]).
      + assert (e = TypeError ∨ e = EcdsaError ∨ ∃ m, e = TxUnlockError m)
          as [->|[->|[m ->]]].
        { revert Hsig. unfold validate_signature_for_spend.
          repeat case_match; intros [=]; subst; eauto. }
        all: intros (? & ? & [=]).
    - intros (? & ? & [=]).
    - apply Hfind in Hr as ->; [intros (? & ? & [=])|].
      repeat case_match; eauto. }
  assert (∀ l acc, ¬ raises_block_error (validate_txins txn a s acc l))
    as Htxins.
  { induction l as [|[i txin] l IH]; intros acc; simpl.
    - intros (? & ? & [=]).
    - unfold mbind, result_bind.
      destruct (validate_txin txn a s i txin) as [v|e] eqn:Hv; [apply IH|].
      rewrite <- Hv. apply Htxin. }
  unfold validate_txn, mbind, result_bind.
  destruct (validate_basics txn c) as [[]|e] eqn:Hb.
  2:{ intros (? & ? & [= ->]).
      apply (validate_basics_no_block_error txn c). rewrite Hb.
      by eexists _, _. }
  destruct (validate_txins _ _ _ _ _) as [v|e] eqn:Hv.
  2:{ intros (? & ? & [= ->]).
      eapply Htxins. rewrite Hv. by eexists _, _. }
  case_match; intros (? & ? & [=]).
Qed.

(** A [TxnValidationError] re-raised under [msg] is the only
    [BlockValidationError] that comes out of [as_block_error]. *)
Lemma as_block_error_raise {A} (msg msg' : string) (o : option Block)
    (r : result A) :
  ¬ raises_block_error r →
  as_block_error msg r = Raise (BlockValidationError msg' o) →
  msg' = msg ∧ o = None.
Proof.
  intros Hr. destruct r as [a|e]; [discriminate|].
  destruct e; cbn; try discriminate.
  - exfalso. apply Hr. by eexists _, _.
  - by intros [= <- <-].
Qed.

(** The error of the proof-of-work test is raised exactly when the
    earlier tests pass, the shift is defined and the digest is strictly
    above the target. *)
Lemma validate_block_pow_error_iff (b : Block) (s : State) :
  validate_block b s
  = Raise (BlockValidationError "Block header doesn't satisfy bits" None)
  ↔ txns b ≠ []
    ∧ timestamp b - time_time <= Params.MAX_FUTURE_BLOCK_TIME
    ∧ bits b <= 256
    ∧ 2 ^ (256 - bits b) < block_hash_int b.
Proof.
  unfold validate_block.
  case_bool_decide as Htxns; [split; [discriminate | tauto]|].
  destruct (Z.gtb_spec (timestamp b - time_time)
              Params.MAX_FUTURE_BLOCK_TIME) as [Hts|Hts];
    [split; [discriminate | lia]|].
  rewrite int16_Block_id. cbn [mbind result_bind].
  unfold lshift. destruct (Z.ltb_spec (256 - bits b) 0) as [Hb|Hb];
    [split; [discriminate | lia]|].
  cbn [mbind result_bind]. rewrite Z.shiftl_1_l.
  destruct (Z.gtb_spec (block_hash_int b) (2 ^ (256 - bits b))) as [Hh|Hh].
  { split; [intros _; repeat split; try done; lia | done]. }
  split; [|lia]. intros Hraise. exfalso. revert Hraise.
  destruct (negb _); [discriminate|].
  destruct (as_block_error "Invalid txn {txn.id}" _) as [[]|e] eqn:Hbasics;
    cbn [mbind result_bind].
  2:{ intros [= ->].
      apply as_block_error_raise in Hbasics as [[=] _].
      apply rfor_each_no_block_error. intros [i tx].
      apply validate_basics_no_block_error. }
  destruct (get_merkle_root_of_txns (txns b)) as [root|e] eqn:Hroot;
    cbn [mbind result_bind].
  2:{ intros [= ->].
      unfold get_merkle_root_of_txns in Hroot.
      eapply get_merkle_root_no_block_error. rewrite Hroot.
      by eexists _, _. }
  destruct (negb _); [discriminate|].
  destruct (get_next_work_required _ s) as [required|e] eqn:Hwork;
    cbn [mbind result_bind].
  2:{ intros [= ->].
      eapply get_next_work_required_no_block_error. rewrite Hwork.
      by eexists _, _. }
  destruct (negb _); [discriminate|].
  destruct (_ <=? _); [discriminate|].
  assert (∀ k : nat,
               (_ ← as_block_error " failed to validate"
                      (rfor_each (λ txn, _ ← validate_txn txn false false s;
                                         Ok tt) (drop 1 (txns b)));
                Ok (b, k) : result (Block * nat))
               ≠ Raise (BlockValidationError
                          "Block header doesn't satisfy bits" None))
    as Hrest.
  { intros k.
    destruct (as_block_error " failed to validate" _) as [[]|e] eqn:Htxn;
      cbn [mbind result_bind]; [discriminate|].
    intros [= ->].
    apply as_block_error_raise in Htxn as [[=] _].
    apply rfor_each_no_block_error. intros txn.
    destruct (validate_txn txn false false s) as [t|e] eqn:Ht;
      cbn [mbind result_bind].
    - intros (? & ? & [=]).
    - intros (? & ? & [= ->]).
      apply (validate_txn_no_block_error txn false false s). rewrite Ht.
      by eexists _, _. }
  destruct (_ && _); [apply Hrest|].
  destruct (find_block _ None s) as [[[prev_block ?] idx]|]; [|discriminate].
  destruct (negb _); [discriminate|].
  destruct (negb _); [discriminate|].
  apply Hrest.
Qed.
End no_block_error.

(** A block whose digest is the target is accepted. *)
Lemma validate_block_accepts_hash_at_target :
  block_hash_int (H := Scenario.boundary_env) Scenario.boundary_block
  = 2 ^ (256 - bits Scenario.boundary_block)
  ∧ validate_block (H := Scenario.boundary_env) Scenario.boundary_block
                   initial_state
    = Ok (Scenario.boundary_block, 0%nat).
Proof. split; vm_compute; reflexivity. Qed.

(** C2 (the code departs from it).  [validate_block] raises the error of
    the proof-of-work test exactly when the digest is strictly above
    [2^(256 - bits)] (the earlier tests passing and the shift being
    defined): the comparison is [>], not [>=].  A digest equal to the
    target does not raise it, and a block with such a digest passes every
    test. *)
Theorem validate_block_pow_test_not_strict :
  (∀ `{Env} (b : Block) (s : State),
     validate_block b s
     = Raise (BlockValidationError "Block header doesn't satisfy bits" None)
     ↔ txns b ≠ []
       ∧ timestamp b - time_time <= Params.MAX_FUTURE_BLOCK_TIME
       ∧ bits b <= 256
       ∧ 2 ^ (256 - bits b) < block_hash_int b)
  ∧ (∀ `{Env} (b : Block) (s : State),
       block_hash_int b = 2 ^ (256 - bits b) →
       validate_block b s
       ≠ Raise (BlockValidationError "Block header doesn't satisfy bits"
                                     None))
  ∧ block_hash_int (H := Scenario.boundary_env) Scenario.boundary_block
    = 2 ^ (256 - bits Scenario.boundary_block)
  ∧ validate_block (H := Scenario.boundary_env) Scenario.boundary_block
                   initial_state
    = Ok (Scenario.boundary_block, 0%nat).
Proof.
  split; [intros; apply validate_block_pow_error_iff|].
  split; [|exact validate_block_accepts_hash_at_target].
  intros H b s Heq Hraise.
  apply validate_block_pow_error_iff in Hraise as (_ & _ & _ & Hlt). lia.
Qed.

(** ** The codec on coinbase inputs *)

Lemma unhexlify_hexlify (b : bytes) : unhexlify (hexlify b) = Ok b.
Proof.
  induction b as [|x b IH]; [reflexivity|].
  cbn [hexlify unhexlify].
  assert (Byte.to_N x < 256)%N as Hx
    by (pose proof (Byte.to_N_bounded x); lia).
  rewrite !hex_val_hex_char
    by (try apply N.mod_upper_bound; try apply N.Div0.div_lt_upper_bound;
        lia).
  replace (16 * (Byte.to_N x / 16) + Byte.to_N x mod 16)%N
    with (Byte.to_N x) by (rewrite (N.div_mod (Byte.to_N x) 16) at 1; lia).
  rewrite Byte.of_to_N. by rewrite IH.
Qed.

(** On the dictionary [contents_to_primitive] builds, before it goes
    through [json.dumps] and [json.loads], an input without a public key
    already makes [contents_to_objs] call [unhexlify] on [None]. *)
Lemma contents_to_objs_nil_unlock_pk (i : TxIn) :
  unlock_pk i = None →
  contents_to_objs (contents_to_primitive (to_val i)) = Raise TypeError.
Proof.
  intros Hpk. destruct i as [sp sig pk sq]. cbn in Hpk. subst pk.
  destruct sp as [[t k]|]; cbn -[unhexlify hexlify];
    rewrite unhexlify_hexlify; reflexivity.
Qed.

(** C7 (the code departs from it).  [deserialize] unhexlifies every field
    whose type hint is [bytes]; the [unlock_pk] of a coinbase input is
    [None], so decoding the encoding of a coinbase input, of a coinbase
    transaction or of a block that holds one raises [TypeError] instead
    of giving the value back; on the dictionary of any input without
    public key [contents_to_objs] raises it. *)
Theorem deserialize_serialize_coinbase_raises :
  deserialize (serialize Scenario.coinbase_txin) = Raise TypeError
  ∧ deserialize (serialize Scenario.coinbase_txn) = Raise TypeError
  ∧ deserialize (serialize Scenario.coinbase_block) = Raise TypeError
  ∧ (∀ i : TxIn,
       unlock_pk i = None →
       contents_to_objs (contents_to_primitive (to_val i))
       = Raise TypeError).
Proof.
  split; [vm_compute; reflexivity|].
  split; [vm_compute; reflexivity|].
  split; [vm_compute; reflexivity|].
  exact contents_to_objs_nil_unlock_pk.
Qed.

(** Values without a [None] under a [bytes] hint come back. *)
Lemma deserialize_serialize_examples :
  deserialize (serialize (mkOutPoint "ab12" 3)) = Ok (to_val (mkOutPoint "ab12" 3))
  ∧ deserialize (serialize (mkTxOut 5000000000 "1addr"))
    = Ok (to_val (mkTxOut 5000000000 "1addr"))
  ∧ deserialize (serialize Scenario.spend_G) = Ok (to_val Scenario.spend_G)
  ∧ deserialize (serialize (mkUnspentTxOut 7 "1addr" "ab12" 0 true (-1)))
    = Ok (to_val (mkUnspentTxOut 7 "1addr" "ab12" 0 true (-1))).
Proof. repeat split; vm_compute; reflexivity. Qed.

(** ** [validate_txn] and outputs of the mempool *)

Section mempool_utxo.
Context `{Env}.

(** Whenever the spent transaction is in the mempool,
    [find_utxo_in_mempool] raises. *)
Lemma find_utxo_in_mempool_found (txin : TxIn) (op : OutPoint)
    (parent : Transaction) (s : State) :
  to_spend txin = Some op →
  dict_get (txid op) (mempool s) = Some parent →
  find_utxo_in_mempool txin s = Raise AttributeError.
Proof.
  intros Hop Hparent. unfold find_utxo_in_mempool.
  by rewrite Hop, Hparent.
Qed.

(** When it is not, there is no UTXO. *)
Lemma find_utxo_in_mempool_missing (txin : TxIn) (op : OutPoint)
    (s : State) :
  to_spend txin = Some op →
  dict_get (txid op) (mempool s) = None →
  find_utxo_in_mempool txin s = Ok None.
Proof.
  intros Hop Hparent. unfold find_utxo_in_mempool.
  by rewrite Hop, Hparent.
Qed.

(** C8 (the code departs from it).  A transaction whose first input
    spends an output that is not in the UTXO set but whose transaction
    is in the mempool is not validated against that output:
    [validate_txn] raises [AttributeError], which is neither an
    acceptance nor the [TxnValidationError] of an orphan. *)
Theorem validate_txn_mempool_parent_raises (txn parent : Transaction)
    (txin : TxIn) (rest : list TxIn) (op : OutPoint) (s : State) :
  validate_basics txn false = Ok tt →
  txins txn = txin :: rest →
  to_spend txin = Some op →
  utxo_set s !! op = None →
  dict_get (txid op) (mempool s) = Some parent →
  validate_txn txn false true s = Raise AttributeError.
Proof.
  intros Hbasics Htxins Hop Hutxo Hparent.
  unfold validate_txn. rewrite Hbasics, Htxins. cbn.
  unfold validate_txin, utxo_get. rewrite Hop, Hutxo.
  by erewrite find_utxo_in_mempool_found.
Qed.

(** The orphan marker is raised when the transaction is in neither
    place. *)
Lemma validate_txn_orphan (txn : Transaction) (txin : TxIn)
    (rest : list TxIn) (op : OutPoint) (s : State) :
  validate_basics txn false = Ok tt →
  txins txn = txin :: rest →
  to_spend txin = Some op →
  utxo_set s !! op = None →
  dict_get (txid op) (mempool s) = None →
  validate_txn txn false true s
  = Raise (TxnValidationError
             "Could find no UTXO for TxIn[0] -- orphaning txn" (Some txn)).
Proof.
  intros Hbasics Htxins Hop Hutxo Hparent.
  unfold validate_txn. rewrite Hbasics, Htxins. cbn.
  unfold validate_txin, utxo_get. rewrite Hop, Hutxo.
  by erewrite find_utxo_in_mempool_missing.
Qed.
End mempool_utxo.

(** ** Sizes of serialized values *)

Lemma json_ind_nested (P : json → Prop) :
  P JNull → (∀ b, P (JBool b)) → (∀ z, P (JInt z)) → (∀ s, P (JStr s)) →
  (∀ l, Forall P l → P (JArr l)) →
  (∀ d, Forall (λ kv : string * json, P kv.2) d → P (JObj d)) →
  ∀ j, P j.
Proof.
  intros Hnull Hbool Hint Hstr Harr Hobj.
  fix IH 1.
  intros [|b|z|s|l|d];
    [exact Hnull | apply Hbool | apply Hint | apply Hstr | |].
  - apply Harr. induction l as [|x l IHl]; constructor; [apply IH | apply IHl].
  - apply Hobj. induction d as [|[k v] d IHd]; constructor;
      [apply IH | apply IHd].
Qed.

Lemma length_append (s1 s2 : string) :
  String.length (s1 +:+ s2) = (String.length s1 + String.length s2)%nat.
Proof. induction s1 as [|c s1 IH]; simpl; [done | by rewrite IH]. Qed.

Lemma length_json_escape (s : string) :
  String.length (json_escape s) = escaped_length s.
Proof.
  induction s as [|c s IH]; [done|].
  cbn [json_escape escaped_length]. by rewrite length_append, IH.
Qed.

Lemma length_json_quote (s : string) :
  String.length (json_quote s) = (2 + escaped_length s)%nat.
Proof.
  unfold json_quote. rewrite length_append. cbn [String.length].
  rewrite length_json_escape. lia.
Qed.

Lemma length_join_comma (l : list string) :
  String.length (join_comma l)
  = (sum_with String.length l + (length l - 1))%nat.
Proof.
  induction l as [|x [|y l] IH]; [done | simpl; lia |].
  change (join_comma (x :: y :: l)) with (x +:+ "," +:+ join_comma (y :: l)).
  rewrite !length_append, IH. simpl. lia.
Qed.

Lemma sum_with_insert_sorted (f : string * string → nat)
    (x : string * string) (l : list (string * string)) :
  sum_with f (insert_sorted x l) = (f x + sum_with f l)%nat
  ∧ length (insert_sorted x l) = S (length l).
Proof.
  induction l as [|y l [IH1 IH2]]; [done|].
  cbn [insert_sorted]. destruct (String.leb _ _); [done|].
  cbn [sum_with foldr length] in *. fold (sum_with f (insert_sorted x l)).
  fold (sum_with f l). rewrite IH1, IH2. lia.
Qed.

Lemma sum_with_sort_keys (f : string * string → nat)
    (l : list (string * string)) :
  sum_with f (sort_keys l) = sum_with f l
  ∧ length (sort_keys l) = length l.
Proof.
  induction l as [|x l [IH1 IH2]]; [done|].
  unfold sort_keys in *. cbn [foldr].
  destruct (sum_with_insert_sorted f x (foldr insert_sorted [] l)) as [-> ->].
  rewrite IH1, IH2. done.
Qed.

Lemma sum_with_map {A B} (f : B → nat) (g : A → B) (l : list A) :
  sum_with f (map g l) = sum_with (λ x, f (g x)) l.
Proof. induction l as [|x l IH]; [done|]. simpl. by rewrite IH. Qed.

Lemma sum_with_ext {A} (f g : A → nat) (l : list A) :
  Forall (λ x, f x = g x) l → sum_with f l = sum_with g l.
Proof. induction 1 as [|x l Hx _ IH]; [done|]. simpl. by rewrite Hx, IH. Qed.

(** [json_size] is the length of the text. *)
Lemma length_json_dumps (j : json) :
  String.length (json_dumps j) = json_size j.
Proof.
  induction j as [|[]|z|s|l IH|d IH] using json_ind_nested; try done.
  - apply length_json_quote.
  - cbn [json_dumps json_size]. rewrite !length_append, length_join_comma.
    rewrite sum_with_map, length_map. rewrite (sum_with_ext _ json_size) by done.
    simpl. lia.
  - cbn [json_dumps json_size]. rewrite !length_append, length_join_comma.
    rewrite sum_with_map, length_map.
    match goal with
    | |- context [sum_with ?f (sort_keys ?l)] =>
        destruct (sum_with_sort_keys f l) as [-> ->]
    end.
    rewrite sum_with_map, length_map.
    rewrite (sum_with_ext _ (λ kv : string * json,
                               2 + escaped_length kv.1 + 1 + json_size kv.2)%nat).
    + simpl. lia.
    + eapply Forall_impl; [exact IH|]. intros [k v] Hv. cbn [fst snd] in *.
      rewrite !length_append, length_json_quote, Hv. simpl. lia.
Qed.

Lemma serialized_size_json_size `{ToVal A} (x : A) :
  serialized_size x = Z.of_nat (json_size (contents_to_primitive (to_val x))).
Proof. unfold serialized_size, serialize, serialize_val. by rewrite length_json_dumps. Qed.


(** A run of a printable character is not escaped. *)
Lemma escaped_length_repeat_char (n : nat) :
  escaped_length (Scenario.repeat_char n "a"%char) = n.
Proof. induction n as [|n IH]; [done|]. cbn -[String.length]. by rewrite IH. Qed.

Lemma escaped_length_long_address :
  escaped_length Scenario.long_address = N.to_nat 600000.
Proof. apply escaped_length_repeat_char. Qed.

(** Sizes of values that hold [long_address]: the address is kept
    abstract while the size is computed around it. *)
Ltac size_with_long_address :=
  rewrite ?serialized_size_json_size;
  unfold Scenario.big_tx1, Scenario.big_tx2, Scenario.big_tx;
  generalize escaped_length_long_address;
  generalize Scenario.long_address;
  let a := fresh "a" in
  let Ha := fresh "Ha" in
  intros a Ha;
  cbn -[Transaction_id Block_id pretty escaped_length Z.of_nat Z.ltb Z.leb
        Z.lt Z.le];
  rewrite Ha; vm_compute; try reflexivity; try discriminate.

Lemma validate_basics_ok (t : Transaction) :
  txouts t ≠ [] → txins t ≠ [] →
  serialized_size t <= Params.MAX_BLOCK_SERIALIZED_SIZE →
  sum_values (txouts t) <= Params.MAX_MONEY →
  validate_basics t false = Ok tt.
Proof.
  intros Hout Hin Hsize Hsum. unfold validate_basics.
  rewrite !bool_decide_eq_false_2 by done. cbn [orb andb].
  fold (serialized_size t).
  destruct (Z.gtb_spec (serialized_size t) Params.MAX_BLOCK_SERIALIZED_SIZE);
    [lia|].
  destruct (Z.gtb_spec (sum_values (txouts t)) Params.MAX_MONEY); [lia|done].
Qed.

(** ** [select_from_mempool] and the size cap *)

Section selection.
Context `{Env}.

Lemma resolve_txins_committed (s : State) (l : list TxIn) :
  Forall (λ txin, is_Some (utxo_get (to_spend txin) s)) l →
  resolve_txins s l = Ok true.
Proof.
  induction 1 as [|txin l [u Hu] _ IH]; simpl; [done|].
  by rewrite Hu.
Qed.

(** The test looks at the block selected so far, whatever it is given. *)
Lemma check_block_size_outer (outer : Block) (b : option Block) :
  serialized_size outer < Params.MAX_BLOCK_SERIALIZED_SIZE →
  check_block_size (Some outer) b = true.
Proof. intros Hsize. unfold check_block_size. by apply Z.ltb_lt. Qed.

(** With one transaction in the mempool, whose inputs are committed,
    the transaction is added as soon as the block it is added to is
    under the cap: the size of the new block is never measured. *)
Lemma select_from_mempool_single (block : Block) (tx : Transaction)
    (id : string) (s : State) :
  mempool s = [(id, tx)] →
  Forall (λ txin, is_Some (utxo_get (to_spend txin) s)) (txins tx) →
  serialized_size block < Params.MAX_BLOCK_SERIALIZED_SIZE →
  select_from_mempool block s = Ok (Some (with_txn block tx)).
Proof.
  intros Hmp Hins Hsize.
  unfold select_from_mempool. rewrite Hmp.
  cbn [dict_keys fmap list_fmap fst select_loop]. unfold add_to_block.
  rewrite bool_decide_eq_false_2 by apply not_elem_of_empty.
  rewrite Hmp. cbn [dict_get]. rewrite decide_True by done.
  rewrite resolve_txins_committed by done.
  cbn [mbind result_bind]. rewrite check_block_size_outer by done.
  cbn [mbind result_bind]. by rewrite check_block_size_outer.
Qed.

(** With two, the second is added as soon as the block that holds the
    first is under the cap. *)
Lemma select_from_mempool_pair (block : Block) (tx1 tx2 : Transaction)
    (id1 id2 : string) (s : State) :
  mempool s = [(id1, tx1); (id2, tx2)] →
  id1 ≠ id2 →
  Forall (λ txin, is_Some (utxo_get (to_spend txin) s)) (txins tx1) →
  Forall (λ txin, is_Some (utxo_get (to_spend txin) s)) (txins tx2) →
  serialized_size block < Params.MAX_BLOCK_SERIALIZED_SIZE →
  serialized_size (with_txn block tx1) < Params.MAX_BLOCK_SERIALIZED_SIZE →
  select_from_mempool block s
  = Ok (Some (with_txn (with_txn block tx1) tx2)).
Proof.
  intros Hmp Hne Hins1 Hins2 Hsize Hsize1.
  unfold select_from_mempool. rewrite Hmp.
  cbn [dict_keys fmap list_fmap fst select_loop]. unfold add_to_block.
  rewrite Hmp. cbn [dict_get].
  rewrite (decide_True (P := id1 = id1)) by done.
  rewrite (decide_True (P := id2 = id2)) by done.
  rewrite (decide_False (P := id2 = id1)) by congruence.
  rewrite (bool_decide_eq_false_2 (id1 ∈ (∅ : gset string)))
    by apply not_elem_of_empty.
  rewrite !resolve_txins_committed by done.
  cbn [mbind result_bind]. rewrite check_block_size_outer by done.
  cbn [mbind result_bind]. rewrite check_block_size_outer by done.
  rewrite bool_decide_eq_false_2
    by (rewrite elem_of_union, elem_of_singleton, elem_of_empty;
        intros [?|[]]; congruence).
  cbn [mbind result_bind]. rewrite check_block_size_outer by done.
  cbn [mbind result_bind]. by rewrite check_block_size_outer.
Qed.
End selection.

(** C9 (the code departs from it).  The template the miner starts from is
    under the cap, and so is each of the two transactions of the mempool;
    both spend committed outputs.  [select_from_mempool] adds both, since
    each time the block it measures is the one before the addition, and
    returns a block of more than 1,000,000 bytes. *)
Theorem select_from_mempool_exceeds_cap :
  serialized_size Scenario.template < Params.MAX_BLOCK_SERIALIZED_SIZE
  ∧ validate_basics Scenario.big_tx1 false = Ok tt
  ∧ validate_basics Scenario.big_tx2 false = Ok tt
  ∧ select_from_mempool (H := Scenario.env) Scenario.template
                        Scenario.big_mempool_state
    = Ok (Some (with_txn (with_txn Scenario.template Scenario.big_tx1)
                         Scenario.big_tx2))
  ∧ Params.MAX_BLOCK_SERIALIZED_SIZE
    < serialized_size (with_txn (with_txn Scenario.template Scenario.big_tx1)
                                Scenario.big_tx2).
Proof.
  assert (serialized_size Scenario.template
          < Params.MAX_BLOCK_SERIALIZED_SIZE)
    as Hsize by (apply Z.ltb_lt; vm_compute; reflexivity).
  split; [exact Hsize|].
  split.
  { apply validate_basics_ok; [done | done | | vm_compute; discriminate].
    size_with_long_address. }
  split.
  { apply validate_basics_ok; [done | done | | vm_compute; discriminate].
    size_with_long_address. }
  split.
  - apply (select_from_mempool_pair (H := Scenario.env) Scenario.template
             Scenario.big_tx1 Scenario.big_tx2
             (Transaction_id (H := Scenario.env) Scenario.big_tx1)
             (Transaction_id (H := Scenario.env) Scenario.big_tx2)).
    + reflexivity.
    + apply (bool_decide_eq_false_1 (_ = _)). vm_compute. reflexivity.
    + repeat constructor. vm_compute. eauto.
    + repeat constructor. vm_compute. eauto.
    + exact Hsize.
    + size_with_long_address.
  - size_with_long_address.
Qed.

(** ** The statements at concrete nodes *)

Lemma pair_eta {A B} (p : A * B) (a : A) : p.1 = a → p = (a, p.2).
Proof. destruct p. by intros <-. Defined.

Lemma is_coinbase_one_nil_input_witness :
  txins (mkTransaction [] [mkTxOut 1 "1addr"] None) = []
  ∧ is_coinbase (mkTransaction [] [mkTxOut 1 "1addr"] None) = false.
Proof.
  split; [reflexivity|].
  apply (proj1 (proj2 (is_coinbase_one_nil_input (H := Scenario.env)))).
  reflexivity.
Defined.

Lemma validate_block_pow_test_not_strict_witness :
  block_hash_int (H := Scenario.boundary_env) Scenario.boundary_block
  = 2 ^ (256 - bits Scenario.boundary_block)
  ∧ validate_block (H := Scenario.boundary_env) Scenario.boundary_block
                   initial_state
    ≠ Raise (BlockValidationError "Block header doesn't satisfy bits" None).
Proof.
  split; [vm_compute; reflexivity|].
  apply (proj1 (proj2 validate_block_pow_test_not_strict)
               Scenario.boundary_env).
  vm_compute. reflexivity.
Defined.

Lemma deserialize_serialize_coinbase_raises_witness :
  unlock_pk Scenario.coinbase_txin = None
  ∧ contents_to_objs (contents_to_primitive (to_val Scenario.coinbase_txin))
    = Raise TypeError.
Proof.
  split; [reflexivity|].
  apply (proj2 (proj2 (proj2 deserialize_serialize_coinbase_raises))).
  reflexivity.
Defined.

Lemma reorg_if_necessary_longer_branch_raises_witness :
  branch_longer (H := Scenario.env) Scenario.longer_branch
                [Scenario.B1; Scenario.B2; Scenario.B3]
  ∧ reorg_if_necessary (H := Scenario.env) Scenario.longer_branch
    = (Raise TypeError, Scenario.longer_branch).
Proof.
  assert (branch_longer (H := Scenario.env) Scenario.longer_branch
                        [Scenario.B1; Scenario.B2; Scenario.B3]) as Hlong.
  { exists 3%nat. split; [|vm_compute; lia].
    exists Scenario.B1, Scenario.G, 0%nat, 0%nat.
    split; [reflexivity|]. split; [vm_compute; reflexivity|reflexivity]. }
  split; [exact Hlong|].
  apply (reorg_if_necessary_longer_branch_raises (H := Scenario.env)
           Scenario.longer_branch [] []
           [Scenario.B1; Scenario.B2; Scenario.B3]).
  - reflexivity.
  - constructor.
  - exact Hlong.
Defined.

Lemma try_reorg_failure_drops_fork_block_witness :
  active_chain Scenario.after_A1 = [Scenario.G; Scenario.A1]
  ∧ (try_reorg (H := Scenario.env) [Scenario.empty_block] 0 0
               Scenario.after_A1).1 = Ok false
  ∧ active_chain (try_reorg (H := Scenario.env) [Scenario.empty_block] 0 0
                            Scenario.after_A1).2 = [Scenario.A1].
Proof.
  split; [vm_compute; reflexivity|].
  split; [vm_compute; reflexivity|].
  destruct (try_reorg_failure_drops_fork_block (H := Scenario.env)
              [Scenario.empty_block] 0 0 Scenario.after_A1
              (try_reorg (H := Scenario.env) [Scenario.empty_block] 0 0
                         Scenario.after_A1).2) as (Hac & _).
  - apply pair_eta. vm_compute. reflexivity.
  - vm_compute. lia.
  - rewrite Hac. vm_compute. reflexivity.
Defined.

Lemma connect_block_side_branch_upkeep_witness :
  (connect_block (H := Scenario.env) Scenario.B2_spending
                 Scenario.side_state).1 = Ok (Some 1%nat)
  ∧ ∃ branch,
      side_branches Scenario.side_state !! 0%nat = Some branch
      ∧ side_branches (connect_block (H := Scenario.env)
                         Scenario.B2_spending Scenario.side_state).2
        = <[0%nat := branch ++ [Scenario.B2_spending]]>
            (side_branches Scenario.side_state)
      ∧ active_chain (connect_block (H := Scenario.env)
                        Scenario.B2_spending Scenario.side_state).2
        = active_chain Scenario.side_state
      ∧ mempool (connect_block (H := Scenario.env)
                   Scenario.B2_spending Scenario.side_state).2
        = upkeep_mempool (H := Scenario.env) Scenario.B2_spending
                         (mempool Scenario.side_state)
      ∧ utxo_set (connect_block (H := Scenario.env)
                    Scenario.B2_spending Scenario.side_state).2
        = upkeep_utxo (H := Scenario.env) Scenario.B2_spending
                      (Z.of_nat (length branch) + 1)
                      (utxo_set Scenario.side_state).
Proof.
  split; [vm_compute; reflexivity|].
  apply (connect_block_side_branch_upkeep (H := Scenario.env)
           Scenario.B2_spending Scenario.side_state _ 0).
  apply pair_eta. vm_compute. reflexivity.
Defined.

Lemma validate_txn_mempool_parent_raises_witness :
  utxo_set Scenario.mempool_state
    !! mkOutPoint (Transaction_id (H := Scenario.env) Scenario.spend_G) 0
  = None
  ∧ dict_get (Transaction_id (H := Scenario.env) Scenario.spend_G)
             (mempool Scenario.mempool_state) = Some Scenario.spend_G
  ∧ validate_txn (H := Scenario.env) Scenario.child_of_spend_G false true
                 Scenario.mempool_state = Raise AttributeError.
Proof.
  split; [vm_compute; reflexivity|].
  split; [vm_compute; reflexivity|].
  eapply (validate_txn_mempool_parent_raises (H := Scenario.env)
            Scenario.child_of_spend_G Scenario.spend_G).
  - vm_compute. reflexivity.
  - reflexivity.
  - reflexivity.
  - vm_compute. reflexivity.
  - vm_compute. reflexivity.
Defined.

(** * Further properties *)

(** ** Looking blocks up *)

Section lookup.
Context `{Env}.

Lemma find_in_chain_Some (h : option string) (n k : nat) (chain : list Block)
    (b : Block) :
  find_in_chain h n chain = Some (b, k) →
  ∃ i, k = (n + i)%nat ∧ chain !! i = Some b ∧ Some (Block_id b) = h
       ∧ ∀ j b', (j < i)%nat → chain !! j = Some b' → Some (Block_id b') ≠ h.
Proof.
  revert n. induction chain as [|x chain IH]; intros n; simpl; [done|].
  case_bool_decide as Hx.
  - intros [= <- <-]. exists 0%nat.
    split; [lia|]. split; [done|]. split; [done|]. intros; lia.
  - intros Hf. apply IH in Hf as (i & -> & Hi & Hb & Hmin).
    exists (S i). split; [lia|]. split; [done|]. split; [done|].
    intros [|j] b' Hj; simpl; [by intros [= <-]|].
    apply Hmin. lia.
Qed.

Lemma find_in_chain_None (h : option string) (n : nat) (chain : list Block) :
  find_in_chain h n chain = None ↔ ∀ b, b ∈ chain → Some (Block_id b) ≠ h.
Proof.
  revert n. induction chain as [|x chain IH]; intros n; simpl.
  - split; [|done]. intros _ b Hb. by apply elem_of_nil in Hb.
  - case_bool_decide as Hx.
    + split; [done|]. intros Hall. destruct (Hall x); [left|done].
    + rewrite IH. split.
      * intros Hall b [->|Hb]%elem_of_cons; auto.
      * intros Hall b Hb. apply Hall. by right.
Qed.

Lemma find_in_chains_Some (h : option string) (c idx k : nat)
    (chains : list (list Block)) (b : Block) :
  find_in_chains h c chains = Some (b, k, idx) →
  ∃ i chain, idx = (c + i)%nat ∧ chains !! i = Some chain
    ∧ find_in_chain h 0 chain = Some (b, k)
    ∧ ∀ j chain', (j < i)%nat → chains !! j = Some chain' →
                  find_in_chain h 0 chain' = None.
Proof.
  revert c. induction chains as [|x chains IH]; intros c; simpl; [done|].
  destruct (find_in_chain h 0 x) as [[b0 k0]|] eqn:Hx.
  - intros [= <- <- <-]. exists 0%nat, x.
    split; [lia|]. split; [done|]. split; [done|]. intros; lia.
  - intros Hf. apply IH in Hf as (i & chain & -> & Hi & Hb & Hmin).
    exists (S i), chain. split; [lia|]. split; [done|]. split; [done|].
    intros [|j] chain' Hj; simpl; [by intros [= <-]|].
    apply Hmin. lia.
Qed.

Lemma find_in_chains_None (h : option string) (c : nat)
    (chains : list (list Block)) :
  find_in_chains h c chains = None
  ↔ ∀ chain, chain ∈ chains → find_in_chain h 0 chain = None.
Proof.
  revert c. induction chains as [|x chains IH]; intros c; simpl.
  - split; [|done]. intros _ b Hb. by apply elem_of_nil in Hb.
  - destruct (find_in_chain h 0 x) as [[b0 k0]|] eqn:Hx.
    + split; [done|]. intros Hall. rewrite Hall in Hx; [done|left].
    + rewrite IH. split.
      * intros Hall b [->|Hb]%elem_of_cons; auto.
      * intros Hall b Hb. apply Hall. by right.
Qed.

(** X1.  [find_block(block_hash, chain=None)] searches the active chain
    and then the side branches in order.  What it returns is the first
    block with that id in that order, with its position and the index of
    its chain; it returns the triple of [None]s exactly when no block of
    any chain has that id. *)
Theorem find_block_first_match (h : string) (s : State) :
  let chains := active_chain s :: side_branches s in
  match find_block (Some h) None s with
  | Some (b, height, idx) =>
      ∃ chain,
        chains !! idx = Some chain ∧ chain !! height = Some b
        ∧ Block_id b = h
        ∧ (∀ j b', (j < height)%nat → chain !! j = Some b' → Block_id b' ≠ h)
        ∧ (∀ c chain' b', (c < idx)%nat → chains !! c = Some chain' →
                          b' ∈ chain' → Block_id b' ≠ h)
  | None => ∀ chain b, chain ∈ chains → b ∈ chain → Block_id b ≠ h
  end.
Proof.
  intros chains. unfold find_block. fold chains.
  destruct (find_in_chains (Some h) 0 chains) as [[[b k] idx]|] eqn:Hf.
  - apply find_in_chains_Some in Hf as (i & chain & -> & Hi & Hb & Hmin).
    apply find_in_chain_Some in Hb as (k' & -> & Hk & Hid & Hfirst).
    exists chain. split; [done|]. split; [done|]. split; [congruence|].
    split.
    + intros j b' Hj Hb' Heq. apply (Hfirst j b' Hj Hb'). by rewrite Heq.
    + intros c chain' b' Hc Hchain' Hb' Heq.
      pose proof (Hmin c chain' Hc Hchain') as Hnone.
      rewrite find_in_chain_None in Hnone. apply (Hnone b' Hb').
      by rewrite Heq.
  - intros chain b Hchain Hb Heq.
    rewrite find_in_chains_None in Hf. specialize (Hf chain Hchain).
    rewrite find_in_chain_None in Hf. apply (Hf b Hb). by rewrite Heq.
Qed.

(** X2.  [get_height] numbers the blocks from the tip: it returns the
    distance of the block from the end of the active chain (0 for the
    tip), not its height, and [-1] for an unknown id. *)
Theorem get_height_counts_from_tip (h : string) (s : State) :
  let chain := active_chain s in
  (get_height h s = -1 ∧ ∀ b, b ∈ chain → Block_id b ≠ h)
  ∨ (∃ i b, get_height h s = Z.of_nat i
            ∧ chain !! (length chain - 1 - i)%nat = Some b
            ∧ (i < length chain)%nat
            ∧ Block_id b = h
            ∧ ∀ j b', (length chain - 1 - i < j)%nat →
                      chain !! j = Some b' → Block_id b' ≠ h).
Proof.
  intros chain. unfold get_height. fold chain.
  destruct (find_in_chain (Some h) 0 (reverse chain)) as [[b i]|] eqn:Hf.
  - right. apply find_in_chain_Some in Hf as (k & -> & Hk & Hid & Hfirst).
    pose proof (lookup_lt_Some _ _ _ Hk) as Hlt. rewrite length_reverse in Hlt.
    exists k, b. simpl. split; [done|]. split; [|split; [done|]].
    2: split; [congruence|].
    + rewrite reverse_lookup in Hk by done.
      by replace (length chain - 1 - k)%nat with (length chain - S k)%nat by lia.
    + intros j b' Hj Hb' Heq.
      pose proof (lookup_lt_Some _ _ _ Hb') as Hjlt.
      apply (Hfirst (length chain - 1 - j)%nat b'); [lia| |by rewrite Heq].
      rewrite reverse_lookup by lia.
      by replace (length chain - S (length chain - 1 - j))%nat with j by lia.
  - left. split; [done|]. intros b Hb Heq.
    rewrite find_in_chain_None in Hf. apply (Hf b); [|by rewrite Heq].
    by apply elem_of_reverse.
Qed.

(** X3.  [get_median_time_past(n)] reads one block: the one
    [min(n, len) // 2] places below the tip.  No timestamps are sorted,
    and the result is 0 on an empty chain or for [n = 0]. *)
Theorem get_median_time_past_position (n : nat) (s : State) :
  let chain := active_chain s in
  get_median_time_past n s
  = if bool_decide (n = 0%nat) then 0
    else default 0 (timestamp <$>
           chain !! (length chain - 1 - (n `min` length chain) / 2)%nat).
Proof.
  intros chain. unfold get_median_time_past.
  change (active_chain s) with chain. clearbody chain.
  rewrite length_take, length_reverse.
  case_bool_decide as Hn.
  - by subst n.
  - destruct (decide (chain = [])) as [->|Hne]; [by destruct n|].
    assert (0 < length chain)%nat as Hlen by (destruct chain; simpl; [done|lia]).
    assert ((n `min` length chain) / 2 < n `min` length chain)%nat as Hhalf
      by (apply Nat.div_lt; lia).
    rewrite lookup_take_lt by lia.
    rewrite reverse_lookup by lia.
    replace (length chain - S ((n `min` length chain) / 2))%nat
      with (length chain - 1 - (n `min` length chain) / 2)%nat by lia.
    by destruct (chain !! _).
Qed.

End lookup.

(** ** What an accepted block has passed *)

Section accepted.
Context `{Env}.

Lemma as_block_error_Ok {A} (msg : string) (r : result A) (a : A) :
  as_block_error msg r = Ok a → r = Ok a.
Proof. destruct r as [|[]]; simpl; congruence. Qed.

Lemma rfor_each_Ok {A} (f : A → result unit) (l : list A) :
  rfor_each f l = Ok tt → ∀ x, x ∈ l → f x = Ok tt.
Proof.
  induction l as [|y l IH]; simpl.
  - intros _ x Hx. by apply elem_of_nil in Hx.
  - unfold mbind, result_bind. destruct (f y) as [[]|e] eqn:Hy; [|done].
    intros Hl x [->|Hx]%elem_of_cons; auto.
Qed.

Lemma validate_txn_same_txn (txn t : Transaction) (c a : bool) (s : State) :
  validate_txn txn c a s = Ok t → t = txn.
Proof.
  unfold validate_txn, mbind, result_bind.
  repeat case_match; congruence.
Qed.

Lemma validate_rest_Ok (b : Block) (s : State) :
  as_block_error " failed to validate"
    (rfor_each (λ txn, _ ← validate_txn txn false false s; Ok tt)
               (drop 1 (txns b))) = Ok tt →
  rest_valid b s.
Proof.
  intros Hrest%as_block_error_Ok txn Htxn.
  pose proof (rfor_each_Ok _ _ Hrest txn Htxn) as Hv. cbn beta in Hv.
  unfold mbind, result_bind in Hv.
  destruct (validate_txn txn false false s) as [t|e] eqn:Ht; [|done].
  by apply validate_txn_same_txn in Ht as ->.
Qed.

(** Everything [validate_block] has checked when it returns, and the
    four ways it chooses the chain index. *)
Lemma validate_block_inv (b b' : Block) (k : nat) (s : State) :
  validate_block b s = Ok (b', k) →
  b' = b
  ∧ txns b ≠ []
  ∧ timestamp b - time_time <= Params.MAX_FUTURE_BLOCK_TIME
  ∧ bits b <= 256
  ∧ block_hash_int b <= 2 ^ (256 - bits b)
  ∧ coinbase_indices (txns b) = [0%nat]
  ∧ (∀ p : nat * Transaction, p ∈ enumerate 0 (txns b) →
       validate_basics p.2 (bool_decide (p.1 = 0%nat)) = Ok tt)
  ∧ (∃ root, get_merkle_root_of_txns (txns b) = Ok root
             ∧ val root = merkle_hash b)
  ∧ get_next_work_required (prev_block_hash b) s = Ok (bits b)
  ∧ get_median_time_past 11 s < timestamp b
  ∧ ((k = 0%nat
      ∧ (prev_block_hash b = None ∨ prev_block_hash b = Some "")
      ∧ active_chain s = [] ∧ rest_valid b s)
     ∨ (∃ p h, find_block (prev_block_hash b) None s = Some (p, h, k)
               ∧ k ≠ 0%nat)
     ∨ (∃ p h, find_block (prev_block_hash b) None s = Some (p, h, 0%nat)
               ∧ Some p ≠ last (active_chain s) ∧ k = 1%nat)
     ∨ (∃ p h, find_block (prev_block_hash b) None s = Some (p, h, 0%nat)
               ∧ Some p = last (active_chain s) ∧ k = 0%nat
               ∧ rest_valid b s)).
Proof.
  unfold validate_block.
  case_bool_decide as Htxns; [discriminate|].
  destruct (Z.gtb_spec (timestamp b - time_time)
              Params.MAX_FUTURE_BLOCK_TIME) as [Hts|Hts]; [discriminate|].
  rewrite int16_Block_id. cbn [mbind result_bind].
  unfold lshift. destruct (Z.ltb_spec (256 - bits b) 0) as [Hb|Hb];
    [discriminate|].
  cbn [mbind result_bind]. rewrite Z.shiftl_1_l.
  destruct (Z.gtb_spec (block_hash_int b) (2 ^ (256 - bits b))) as [Hh|Hh];
    [discriminate|].
  case_bool_decide as Hcb; cbn [negb]; [|discriminate].
  destruct (as_block_error "Invalid txn {txn.id}" _) as [[]|e] eqn:Hbasics;
    cbn [mbind result_bind]; [|discriminate].
  apply as_block_error_Ok in Hbasics.
  destruct (get_merkle_root_of_txns (txns b)) as [root|e] eqn:Hroot;
    cbn [mbind result_bind]; [|discriminate].
  case_bool_decide as Hmerkle; cbn [negb]; [|discriminate].
  destruct (get_next_work_required _ s) as [required|e] eqn:Hwork;
    cbn [mbind result_bind]; [|discriminate].
  destruct (Z.eqb_spec required (bits b)) as [->|]; cbn [negb];
    [|discriminate].
  destruct (Z.leb_spec (timestamp b) (get_median_time_past 11 s))
    as [|Hmed]; [discriminate|].
  intros Hrest.
  assert (b' = b ∧
          ((k = 0%nat
            ∧ (prev_block_hash b = None ∨ prev_block_hash b = Some "")
            ∧ active_chain s = [] ∧ rest_valid b s)
           ∨ (∃ p h, find_block (prev_block_hash b) None s = Some (p, h, k)
                     ∧ k ≠ 0%nat)
           ∨ (∃ p h, find_block (prev_block_hash b) None s
                     = Some (p, h, 0%nat)
                     ∧ Some p ≠ last (active_chain s) ∧ k = 1%nat)
           ∨ (∃ p h, find_block (prev_block_hash b) None s
                     = Some (p, h, 0%nat)
                     ∧ Some p = last (active_chain s) ∧ k = 0%nat
                     ∧ rest_valid b s))) as [-> Hidx].
  { revert Hrest.
    destruct (_ && bool_decide (active_chain s = [])) eqn:Hgen.
    - apply andb_true_iff in Hgen as [Hno Hnil].
      apply bool_decide_eq_true in Hnil.
      destruct (as_block_error " failed to validate" _) as [[]|e] eqn:Hr;
        cbn [mbind result_bind]; [|discriminate].
      intros [= <- <-]. split; [done|]. left.
      split; [done|]. split; [|split; [done|by apply validate_rest_Ok]].
      destruct (prev_block_hash b) as [[|c h]|]; auto; discriminate.
    - destruct (find_block _ None s) as [[[p h] idx]|] eqn:Hfind;
        [|discriminate].
      destruct (decide (idx = 0%nat)) as [->|Hidx];
        [rewrite (bool_decide_eq_true_2 (0%nat = 0%nat)) by done
        |rewrite (bool_decide_eq_false_2 (idx = 0%nat)) by done];
        cbn [negb].
      + destruct (decide (Some p = last (active_chain s))) as [Htip|Htip];
          [rewrite (bool_decide_eq_true_2 _ Htip)
          |rewrite (bool_decide_eq_false_2 _ Htip)]; cbn [negb].
        * destruct (as_block_error " failed to validate" _) as [[]|e] eqn:Hr;
            cbn [mbind result_bind]; [|discriminate].
          intros [= <- <-]. split; [done|]. do 3 right. exists p, h.
          split; [done|]. split; [done|]. split; [done|].
          by apply validate_rest_Ok.
        * intros [= <- <-]. split; [done|]. do 2 right. left. exists p, h.
          split; [done|]. split; [done|]. cbn. lia.
      + intros [= <- <-]. split; [done|]. right. left. by exists p, h. }
  split; [done|]. split; [done|]. split; [done|]. split; [lia|].
  split; [done|]. split; [done|].
  split; [intros p Hp; by apply (rfor_each_Ok _ _ Hbasics p)|].
  split; [by exists root|]. split; [done|]. split; [done|]. done.
Qed.

(** The only [BlockValidationError] that carries a block to orphan is
    the one of the search for the parent, which is reached with a parent
    hash that is [None] or empty and a chain that is not empty. *)
Lemma validate_block_orphan_inv (b o : Block) (msg : string) (s : State) :
  validate_block b s = Raise (BlockValidationError msg (Some o)) →
  o = b
  ∧ (prev_block_hash b = None ∨ prev_block_hash b = Some "")
  ∧ active_chain s ≠ []
  ∧ get_next_work_required (prev_block_hash b) s = Ok (bits b).
Proof.
  unfold validate_block.
  case_bool_decide as Htxns; [discriminate|].
  destruct (_ >? Params.MAX_FUTURE_BLOCK_TIME); [discriminate|].
  rewrite int16_Block_id. cbn [mbind result_bind].
  unfold lshift. destruct (_ <? 0); [discriminate|].
  cbn [mbind result_bind].
  destruct (_ >? _); [discriminate|].
  destruct (negb _); [discriminate|].
  destruct (as_block_error "Invalid txn {txn.id}" _) as [[]|e] eqn:Hbasics;
    cbn [mbind result_bind].
  2:{ intros [= ->].
      apply as_block_error_raise in Hbasics as [_ [=]].
      apply rfor_each_no_block_error. intros [i tx].
      apply validate_basics_no_block_error. }
  destruct (get_merkle_root_of_txns (txns b)) as [root|e] eqn:Hroot;
    cbn [mbind result_bind].
  2:{ intros [= ->].
      unfold get_merkle_root_of_txns in Hroot.
      exfalso. eapply get_merkle_root_no_block_error. rewrite Hroot.
      by eexists _, _. }
  destruct (negb _); [discriminate|].
  destruct (get_next_work_required _ s) as [required|e] eqn:Hwork;
    cbn [mbind result_bind].
  2:{ intros [= ->].
      exfalso. eapply get_next_work_required_no_block_error. rewrite Hwork.
      by eexists _, _. }
  destruct (Z.eqb_spec required (bits b)) as [->|]; cbn [negb];
    [|discriminate].
  destruct (_ <=? _); [discriminate|].
  assert (∀ k : nat,
               (_ ← as_block_error " failed to validate"
                      (rfor_each (λ txn, _ ← validate_txn txn false false s;
                                         Ok tt) (drop 1 (txns b)));
                Ok (b, k) : result (Block * nat))
               ≠ Raise (BlockValidationError msg (Some o)))
    as Hrest.
  { intros k.
    destruct (as_block_error " failed to validate" _) as [[]|e] eqn:Htxn;
      cbn [mbind result_bind]; [discriminate|].
    intros [= ->].
    apply as_block_error_raise in Htxn as [_ [=]].
    apply rfor_each_no_block_error. intros txn.
    destruct (validate_txn txn false false s) as [t|e] eqn:Ht;
      cbn [mbind result_bind].
    - intros (? & ? & [=]).
    - intros (? & ? & [= ->]).
      apply (validate_txn_no_block_error txn false false s). rewrite Ht.
      by eexists _, _. }
  destruct (_ && bool_decide (active_chain s = [])) eqn:Hgen;
    [intros Hr; by apply Hrest in Hr|].
  destruct (find_block _ None s) as [[[prev_block ?] idx]|] eqn:Hfind.
  { destruct (negb _); [discriminate|].
    destruct (negb _); [discriminate|].
    intros Hr; by apply Hrest in Hr. }
  intros [= <- <-]. split; [done|].
  destruct (prev_block_hash b) as [[|c h]|] eqn:Hprev.
  - cbn in Hgen. case_bool_decide; [done|]. auto.
  - exfalso. revert Hwork. unfold get_next_work_required.
    unfold find_block in Hfind. unfold find_block. rewrite Hfind. done.
  - cbn in Hgen. case_bool_decide; [done|]. auto.
Qed.

End accepted.

(** ** The difficulty *)

Section work.
Context `{Env}.

(** X4.  [get_next_work_required] never changes the difficulty.  When it
    returns, the result is the initial number of bits (for a parent hash
    that is [None] or empty) or the bits of the parent, found at a
    height [k] with [(k + 1) % 600 != 0]: the three returns of the
    retargeting branch are never reached. *)
Theorem get_next_work_required_never_retargets (h : option string)
    (s : State) (r : Z) :
  get_next_work_required h s = Ok r →
  (r = Params.INITIAL_DIFFICULTY_BITS ∧ (h = None ∨ h = Some ""))
  ∨ ∃ b k idx, find_block h None s = Some (b, k, idx) ∧ r = bits b
               ∧ (Z.of_nat k + 1) mod 600 ≠ 0.
Proof.
  unfold get_next_work_required.
  destruct h as [[|c h]|]; [intros [= <-]; left; auto| |intros [= <-]; left; auto].
  destruct (find_block _ None s) as [[[b k] idx]|]; [|discriminate].
  change Params.DIFFICULTY_PERIOD_IN_BLOCKS with 600.
  destruct (Z.eqb_spec ((Z.of_nat k + 1) mod 600) 0) as [Hz|Hnz]; cbn [negb].
  - destruct (Z.gtb_spec 0 (Z.of_nat k - (600 - 1))) as [Hlt|Hge];
      [|discriminate].
    rewrite Z.mod_small in Hz by lia. lia.
  - intros [= <-]. right. by exists b, k, idx.
Qed.

(** At the end of a period of 600 blocks the index computed for the
    first block of the period is a float, and indexing the chain with it
    raises. *)
Lemma get_next_work_required_period_end (h : string) (s : State)
    (b : Block) (k idx : nat) :
  h ≠ "" →
  find_block (Some h) None s = Some (b, k, idx) →
  (Z.of_nat k + 1) mod 600 = 0 →
  get_next_work_required (Some h) s = Raise TypeError.
Proof.
  intros Hh Hfind Hk. unfold get_next_work_required.
  destruct h as [|c h]; [done|]. rewrite Hfind.
  change Params.DIFFICULTY_PERIOD_IN_BLOCKS with 600.
  destruct (Z.eqb_spec ((Z.of_nat k + 1) mod 600) 0) as [Hz|Hnz]; [|done].
  cbn [negb].
  destruct (Z.gtb_spec 0 (Z.of_nat k - (600 - 1))) as [Hlt|Hge]; [|done].
  rewrite Z.mod_small in Hz by lia. lia.
Qed.

(** X5.  A block whose parent is at height 599 (1199, ...) of a chain
    is never connected: [validate_block] ends in the [TypeError] of
    [get_next_work_required] or in an earlier error, [connect_block]
    returns no chain index, and chains and UTXO set stay as they were. *)
Theorem connect_block_stops_at_period_end (blk p : Block) (h : string)
    (k idx : nat) (s : State) :
  prev_block_hash blk = Some h →
  h ≠ "" →
  find_block (Some h) None s = Some (p, k, idx) →
  (Z.of_nat k + 1) mod 600 = 0 →
  (∀ c, (connect_block blk s).1 ≠ Ok (Some c))
  ∧ active_chain (connect_block blk s).2 = active_chain s
  ∧ side_branches (connect_block blk s).2 = side_branches s
  ∧ utxo_set (connect_block blk s).2 = utxo_set s
  ∧ mempool (connect_block blk s).2 = mempool s.
Proof.
  intros Hprev Hh Hfind Hk.
  pose proof (get_next_work_required_period_end h s p k idx Hh Hfind Hk)
    as Hwork.
  unfold connect_block. py_unfold.
  destruct (validate_block blk s) as [[b' c']|e] eqn:Hval.
  - apply validate_block_inv in Hval as (_ & _ & _ & _ & _ & _ & _ & _ & Hw & _).
    rewrite Hprev, Hwork in Hw. discriminate.
  - destruct e; cbn; try done.
    destruct to_orphan; cbn; repeat split; done.
Qed.

End work.

(** ** [connect_block]: what it changes and what it leaves alone *)

Section connect_frame.
Context `{Env}.

Lemma same_chains_refl (s : State) : same_chains s s.
Proof. by repeat split. Qed.

Lemma same_chains_trans (s1 s2 s3 : State) :
  same_chains s1 s2 → same_chains s2 s3 → same_chains s1 s3.
Proof.
  unfold same_chains.
  intros (-> & -> & -> & -> & -> & -> & ->) (-> & -> & -> & -> & -> & -> & ->).
  by repeat split.
Qed.

Lemma same_chains_set_utxo_set f (s : State) :
  same_chains s (set_utxo_set f s).
Proof. by repeat split. Qed.

Lemma same_chains_set_mempool f (s : State) :
  same_chains s (set_mempool f s).
Proof. by repeat split. Qed.

Lemma for_each_same_chains {A} (f : A → Py unit) (l : list A) :
  (∀ x s, same_chains s (f x s).2) →
  ∀ s, same_chains s (for_each f l s).2.
Proof.
  intros Hf. induction l as [|x l IH]; intros s; simpl.
  - apply same_chains_refl.
  - unfold mbind, Py_bind. pose proof (Hf x s) as Hx.
    destruct (f x s) as [[[]|e] s1]; simpl in *; [|done].
    eapply same_chains_trans; [exact Hx | apply IH].
Qed.

Lemma rm_from_utxo_same_chains (t : string) (i : Z) (s : State) :
  same_chains s (rm_from_utxo t i s).2.
Proof.
  unfold rm_from_utxo. destruct (utxo_set s !! _); simpl.
  - apply same_chains_set_utxo_set.
  - apply same_chains_refl.
Qed.

Lemma connect_txn_same_chains (height : Z) (tx : Transaction) (s : State) :
  same_chains s (connect_txn height tx s).2.
Proof.
  unfold connect_txn. unfold mbind at 1 2, Py_bind, modify.
  set (s1 := set_mempool _ s).
  assert (same_chains s s1) as H1 by apply same_chains_set_mempool.
  set (spend := if negb (is_coinbase tx) then _ else _).
  assert (same_chains s1 (spend s1).2) as H2.
  { subst spend. destruct (negb _); [|apply same_chains_refl].
    apply for_each_same_chains. intros txin s0.
    destruct (to_spend txin); [apply rm_from_utxo_same_chains|].
    apply same_chains_refl. }
  destruct (spend s1) as [[[]|e] s2]; simpl in *.
  - eapply same_chains_trans; [exact H1|].
    eapply same_chains_trans; [exact H2|].
    apply for_each_same_chains. intros p s0. apply same_chains_set_utxo_set.
  - by eapply same_chains_trans.
Qed.

(** [reorg_if_necessary] changes nothing, whatever it ends in. *)
Lemma reorg_step_state (r : bool) (i : nat) (chain : list Block)
    (s : State) :
  reorg_step r i chain s = (Ok r, s)
  ∨ ∃ e, reorg_step r i chain s = (Raise e, s).
Proof.
  unfold reorg_step.
  destruct (chain !! 0%nat); [|by right; eexists].
  destruct (find_block_default _ s) as [[[fb fi] ci]|]; [|by right; eexists].
  case_bool_decide; [|by left].
  right. by eexists.
Qed.

Lemma reorg_loop_state (r : bool) (l : list (nat * list Block))
    (s : State) :
  reorg_loop r l s = (Ok r, s) ∨ ∃ e, reorg_loop r l s = (Raise e, s).
Proof.
  induction l as [|[i chain] l IH]; simpl; [by left|].
  unfold mbind, Py_bind.
  destruct (reorg_step_state r i chain s) as [->|[e ->]]; [done|].
  right. by eexists.
Qed.

Lemma reorg_if_necessary_state (s : State) :
  reorg_if_necessary s = (Ok false, s)
  ∨ ∃ e, reorg_if_necessary s = (Raise e, s).
Proof. apply reorg_loop_state. Qed.

Lemma send_all_outbox (b : Block) (l : list string) (s : State) :
  for_each (send_to_peer b) l s
  = (Ok tt, set_outbox (λ o, o ++ map (λ peer, (peer, b)) l) s).
Proof.
  revert s. induction l as [|p l IH]; intros s; simpl.
  - unfold mret, Py_ret. f_equal. destruct s; unfold set_outbox; simpl.
    by rewrite app_nil_r.
  - unfold mbind, Py_bind. unfold send_to_peer at 1. unfold modify.
    rewrite IH. f_equal. destruct s; unfold set_outbox; simpl.
    by rewrite <- app_assoc.
Qed.

(** X6.  When [connect_block] returns the index of the active chain, the
    block has been appended to the active chain, its transactions have
    left the mempool, the outpoints its non-coinbase transactions spend
    are deleted and its outputs inserted with [height = len(chain)] after
    the append (one more than the index of the block), the miner is
    interrupted, and the block has been sent to every peer in order. *)
Theorem connect_block_active_chain_upkeep (b : Block) (s s' : State) :
  connect_block b s = (Ok (Some 0%nat), s') →
  active_chain s' = active_chain s ++ [b]
  ∧ side_branches s' = side_branches s
  ∧ mempool s' = upkeep_mempool b (mempool s)
  ∧ utxo_set s'
    = upkeep_utxo b (Z.of_nat (length (active_chain s)) + 1) (utxo_set s)
  ∧ mine_interrupt s' = true
  ∧ outbox s' = outbox s ++ map (λ peer, (peer, b)) peerlist
  ∧ orphan_blocks s' = orphan_blocks s.
Proof.
  unfold connect_block. py_unfold.
  destruct (validate_block b s) as [[b' idx]|e] eqn:Hval.
  2:{ destruct e; try discriminate. destruct to_orphan; discriminate. }
  apply validate_block_same_block in Hval as ->.
  destruct (find_block_default _ s); [discriminate|].
  unfold chain_append, idx_to_chain.
  destruct idx as [|i].
  2:{ destruct (side_branches s !! i); [|discriminate].
      repeat case_match; try discriminate; intros [= ? ?]; discriminate. }
  cbn [active_chain set_active_chain].
  match goal with
  | |- context [for_each (connect_txn ?h) (txns b) ?st] =>
      destruct (for_each (connect_txn h) (txns b) st)
        as [[[]|e] s1] eqn:Htxns
  end; [|discriminate].
  apply connect_txns_ok in Htxns.
  destruct (reorg_if_necessary s1) as [[r|e] s2] eqn:Hreorg;
    [|discriminate].
  apply reorg_if_necessary_ok in Hreorg as [-> ->].
  cbn [orb]. rewrite (bool_decide_eq_true_2 (0%nat = 0%nat)) by done.
  rewrite send_all_outbox.
  intros [= <-]. rewrite Htxns.
  rewrite length_app, Nat2Z.inj_add. cbn [length].
  destruct s; done.
Qed.

(** X7.  When [connect_block] returns [None], nothing has been connected:
    the state is as before, or the block has been put on [orphan_blocks]
    and nothing else has changed, which happens only to a block whose
    parent hash is [None] or empty, offered to a node whose chain is not
    empty. *)
Theorem connect_block_none_changes_nothing (b : Block) (s s' : State) :
  connect_block b s = (Ok None, s') →
  s' = s
  ∨ (s' = set_orphan_blocks (λ l, l ++ [b]) s
     ∧ (prev_block_hash b = None ∨ prev_block_hash b = Some "")
     ∧ active_chain s ≠ []).
Proof.
  unfold connect_block. py_unfold.
  destruct (validate_block b s) as [[b' idx]|e] eqn:Hval.
  - destruct (find_block_default _ s); [intros [= <-]; by left|].
    destruct (chain_append idx b' s) as [[[]|e] s1]; [|discriminate].
    destruct (idx_to_chain idx s1) as [chain|e]; [|discriminate].
    destruct (for_each _ (txns b') s1) as [[[]|e] s2]; [|discriminate].
    destruct (reorg_if_necessary s2) as [[r|e] s3]; [|discriminate].
    destruct (_ || _).
    + destruct (for_each _ peerlist _) as [[[]|e] s4]; discriminate.
    + destruct (for_each _ peerlist _) as [[[]|e] s4]; discriminate.
  - destruct e; try discriminate.
    destruct to_orphan as [o|]; [|intros [= <-]; by left].
    apply validate_block_orphan_inv in Hval as (-> & Hprev & Hne & _).
    intros [= <-]. right. done.
Qed.

(** However [connect_block] ends, the chains are as before or have the
    block appended. *)
Lemma connect_block_frame (b : Block) (s : State) :
  let s' := (connect_block b s).2 in
  (active_chain s' = active_chain s ∨ active_chain s' = active_chain s ++ [b])
  ∧ stale_default_chain s' = stale_default_chain s
  ∧ (side_branches s' = side_branches s
     ∨ ∃ k branch, side_branches s !! k = Some branch
                   ∧ side_branches s' = <[k := branch ++ [b]]> (side_branches s))
  ∧ length (side_branches s') = length (side_branches s)
  ∧ orphan_txns s' = orphan_txns s.
Proof.
  cbv zeta. unfold connect_block. py_unfold.
  destruct (validate_block b s) as [[b' idx]|e] eqn:Hval.
  2:{ destruct e; cbn; try by auto 10.
      destruct to_orphan; cbn; by auto 10. }
  apply validate_block_same_block in Hval as ->.
  destruct (find_block_default _ s); cbn; [by auto 10|].
  assert (∀ s1 : State,
            (active_chain s1 = active_chain s
             ∨ active_chain s1 = active_chain s ++ [b])
            ∧ stale_default_chain s1 = stale_default_chain s
            ∧ (side_branches s1 = side_branches s
               ∨ ∃ k branch, side_branches s !! k = Some branch
                   ∧ side_branches s1
                     = <[k := branch ++ [b]]> (side_branches s))
            ∧ orphan_txns s1 = orphan_txns s →
            ∀ s2, same_chains s1 s2 ∨ (∃ o, s2 = set_outbox o s1)
                  ∨ (∃ v, s2 = set_mine_interrupt v s1) →
            (active_chain s2 = active_chain s
             ∨ active_chain s2 = active_chain s ++ [b])
            ∧ stale_default_chain s2 = stale_default_chain s
            ∧ (side_branches s2 = side_branches s
               ∨ ∃ k branch, side_branches s !! k = Some branch
                   ∧ side_branches s2
                     = <[k := branch ++ [b]]> (side_branches s))
            ∧ orphan_txns s2 = orphan_txns s) as Hkeep.
  { intros s1 Hs1 s2 [(Ha & Hd & Hsb & _ & Ho & _)|[[o ->]|[v ->]]];
      [|by destruct s1..].
    by rewrite Ha, Hd, Hsb, Ho. }
  assert (∀ s2,
            (active_chain s2 = active_chain s
             ∨ active_chain s2 = active_chain s ++ [b])
            ∧ stale_default_chain s2 = stale_default_chain s
            ∧ (side_branches s2 = side_branches s
               ∨ ∃ k branch, side_branches s !! k = Some branch
                   ∧ side_branches s2
                     = <[k := branch ++ [b]]> (side_branches s))
            ∧ orphan_txns s2 = orphan_txns s →
            (active_chain s2 = active_chain s
             ∨ active_chain s2 = active_chain s ++ [b])
            ∧ stale_default_chain s2 = stale_default_chain s
            ∧ (side_branches s2 = side_branches s
               ∨ ∃ k branch, side_branches s !! k = Some branch
                   ∧ side_branches s2
                     = <[k := branch ++ [b]]> (side_branches s))
            ∧ length (side_branches s2) = length (side_branches s)
            ∧ orphan_txns s2 = orphan_txns s) as Hlen.
  { intros s2 (Ha & Hd & Hsb & Ho). repeat split; try done.
    destruct Hsb as [->|(k & branch & _ & ->)]; [done|].
    by rewrite length_insert. }
  assert ((active_chain (chain_append idx b s).2 = active_chain s
           ∨ active_chain (chain_append idx b s).2 = active_chain s ++ [b])
          ∧ stale_default_chain (chain_append idx b s).2
            = stale_default_chain s
          ∧ (side_branches (chain_append idx b s).2 = side_branches s
             ∨ ∃ k branch, side_branches s !! k = Some branch
                 ∧ side_branches (chain_append idx b s).2
                   = <[k := branch ++ [b]]> (side_branches s))
          ∧ orphan_txns (chain_append idx b s).2 = orphan_txns s) as Happ.
  { unfold chain_append. destruct idx as [|i]; cbn; [by auto 10|].
    destruct (side_branches s !! i) as [branch|] eqn:Hi; cbn; [|by auto 10].
    repeat split; try done; auto. right. by exists i, branch. }
  destruct (chain_append idx b s) as [[[]|e] s1]; cbn in Happ |- *;
    [|by apply Hlen].
  destruct (idx_to_chain idx s1) as [chain|e]; cbn; [|by apply Hlen].
  pose proof (for_each_same_chains (connect_txn (Z.of_nat (length chain)))
                (txns b) (connect_txn_same_chains _) s1) as Htx.
  destruct (for_each _ (txns b) s1) as [[[]|e] s2]; cbn in Htx |- *.
  2:{ apply Hlen. apply (Hkeep s1 Happ). by left. }
  pose proof (Hkeep s1 Happ s2 (or_introl Htx)) as Hs2.
  destruct (reorg_if_necessary_state s2) as [->|[e ->]]; cbn;
    [|by apply Hlen].
  cbn [orb].
  destruct (bool_decide (idx = 0%nat)).
  - rewrite send_all_outbox. cbn [snd]. apply Hlen.
    apply (Hkeep (set_mine_interrupt true s2)).
    + apply (Hkeep s2 Hs2). right. right. by eexists.
    + right. left. by eexists.
  - rewrite send_all_outbox. cbn [snd]. apply Hlen.
    apply (Hkeep s2 Hs2). right. left. by eexists.
Qed.

(** X8.  [connect_block] never reorganises and never opens a branch,
    however it ends (with a value or with an exception).  The active
    chain is as before or has the block appended; the list the default
    argument of [find_block] names is not replaced; the side branches are
    as before or one of them has the block appended. *)
Theorem connect_block_never_reorganises (b : Block) (s : State) :
  let s' := (connect_block b s).2 in
  (active_chain s' = active_chain s ∨ active_chain s' = active_chain s ++ [b])
  ∧ stale_default_chain s' = stale_default_chain s
  ∧ (side_branches s' = side_branches s
     ∨ ∃ k branch, side_branches s !! k = Some branch
                   ∧ side_branches s' = <[k := branch ++ [b]]> (side_branches s))
  ∧ length (side_branches s') = length (side_branches s)
  ∧ orphan_txns s' = orphan_txns s.
Proof. exact (connect_block_frame b s). Qed.

(** X9.  On a node without side branches, a block that passes
    [validate_block] and whose parent is in the active chain without
    being its tip gets the chain index 1, for which there is no chain.
    [connect_block] then returns [None] when a block of that id is
    already in the chain, and raises [IndexError] when none is; either
    way it changes nothing, so the fork is not recorded. *)
Theorem connect_block_fork_without_side_branch (b b' p : Block) (k h : nat)
    (s : State) :
  side_branches s = [] →
  validate_block b s = Ok (b', k) →
  find_block (prev_block_hash b) None s = Some (p, h, 0%nat) →
  Some p ≠ last (active_chain s) →
  k = 1%nat
  ∧ connect_block b s
    = match find_block_default (Some (Block_id b)) s with
      | Some _ => (Ok None, s)
      | None => (Raise IndexError, s)
      end.
Proof.
  intros Hsb Hval Hfind Htip.
  pose proof Hval as Hinv.
  apply validate_block_inv in Hinv
    as (-> & _ & _ & _ & _ & _ & _ & _ & _ & _ & Hidx).
  assert (k = 1%nat) as ->.
  { destruct Hidx as [(_ & Hno & Hnil & _)|[(p1 & h1 & Hf & Hk)|
      [(p1 & h1 & Hf & _ & Hk)|(p1 & h1 & Hf & Htip' & _)]]].
    - unfold find_block in Hfind.
      rewrite Hnil, Hsb in Hfind. cbn in Hfind. discriminate.
    - rewrite Hfind in Hf. by injection Hf as <- <- <-.
    - done.
    - rewrite Hfind in Hf. by injection Hf as <- <-. }
  split; [done|].
  unfold connect_block. py_unfold. rewrite Hval.
  destruct (find_block_default _ s); [done|].
  unfold chain_append. by rewrite Hsb.
Qed.

End connect_frame.

(** ** The node never forks *)

Section never_forks.
Context `{Env}.

Lemma accept_txn_frame (txn : Transaction) (s : State) :
  let s' := (accept_txn txn s).2 in
  active_chain s' = active_chain s
  ∧ stale_default_chain s' = stale_default_chain s
  ∧ side_branches s' = side_branches s
  ∧ orphan_blocks s' = orphan_blocks s
  ∧ utxo_set s' = utxo_set s.
Proof.
  cbv zeta. unfold accept_txn. py_unfold.
  destruct (validate_txn txn false true s) as [t|e]; cbn; [done|].
  destruct e; cbn; try done.
  destruct to_orphan; cbn; done.
Qed.

(** X10.  A node that starts empty never has a side branch, and the list
    that [find_block] searches by default stays the active chain:
    whatever blocks and transactions reach it, in whatever order and
    however the calls end, [side_branches] stays empty.  With X9, every
    block that forks off the active chain is lost. *)
Theorem node_never_has_side_branches (events : list event) :
  side_branches (run events initial_state) = []
  ∧ stale_default_chain (run events initial_state) = None.
Proof.
  unfold run.
  assert (∀ s, side_branches s = [] ∧ stale_default_chain s = None →
               side_branches (foldl step s events) = []
               ∧ stale_default_chain (foldl step s events) = None) as Hinv.
  { induction events as [|e events IH]; intros s Hs; simpl; [done|].
    apply IH. destruct Hs as [Hsb Hd]. destruct e as [b|txn]; simpl.
    - destruct (connect_block_frame b s) as (_ & Hd' & _ & Hlen & _).
      rewrite Hd', Hd. split; [|done].
      rewrite Hsb in Hlen. by apply nil_length_inv.
    - destruct (accept_txn_frame txn s) as (_ & Hd' & Hsb' & _).
      by rewrite Hd', Hsb'. }
  by apply Hinv.
Qed.

End never_forks.

(** ** What [validate_txn] accepts *)

Section txn.
Context `{Env}.

Lemma find_utxo_in_mempool_Ok (txin : TxIn) (s : State)
    (r : option UnspentTxOut) :
  find_utxo_in_mempool txin s = Ok r →
  r = None
  ∧ ∃ op, to_spend txin = Some op ∧ dict_get (txid op) (mempool s) = None.
Proof.
  unfold find_utxo_in_mempool.
  destruct (to_spend txin) as [op|]; [|done].
  destruct (dict_get _ _) eqn:Hd; [done|].
  intros [= <-]. split; [done|]. by exists op.
Qed.

Lemma find_utxo_in_mempool_Raise (txin : TxIn) (s : State) (e : exn) :
  find_utxo_in_mempool txin s = Raise e → e = AttributeError.
Proof.
  unfold find_utxo_in_mempool.
  destruct (to_spend txin) as [op|]; [|congruence].
  destruct (dict_get _ _) eqn:Hd; [|done].
  cbn. congruence.
Qed.

Lemma validate_signature_for_spend_cases (txin : TxIn) (u : UnspentTxOut)
    (txn : Transaction) :
  validate_signature_for_spend txin u txn = Ok true
  ∨ validate_signature_for_spend txin u txn = Raise TypeError
  ∨ validate_signature_for_spend txin u txn = Raise EcdsaError
  ∨ ∃ msg, validate_signature_for_spend txin u txn
           = Raise (TxUnlockError msg).
Proof.
  unfold validate_signature_for_spend.
  destruct (unlock_pk txin); [|by auto].
  destruct (negb (VerifyingKey_from_string _)); [by auto|].
  destruct (negb (bool_decide _)); [by eauto 10|].
  destruct (VerifyingKey_verify _ _ _); by eauto 10.
Qed.

Lemma validate_txin_Ok (txn : Transaction) (a : bool) (s : State) (i : nat)
    (txin : TxIn) (v : Z) :
  validate_txin txn a s i txin = Ok v →
  ∃ u, spendable txn s txin u ∧ v = utxo_value u.
Proof.
  unfold validate_txin.
  destruct (utxo_get (to_spend txin) s) as [u|] eqn:Hu;
    cbn [mbind result_bind].
  - destruct (utxo_is_coinbase u && _) eqn:Hcb; [discriminate|].
    destruct (validate_signature_for_spend_cases txin u txn)
      as [Hs|[Hs|[Hs|[msg Hs]]]]; rewrite Hs; try discriminate.
    intros [= <-]. exists u. split; [|done].
    split; [done|]. split; [|done].
    intros Hc. rewrite Hc in Hcb. cbn in Hcb. by apply Z.ltb_ge in Hcb.
  - destruct a; cbn [mbind result_bind]; [|discriminate].
    destruct (find_utxo_in_mempool txin s) as [r|e] eqn:Hf;
      cbn [mbind result_bind]; [|discriminate].
    apply find_utxo_in_mempool_Ok in Hf as [-> _]. discriminate.
Qed.

Lemma validate_txin_orphan (txn o : Transaction) (s : State) (i : nat)
    (txin : TxIn) (msg : string) :
  validate_txin txn true s i txin
  = Raise (TxnValidationError msg (Some o)) →
  o = txn ∧ dangling s txin.
Proof.
  unfold validate_txin.
  destruct (utxo_get (to_spend txin) s) as [u|] eqn:Hu;
    cbn [mbind result_bind].
  - destruct (utxo_is_coinbase u && _); [discriminate|].
    destruct (validate_signature_for_spend_cases txin u txn)
      as [Hs|[Hs|[Hs|[m Hs]]]]; rewrite Hs; discriminate.
  - destruct (find_utxo_in_mempool txin s) as [r|e] eqn:Hf;
      cbn [mbind result_bind].
    + apply find_utxo_in_mempool_Ok in Hf as [-> (op & Hop & Hmp)].
      intros [= _ <-]. split; [done|]. exists op.
      split; [done|]. split; [|done].
      unfold utxo_get in Hu. by rewrite Hop in Hu.
    + apply find_utxo_in_mempool_Raise in Hf as ->. discriminate.
Qed.

Lemma validate_txins_Ok (txn : Transaction) (a : bool) (s : State)
    (l : list (nat * TxIn)) (acc v : Z) :
  validate_txins txn a s acc l = Ok v →
  ∃ utxos, Forall2 (spendable txn s) (l.*2) utxos
           ∧ v = acc + sum_Z (map utxo_value utxos).
Proof.
  revert acc. induction l as [|[i txin] l IH]; intros acc; simpl.
  - intros [= <-]. exists []. split; [constructor|]. unfold sum_Z. simpl. lia.
  - unfold mbind, result_bind.
    destruct (validate_txin txn a s i txin) as [v0|e] eqn:Hv; [|discriminate].
    apply validate_txin_Ok in Hv as (u & Hu & ->).
    intros Hrest. apply IH in Hrest as (utxos & Hall & ->).
    exists (u :: utxos).
    split; [by constructor|]. unfold sum_Z. simpl. lia.
Qed.

Lemma validate_txins_orphan (txn o : Transaction) (s : State)
    (l : list (nat * TxIn)) (acc : Z) (msg : string) :
  validate_txins txn true s acc l
  = Raise (TxnValidationError msg (Some o)) →
  o = txn ∧ ∃ txin, txin ∈ l.*2 ∧ dangling s txin.
Proof.
  revert acc. induction l as [|[i txin] l IH]; intros acc; simpl; [done|].
  unfold mbind, result_bind.
  destruct (validate_txin txn true s i txin) as [v0|e] eqn:Hv.
  - intros Hrest. apply IH in Hrest as (-> & txin' & Hin & Hd).
    split; [done|].
    exists txin'. split; [by right|done].
  - intros [= ->]. apply validate_txin_orphan in Hv as [-> Hd].
    split; [done|]. exists txin. split; [by left|done].
Qed.

Lemma validate_basics_Ok (t : Transaction) (c : bool) :
  validate_basics t c = Ok tt →
  txouts t ≠ [] ∧ (txins t = [] → c = true)
  ∧ serialized_size t <= Params.MAX_BLOCK_SERIALIZED_SIZE
  ∧ sum_values (txouts t) <= Params.MAX_MONEY.
Proof.
  unfold validate_basics, serialized_size.
  destruct (bool_decide (txouts t = []) || _) eqn:Hm; [discriminate|].
  apply orb_false_iff in Hm as [Ho Hi].
  apply bool_decide_eq_false in Ho.
  destruct (Z.gtb_spec (Z.of_nat (String.length (serialize t)))
              Params.MAX_BLOCK_SERIALIZED_SIZE); [discriminate|].
  destruct (Z.gtb_spec (sum_values (txouts t)) Params.MAX_MONEY);
    [discriminate|].
  intros _. split; [done|]. split; [|split; lia].
  intros Hnil. rewrite bool_decide_eq_true_2 in Hi by done.
  by destruct c.
Qed.

Lemma validate_basics_Raise (t : Transaction) (c : bool) (e : exn) :
  validate_basics t c = Raise e → ∃ msg, e = TxnValidationError msg None.
Proof.
  unfold validate_basics. repeat case_match; intros [= <-]; by eexists.
Qed.

(** What [validate_txn] has checked when it returns. *)
Lemma validate_txn_Ok_inv (txn t : Transaction) (c a : bool) (s : State) :
  validate_txn txn c a s = Ok t →
  t = txn
  ∧ txouts txn ≠ []
  ∧ sum_values (txouts txn) <= Params.MAX_MONEY
  ∧ ∃ utxos, Forall2 (spendable txn s) (txins txn) utxos
             ∧ sum_values (txouts txn) <= sum_Z (map utxo_value utxos).
Proof.
  unfold validate_txn, mbind, result_bind.
  destruct (validate_basics txn c) as [[]|e] eqn:Hb; [|discriminate].
  apply validate_basics_Ok in Hb as (Hout & _ & _ & Hmoney).
  destruct (validate_txins _ _ _ _ _) as [v|e] eqn:Hv; [|discriminate].
  apply validate_txins_Ok in Hv as (utxos & Hall & ->).
  rewrite enumerate_snd in Hall.
  destruct (Z.ltb_spec (0 + sum_Z (map utxo_value utxos))
              (sum_values (txouts txn))); [discriminate|].
  intros [= <-]. split; [done|]. split; [done|]. split; [done|].
  exists utxos. split; [done|lia].
Qed.

Lemma validate_txn_orphan_inv (txn o : Transaction) (c : bool) (s : State)
    (msg : string) :
  validate_txn txn c true s = Raise (TxnValidationError msg (Some o)) →
  o = txn ∧ ∃ txin, txin ∈ txins txn ∧ dangling s txin.
Proof.
  unfold validate_txn, mbind, result_bind.
  destruct (validate_basics txn c) as [[]|e] eqn:Hb.
  2:{ apply validate_basics_Raise in Hb as [m ->]. discriminate. }
  destruct (validate_txins _ _ _ _ _) as [v|e] eqn:Hv.
  - destruct (_ <? _); discriminate.
  - intros [= ->]. apply validate_txins_orphan in Hv.
    by rewrite enumerate_snd in Hv.
Qed.

(** X11.  A transaction that [validate_txn] returns has at least one
    output and outputs of at most [MAX_MONEY] in total; each of its
    inputs names an output of the committed UTXO set (never one of the
    mempool, also when [allow_utxo_from_mempool] is set), which is no
    coinbase output younger than [COINBASE_MATURITY] and which the key
    and signature of the input unlock; and the inputs cover the
    outputs. *)
Theorem validate_txn_accepts_spendable_inputs (txn t : Transaction)
    (c a : bool) (s : State) :
  validate_txn txn c a s = Ok t →
  t = txn
  ∧ txouts txn ≠ []
  ∧ sum_values (txouts txn) <= Params.MAX_MONEY
  ∧ ∃ utxos, Forall2 (spendable txn s) (txins txn) utxos
             ∧ sum_values (txouts txn) <= sum_Z (map utxo_value utxos).
Proof. apply validate_txn_Ok_inv. Qed.

(** X12.  [accept_txn] ends in one of four ways.  Accepted: the
    transaction is stored in the mempool under its id and sent to every
    peer, and all its inputs are spendable committed outputs that cover
    the outputs.  Orphaned: it is appended to [orphan_txns], and one of
    its inputs names an output that is neither committed nor produced by
    a mempool transaction.  Rejected: nothing changes.  Or the call
    raises something that is no [TxnValidationError], and nothing
    changes. *)
Theorem accept_txn_outcomes (txn : Transaction) (s : State) :
  let r := (accept_txn txn s).1 in
  let s' := (accept_txn txn s).2 in
  (r = Ok (map (λ peer, (peer, txn)) peerlist)
   ∧ s' = set_mempool (dict_set (Transaction_id txn) txn) s
   ∧ ∃ utxos, Forall2 (spendable txn s) (txins txn) utxos
              ∧ sum_values (txouts txn) <= sum_Z (map utxo_value utxos))
  ∨ (r = Ok []
     ∧ s' = set_orphan_txns (λ l, l ++ [txn]) s
     ∧ ∃ txin, txin ∈ txins txn ∧ dangling s txin)
  ∨ (r = Ok [] ∧ s' = s)
  ∨ (∃ e, r = Raise e ∧ s' = s ∧ ∀ msg o, e ≠ TxnValidationError msg o).
Proof.
  cbv zeta. unfold accept_txn. py_unfold.
  destruct (validate_txn txn false true s) as [t|e] eqn:Hv.
  - apply validate_txn_Ok_inv in Hv as (-> & _ & _ & Hins). cbn. by left.
  - destruct e; cbn;
      try (do 3 right; eexists; split; [done|]; split; [done|]; done).
    destruct to_orphan as [o|]; cbn.
    + apply validate_txn_orphan_inv in Hv as [-> Hd]. right. left. done.
    + right. right. left. done.
Qed.

End txn.

(** ** Fees *)

Section fees.
Context `{Env}.

Lemma find_utxo_value_committed (b : Block) (s : State) (txin : TxIn)
    (u : UnspentTxOut) :
  utxo_get (to_spend txin) s = Some u →
  find_utxo_value b s txin = Ok (utxo_value u).
Proof. intros Hu. unfold find_utxo_value. by rewrite Hu. Qed.

Lemma find_utxo_value_uncommitted (b : Block) (s : State) (txin : TxIn) :
  txns b ≠ [] →
  utxo_get (to_spend txin) s = None →
  find_utxo_value b s txin = Raise AttributeError.
Proof.
  intros Hne Hu. unfold find_utxo_value, utxo_from_block. rewrite Hu.
  destruct (txns b) as [|t l] eqn:Htx; [done|].
  destruct (to_spend txin) as [op|]; [|done].
  unfold mbind, result_bind. by destruct (map txouts _).
Qed.

Lemma rmap_find_utxo_value (b : Block) (s : State) (l : list TxIn) :
  txns b ≠ [] →
  rmap (find_utxo_value b s) l
  = if forallb (λ txin, bool_decide (is_Some (utxo_get (to_spend txin) s))) l
    then Ok (map (λ txin,
                    default 0 (utxo_value <$> utxo_get (to_spend txin) s)) l)
    else Raise AttributeError.
Proof.
  intros Hne. induction l as [|txin l IH]; [done|].
  cbn [rmap forallb map].
  destruct (utxo_get (to_spend txin) s) as [u|] eqn:Hu.
  - rewrite (find_utxo_value_committed b s txin u Hu), IH.
    rewrite bool_decide_eq_true_2 by done. cbn.
    by destruct (forallb _ l).
  - rewrite (find_utxo_value_uncommitted b s txin Hne Hu).
    rewrite bool_decide_eq_false_2 by (by intros [? ?]). done.
Qed.

Lemma fees_loop_spec (b : Block) (s : State) (l : list Transaction)
    (fee : Z) :
  txns b ≠ [] →
  fees_loop b s fee l
  = if forallb (λ txn,
                  forallb (λ txin,
                             bool_decide
                               (is_Some (utxo_get (to_spend txin) s)))
                          (txins txn)) l
    then Ok (fee + sum_Z (map (txn_fee s) l))
    else Raise AttributeError.
Proof.
  intros Hne. revert fee. induction l as [|txn l IH]; intros fee.
  - unfold sum_Z. simpl. f_equal. lia.
  - cbn [fees_loop forallb map]. rewrite rmap_find_utxo_value by done.
    destruct (forallb _ (txins txn)); cbn [mbind result_bind andb]; [|done].
    rewrite IH. destruct (forallb _ l); [|done].
    f_equal. unfold txn_fee, sum_Z. simpl. lia.
Qed.

(** X13.  [calculate_fees] returns the inputs minus the outputs, summed
    over the transactions of the block, when every input of every
    transaction is a committed output.  As soon as one input is not in
    the UTXO set it raises [AttributeError]: also when the output is
    produced by a transaction of the same block, and also for the input
    of a coinbase. *)
Theorem calculate_fees_committed_inputs_only (b : Block) (s : State) :
  calculate_fees (Some b) s
  = if inputs_committed b s
    then Ok (sum_Z (map (txn_fee s) (txns b)))
    else Raise AttributeError.
Proof.
  unfold calculate_fees, inputs_committed.
  destruct (decide (txns b = [])) as [Hnil|Hne].
  - by rewrite Hnil.
  - by rewrite fees_loop_spec.
Qed.

End fees.

(** ** A dangling input in the mempool *)

Section dangling_input.
Context `{Env}.

Lemma resolve_txins_dangling (s : State) (l1 l2 : list TxIn) (txin : TxIn) :
  Forall (λ i, is_Some (utxo_get (to_spend i) s)) l1 →
  dangling s txin →
  resolve_txins s (l1 ++ txin :: l2) = Ok false.
Proof.
  intros Hl1 (op & Hop & Hu & Hmp).
  induction Hl1 as [|i l1 [u Hi] _ IH]; simpl.
  - unfold utxo_get. rewrite Hop, Hu.
    by rewrite (find_utxo_in_mempool_missing txin op s Hop Hmp).
  - by rewrite Hi.
Qed.

(** Once the block is [None] it stays so. *)
Lemma select_loop_None (s : State) (txids : list string)
    (added : gset string) (b' : Block) :
  select_loop s added None txids ≠ Ok (Some b').
Proof.
  revert added. induction txids as [|txid txids IH]; intros added; simpl;
    [congruence|].
  unfold add_to_block.
  case_bool_decide; cbn [mbind result_bind].
  - destruct (check_block_size None None); [apply IH|congruence].
  - destruct (dict_get txid (mempool s)); cbn [mbind result_bind];
      [|congruence].
    destruct (resolve_txins s _) as [[]|e]; cbn [mbind result_bind];
      [congruence| |congruence].
    destruct (check_block_size None None); [apply IH|congruence].
Qed.

(** X14.  If the first transaction of the mempool has an input that
    names an output that is neither committed nor produced by a mempool
    transaction (its earlier inputs being committed), then
    [select_from_mempool] returns no block, whatever else is in the
    mempool: it returns [None] or raises. *)
Theorem select_from_mempool_dangling_input (block : Block)
    (id : string) (tx : Transaction) (rest : list (string * Transaction))
    (l1 l2 : list TxIn) (txin : TxIn) (s : State) :
  mempool s = (id, tx) :: rest →
  txins tx = l1 ++ txin :: l2 →
  Forall (λ i, is_Some (utxo_get (to_spend i) s)) l1 →
  dangling s txin →
  serialized_size block < Params.MAX_BLOCK_SERIALIZED_SIZE →
  ∀ b', select_from_mempool block s ≠ Ok (Some b').
Proof.
  intros Hmp Hins Hl1 Hd Hsize b'.
  unfold select_from_mempool. rewrite Hmp.
  cbn [dict_keys fmap list_fmap fst select_loop]. unfold add_to_block at 1.
  rewrite bool_decide_eq_false_2 by apply not_elem_of_empty.
  rewrite Hmp. cbn [dict_get]. rewrite decide_True by done.
  rewrite Hins, resolve_txins_dangling by done.
  cbn [mbind result_bind]. rewrite check_block_size_outer by done.
  apply select_loop_None.
Qed.

End dangling_input.

(** ** Merkle roots of odd lists *)

Section merkle_odd.
Context `{Env}.

(** X15.  A list of leaves of odd length has the Merkle root of the list
    with its last leaf repeated: the two lists are not told apart. *)
Theorem get_merkle_root_repeats_last_leaf (leaves : list string)
    (l : string) :
  last leaves = Some l →
  (length leaves `mod` 2 = 1)%nat →
  get_merkle_root (leaves ++ [l]) = get_merkle_root leaves.
Proof.
  intros Hlast Hodd. unfold get_merkle_root.
  rewrite Hlast, (bool_decide_eq_true_2 _ Hodd).
  rewrite bool_decide_eq_false_2; [done|].
  rewrite length_app. cbn [length].
  intros Heven. rewrite Nat.Div0.add_mod, Hodd in Heven. discriminate.
Qed.

End merkle_odd.

(** ** The block subsidy *)

Section subsidy.
Context `{Env}.

Lemma get_block_subsidy_eq (s : State) :
  get_block_subsidy s
  = if Z.of_nat (length (active_chain s)) / 210000 >=? 64 then 0
    else 5000000000 / 2 ^ (Z.of_nat (length (active_chain s)) / 210000).
Proof. reflexivity. Qed.

Lemma subsidy_at_height_eq (n : nat) :
  subsidy_at_height n
  = if Z.of_nat n / 210000 >=? 64 then 0
    else 5000000000 / 2 ^ (Z.of_nat n / 210000).
Proof.
  unfold subsidy_at_height. rewrite get_block_subsidy_eq.
  cbn [active_chain set_active_chain]. by rewrite length_replicate.
Qed.

Lemma get_block_subsidy_at_height (s : State) :
  get_block_subsidy s = subsidy_at_height (length (active_chain s)).
Proof. by rewrite get_block_subsidy_eq, subsidy_at_height_eq. Qed.

(** One more halving halves the amount (rounding down). *)
Lemma halved_amount (q : Z) :
  0 <= q →
  (if q + 1 >=? 64 then 0 else 5000000000 / 2 ^ (q + 1))
  = (if q >=? 64 then 0 else 5000000000 / 2 ^ q) / 2.
Proof.
  intros Hq.
  destruct (Z.geb_spec q 64) as [H64|H64].
  - destruct (Z.geb_spec (q + 1) 64); [done|lia].
  - rewrite Z.pow_add_r by lia. change (2 ^ 1) with 2.
    assert (2 ^ q ≠ 0) as Hpow by (apply Z.pow_nonzero; lia).
    rewrite <- Z.div_div by lia.
    destruct (Z.geb_spec (q + 1) 64) as [Hq1|Hq1]; [|done].
    assert (q = 63) as -> by lia. reflexivity.
Qed.

Lemma amount_nonneg (q : Z) :
  0 <= q → 0 <= (if q >=? 64 then 0 else 5000000000 / 2 ^ q).
Proof.
  intros Hq. destruct (q >=? 64); [done|].
  apply Z.div_pos; [lia|]. by apply Z.pow_pos_nonneg.
Qed.

(** X16.  The subsidy halves, rounding down, every
    [HALVE_SUBSIDY_AFTER_BLOCKS_NUM] blocks: a chain that is 210,000
    blocks longer gets half the subsidy. *)
Theorem get_block_subsidy_halves (s s' : State) :
  Z.of_nat (length (active_chain s'))
  = Z.of_nat (length (active_chain s))
    + Params.HALVE_SUBSIDY_AFTER_BLOCKS_NUM →
  get_block_subsidy s' = get_block_subsidy s / 2.
Proof.
  intros Hlen. rewrite !get_block_subsidy_eq, Hlen.
  change Params.HALVE_SUBSIDY_AFTER_BLOCKS_NUM with (1 * 210000).
  rewrite Z.div_add by lia.
  apply halved_amount. apply Z.div_pos; lia.
Qed.

Lemma sum_Z_app (l1 l2 : list Z) : sum_Z (l1 ++ l2) = sum_Z l1 + sum_Z l2.
Proof.
  unfold sum_Z. induction l1 as [|x l1 IH]; simpl; [done|]. rewrite IH. lia.
Qed.

(** What has been issued up to height [m], plus a bound on what is left
    to issue from there, stays within [MAX_MONEY]. *)
Lemma issued_and_pending (m : nat) :
  sum_Z (map subsidy_at_height (seq 0 m))
  + (420000 - Z.of_nat m mod 210000) * subsidy_at_height m
  <= 2100000000000000.
Proof.
  induction m as [|m IH].
  - rewrite subsidy_at_height_eq. by vm_compute.
  - rewrite seq_S, map_app, sum_Z_app. cbn [map plus]. unfold sum_Z at 2.
    cbn [foldr].
    rewrite !subsidy_at_height_eq in *.
    rewrite Nat2Z.inj_succ, <- Z.add_1_r.
    set (n := Z.of_nat m) in *.
    assert (0 <= n) as Hn by lia.
    pose proof (Z.div_mod n 210000 ltac:(lia)) as Hdm.
    pose proof (Z.mod_pos_bound n 210000 ltac:(lia)) as Hr.
    assert (0 <= n / 210000) as Hq by (apply Z.div_pos; lia).
    pose proof (amount_nonneg (n / 210000) Hq) as Hc.
    destruct (decide (n mod 210000 + 1 < 210000)) as [Hlt|Hge].
    + assert ((n + 1) / 210000 = n / 210000) as ->.
      { symmetry. apply (Z.div_unique _ _ _ (n mod 210000 + 1)); lia. }
      assert ((n + 1) mod 210000 = n mod 210000 + 1) as ->.
      { symmetry. apply (Z.mod_unique _ _ (n / 210000)); lia. }
      nia.
    + assert ((n + 1) / 210000 = n / 210000 + 1) as ->.
      { symmetry. apply (Z.div_unique _ _ _ 0); lia. }
      assert ((n + 1) mod 210000 = 0) as ->.
      { symmetry. apply (Z.mod_unique _ _ (n / 210000 + 1)); lia. }
      rewrite halved_amount by done.
      set (c := if n / 210000 >=? 64 then 0 else _) in *.
      pose proof (Z.mul_div_le c 2 ltac:(lia)) as Hhalf.
      assert (0 <= c / 2) by (apply Z.div_pos; lia).
      nia.
Qed.

(** X17.  However long the chain, the subsidies of its blocks, each
    taken at the length the chain had when the block was assembled, add
    up to at most [MAX_MONEY]. *)
Theorem total_subsidy_at_most_max_money (chain : list Block) (s : State) :
  total_subsidy chain s <= Params.MAX_MONEY.
Proof.
  unfold total_subsidy.
  assert (map (λ k, get_block_subsidy
                      (set_active_chain (λ _, take k chain) s))
              (seq 0 (length chain))
          = map subsidy_at_height (seq 0 (length chain))) as ->.
  { apply map_ext_in. intros k Hk%in_seq.
    rewrite get_block_subsidy_at_height. cbn [active_chain set_active_chain].
    rewrite length_take. f_equal. lia. }
  pose proof (issued_and_pending (length chain)) as Hinv.
  pose proof (Z.mod_pos_bound (Z.of_nat (length chain)) 210000 ltac:(lia)).
  assert (0 <= subsidy_at_height (length chain)) as Hc.
  { rewrite subsidy_at_height_eq. apply amount_nonneg.
    apply Z.div_pos; lia. }
  change Params.MAX_MONEY with 2100000000000000. nia.
Qed.

End subsidy.

(** ** The iterators over a chain and the search of the mempool *)

Section iterators.
Context `{Env}.

Lemma elem_of_enumerate {A} (l : list A) (n i : nat) (x : A) :
  (i, x) ∈ enumerate n l ↔ (n ≤ i)%nat ∧ l !! (i - n)%nat = Some x.
Proof.
  revert n. induction l as [|y l IH]; intros n; simpl.
  - rewrite elem_of_nil. split; [done|]. by intros [_ ?].
  - rewrite elem_of_cons, IH. split.
    + intros [[= -> ->]|[Hle Hl]].
      * split; [lia|]. by rewrite Nat.sub_diag.
      * split; [lia|]. by replace (i - n)%nat with (S (i - S n)) by lia.
    + intros [Hle Hl]. destruct (decide (i = n)) as [->|Hne].
      * left. rewrite Nat.sub_diag in Hl. by injection Hl as ->.
      * right. split; [lia|].
        by replace (i - n)%nat with (S (i - S n)) in Hl by lia.
Qed.

(** X18.  [txn_iterator(chain)] yields exactly the triples of a
    transaction, the block that holds it and the index of that block in
    the chain; [txin_iterator(chain)] yields exactly the inputs of those
    transactions, each with that index. *)
Theorem iterators_enumerate_the_chain (chain : list Block) :
  (∀ txn block height,
     (txn, block, height) ∈ txn_iterator chain
     ↔ chain !! height = Some block ∧ txn ∈ txns block)
  ∧ (∀ txin height,
       (txin, height) ∈ txin_iterator chain
       ↔ ∃ block txn, chain !! height = Some block ∧ txn ∈ txns block
                      ∧ txin ∈ txins txn).
Proof.
  assert (∀ txn block height,
            (txn, block, height) ∈ txn_iterator chain
            ↔ chain !! height = Some block ∧ txn ∈ txns block) as Htxn.
  { intros txn block height. unfold txn_iterator.
    rewrite list_elem_of_In, in_concat. setoid_rewrite in_map_iff.
    split.
    - intros (l & ([i b] & <- & Hp) & Hin). cbn in Hin.
      apply in_map_iff in Hin as (t & [= -> -> ->] & Ht).
      apply list_elem_of_In, elem_of_enumerate in Hp as [_ Hp].
      rewrite Nat.sub_0_r in Hp. split; [done|]. by apply list_elem_of_In.
    - intros [Hb Ht]. eexists. split.
      + exists (height, block). split; [done|].
        apply list_elem_of_In, elem_of_enumerate.
        split; [lia|]. by rewrite Nat.sub_0_r.
      + cbn. apply in_map_iff. exists txn. split; [done|].
        by apply list_elem_of_In. }
  split; [done|].
  intros txin height. unfold txin_iterator.
  rewrite list_elem_of_In, in_concat. setoid_rewrite in_map_iff.
  split.
  - intros (l & ([[txn block] h] & <- & Hp) & Hin). cbn in Hin.
    apply in_map_iff in Hin as (t & [= -> ->] & Ht).
    apply list_elem_of_In, Htxn in Hp as [Hb Htx].
    exists block, txn. split; [done|]. split; [done|].
    by apply list_elem_of_In.
  - intros (block & txn & Hb & Htx & Hin). eexists. split.
    + exists (txn, block, height). split; [done|].
      apply list_elem_of_In, Htxn. done.
    + cbn. apply in_map_iff. exists txin. split; [done|].
      by apply list_elem_of_In.
Qed.

(** X19.  [find_with_txin_in_mempool] returns the first transaction of
    the mempool, in insertion order, that has the input among its
    inputs, and [None] exactly when no transaction of the mempool has
    it. *)
Theorem find_with_txin_in_mempool_first (txin : TxIn) (s : State) :
  match find_with_txin_in_mempool txin s with
  | Some txn =>
      ∃ i id, mempool s !! i = Some (id, txn) ∧ txin ∈ txins txn
              ∧ ∀ j kv, (j < i)%nat → mempool s !! j = Some kv →
                        txin ∉ txins kv.2
  | None => ∀ kv, kv ∈ mempool s → txin ∉ txins kv.2
  end.
Proof.
  unfold find_with_txin_in_mempool.
  destruct (list_find _ (mempool s)) as [[i [id txn]]|] eqn:Hf; cbn.
  - apply list_find_Some in Hf as (Hi & Hin & Hfirst).
    exists i, id. split; [done|]. split; [done|].
    intros j kv Hj Hkv. by eapply Hfirst.
  - apply list_find_None in Hf. intros kv Hkv.
    by eapply Forall_forall in Hf.
Qed.

End iterators.

(** ** Mining *)

Section mining.
Context `{Env}.

Lemma int16_header (b : Block) (n : Z) :
  int16 (sha256d (header b (Some n))) = Ok (header_hash_int b n).
Proof. apply int16_hexdigest. Qed.

Lemma mine_loop_finds (is_set : Z → bool) (b : Block) (target : Z)
    (k fuel : nat) (nonce : Z) :
  (∀ m, nonce <= m < nonce + Z.of_nat k → target <= header_hash_int b m) →
  (∀ m, nonce < m <= nonce + Z.of_nat k → m mod 10000 = 0 →
        is_set m = false) →
  header_hash_int b (nonce + Z.of_nat k) < target →
  (k < fuel)%nat →
  mine_loop fuel is_set b target nonce
  = Some (Ok (Some (nonce + Z.of_nat k))).
Proof.
  revert fuel nonce.
  induction k as [|k IH]; intros fuel nonce Hfail Hpoll Hhit Hfuel;
    (destruct fuel as [|fuel]; [lia|]); cbn [mine_loop];
    rewrite int16_header.
  - rewrite Z.add_0_r in *.
    destruct (Z.geb_spec (header_hash_int b nonce) target); [lia|done].
  - destruct (Z.geb_spec (header_hash_int b nonce) target) as [_|Hlt].
    2:{ specialize (Hfail nonce). lia. }
    assert (((nonce + 1) mod 10000 =? 0) && is_set (nonce + 1) = false)
      as ->.
    { destruct (Z.eqb_spec ((nonce + 1) mod 10000) 0) as [Hz|]; [|done].
      cbn. apply Hpoll; [lia|done]. }
    replace (nonce + Z.of_nat (S k)) with (nonce + 1 + Z.of_nat k) in * by lia.
    apply IH; [| |done|lia].
    + intros m Hm. apply Hfail. lia.
    + intros m Hm. apply Hpoll. lia.
Qed.

Lemma mine_loop_found (is_set : Z → bool) (b : Block) (target : Z)
    (fuel : nat) (nonce n : Z) :
  mine_loop fuel is_set b target nonce = Some (Ok (Some n)) →
  nonce <= n
  ∧ header_hash_int b n < target
  ∧ ∀ m, nonce <= m < n → target <= header_hash_int b m.
Proof.
  revert nonce. induction fuel as [|fuel IH]; intros nonce; cbn [mine_loop];
    [done|].
  rewrite int16_header.
  destruct (Z.geb_spec (header_hash_int b nonce) target) as [Hge|Hlt].
  - destruct (_ && _); [done|].
    intros (Hle & Hhit & Hfail)%IH. split; [lia|]. split; [done|].
    intros m Hm. destruct (decide (m = nonce)) as [->|]; [lia|].
    apply Hfail. lia.
  - intros [= <-]. split; [lia|]. split; [done|]. intros; lia.
Qed.

(** The digest [validate_block] reads off the block [mine] returns is
    the one [mine] tested, except at nonce 0 of a block whose own nonce
    is not 0: [header(0)] takes the nonce of the block ([nonce or
    self.nonce]). *)
Lemma block_hash_int_with_nonce (b : Block) (n : Z) :
  n ≠ 0 ∨ nonce b = 0 →
  block_hash_int (with_nonce b n) = header_hash_int b n.
Proof.
  intros Hn. unfold block_hash_int, header_hash_int, header. cbn.
  destruct (Z.eqb_spec n 0) as [->|]; [|done].
  destruct Hn as [Hn|Hn]; [done|by rewrite Hn].
Qed.

(** X20.  If [n] is the first nonce whose header digest is below the
    target [1 << (256 - bits)], and the interrupt flag is not found set
    at any multiple of 10000 up to [n], then [mine] returns the block
    with nonce [n] (given fuel for [n + 1] iterations), having cleared
    the flag.  That block passes the proof-of-work test of
    [validate_block] strictly, unless [n = 0] and the block came with a
    nonce other than 0. *)
Theorem mine_finds_least_nonce (fuel : nat) (is_set : Z → bool)
    (b : Block) (n : Z) (s : State) :
  bits b <= 256 →
  0 <= n →
  (∀ m, 0 <= m < n → 2 ^ (256 - bits b) <= header_hash_int b m) →
  header_hash_int b n < 2 ^ (256 - bits b) →
  (∀ m, 0 < m <= n → m mod 10000 = 0 → is_set m = false) →
  (Z.to_nat n < fuel)%nat →
  mine fuel is_set b s
  = Some (Ok (Some (with_nonce b n)), set_mine_interrupt false s)
  ∧ (n ≠ 0 ∨ nonce b = 0 →
     block_hash_int (with_nonce b n) < 2 ^ (256 - bits (with_nonce b n))).
Proof.
  intros Hbits Hn Hfail Hhit Hpoll Hfuel. split.
  - unfold mine. rewrite lshift_256 by done.
    rewrite (mine_loop_finds is_set b _ (Z.to_nat n) fuel 0);
      rewrite ?Z2Nat.id by done; try done.
  - intros Hq. by rewrite block_hash_int_with_nonce.
Qed.

(** What a returned block tells about the search; the shift of the
    target has not raised, so [bits] is at most 256. *)
Lemma mine_returned (fuel : nat) (is_set : Z → bool)
    (b b' : Block) (s s' : State) :
  mine fuel is_set b s = Some (Ok (Some b'), s') →
  bits b <= 256
  ∧ ∃ n, b' = with_nonce b n
         ∧ 0 <= n
         ∧ header_hash_int b n < 2 ^ (256 - bits b)
         ∧ (∀ m, 0 <= m < n → 2 ^ (256 - bits b) <= header_hash_int b m)
         ∧ s' = set_mine_interrupt false s.
Proof.
  unfold mine, lshift.
  destruct (Z.ltb_spec (256 - bits b) 0); [discriminate|].
  rewrite Z.shiftl_1_l.
  destruct (mine_loop _ _ _ _ _) as [[[n|]|e]|] eqn:Hloop; try discriminate.
  intros [= <- <-]. apply mine_loop_found in Hloop as (Hn & Hhit & Hfail).
  split; [lia|]. by exists n.
Qed.

(** X21.  Whatever the fuel, a block that [mine] returns is the block it
    was given with a nonce [n >= 0] whose header digest is below the
    target, every smaller nonce having a digest at or above it. *)
Theorem mine_returns_least_nonce (fuel : nat) (is_set : Z → bool)
    (b b' : Block) (s s' : State) :
  mine fuel is_set b s = Some (Ok (Some b'), s') →
  ∃ n, b' = with_nonce b n
       ∧ 0 <= n
       ∧ header_hash_int b n < 2 ^ (256 - bits b)
       ∧ (∀ m, 0 <= m < n → 2 ^ (256 - bits b) <= header_hash_int b m)
       ∧ s' = set_mine_interrupt false s.
Proof. intros Hmine. by apply mine_returned in Hmine as [_ Hn]. Qed.

End mining.

(** ** [disconnect_block] *)

Section disconnect.
Context `{Env}.

Lemma dict_get_dict_set {V} (k : string) (v : V) (d : list (string * V)) :
  dict_get k (dict_set k v d) = Some v.
Proof.
  induction d as [|[k' v'] d IH]; simpl.
  - by rewrite decide_True.
  - destruct (decide (k = k')) as [->|Hne]; simpl.
    + by rewrite decide_True.
    + by rewrite decide_False.
Qed.

Lemma dict_get_dict_set_ne {V} (k k' : string) (v : V)
    (d : list (string * V)) :
  k ≠ k' → dict_get k (dict_set k' v d) = dict_get k d.
Proof.
  intros Hne. induction d as [|[k0 v0] d IH]; simpl.
  - by rewrite decide_False.
  - destruct (decide (k' = k0)) as [->|Hne0]; simpl.
    + by rewrite !decide_False.
    + destruct (decide (k = k0)); [done|]. apply IH.
Qed.

Lemma for_each_invariant {A} (P : State → Prop) (f : A → Py unit)
    (l : list A) :
  (∀ x s, P s → P (f x s).2) → ∀ s, P s → P (for_each f l s).2.
Proof.
  intros Hf. induction l as [|x l IH]; intros s Hs; simpl; [done|].
  unfold mbind, Py_bind. pose proof (Hf x s Hs) as Hx.
  destruct (f x s) as [[[]|e] s1]; simpl in *; [|done].
  by apply IH.
Qed.

(** The body of the loop never completes: after the inputs it asks for
    [range(tx.txouts)]. *)
Lemma disconnect_txn_raises (chain : list Block) (tx : Transaction)
    (s : State) :
  ∃ e s1, disconnect_txn chain tx s = (Raise e, s1)
          ∧ same_chains s s1
          ∧ dict_get (Transaction_id tx) (mempool s1) = Some tx.
Proof.
  unfold disconnect_txn. unfold mbind at 1 2, Py_bind, modify.
  set (s0 := set_mempool _ s).
  set (inputs := for_each _ (txins tx)).
  assert (same_chains s (inputs s0).2
          ∧ mempool (inputs s0).2 = mempool s0) as [Hsame Hmp].
  { subst inputs.
    apply (for_each_invariant
             (λ s1, same_chains s s1 ∧ mempool s1 = mempool s0)).
    - intros txin s1 [Hs1 Hm1]. unfold mbind, Py_bind, lift.
      destruct (_find_txout_for_txin txin chain)
        as [[[[[[txout tx'] idx] cb] height]|]|e]; cbn; done.
    - split; [apply same_chains_set_mempool|done]. }
  assert (dict_get (Transaction_id tx) (mempool s0) = Some tx) as Hget.
  { subst s0. cbn. apply dict_get_dict_set. }
  destruct (inputs s0) as [[[]|e] s1]; cbn in *.
  - exists TypeError, s1. by rewrite Hmp.
  - exists e, s1. by rewrite Hmp.
Qed.

(** X22.  [disconnect_block] never takes a block that has transactions
    off the chain.  For such a block the call ends in an exception or a
    failed assertion, and the active chain, the list [find_block]
    searches by default and the side branches are as before.  When the
    block is the tip, the call has put the first transaction of the
    block into the mempool before it raises. *)
Theorem disconnect_block_keeps_block_with_txns (block : Block)
    (s : State) :
  txns block ≠ [] →
  (disconnect_block block s).1 ≠ Passed (Ok tt)
  ∧ active_chain (disconnect_block block s).2 = active_chain s
  ∧ stale_default_chain (disconnect_block block s).2
    = stale_default_chain s
  ∧ side_branches (disconnect_block block s).2 = side_branches s
  ∧ (last (default_chain s) = Some block →
     (∃ e, (disconnect_block block s).1 = Passed (Raise e))
     ∧ ∀ tx rest, txns block = tx :: rest →
         dict_get (Transaction_id tx) (mempool (disconnect_block block s).2)
         = Some tx).
Proof.
  intros Hne. unfold disconnect_block.
  destruct (last (default_chain s)) as [tip|] eqn:Hlast; cbn.
  2:{ split; [done|]. split; [done|]. split; [done|]. split; [done|].
      intros [=]. }
  case_bool_decide as Htip; cbn.
  2:{ split; [done|]. split; [done|]. split; [done|]. split; [done|].
      intros [= <-]. done. }
  destruct (txns block) as [|tx rest] eqn:Htx; [done|].
  cbn [for_each]. unfold mbind, Py_bind.
  destruct (disconnect_txn_raises (default_chain s) tx s)
    as (e & s1 & -> & (Ha & Hd & Hsb & _) & Hmp).
  cbn. split; [done|]. split; [done|]. split; [done|]. split; [done|].
  intros _. split; [by exists e|]. by intros tx' rest' [= <- <-].
Qed.

End disconnect.

(** ** A [try_reorg] that succeeds *)

Section reorg_success.
Context `{Env}.

Lemma reorg_connect_true (fork_idx : nat) (old branch : list Block)
    (s s' : State) :
  reorg_connect fork_idx old branch s = (Ok true, s') →
  s' = set_active_chain (λ ac, ac ++ branch) s.
Proof.
  revert s. induction branch as [|block rest IH]; intros s; simpl.
  - unfold mret, Py_ret. intros [= <-].
    destruct s; unfold set_active_chain; simpl. by rewrite app_nil_r.
  - unfold mbind, Py_bind, try_except, reading, mret, Py_ret, modify.
    destruct (validate_block block s) as [r|e].
    + intros Hrest. apply IH in Hrest. rewrite Hrest.
      destruct s; unfold set_active_chain; simpl. by rewrite <- app_assoc.
    + destruct e; discriminate.
Qed.

Lemma pop_all_mempool (rm : list string) (s s' : State) :
  for_each mempool_pop_strict rm s = (Ok tt, s') →
  ∃ mp, s' = set_mempool (λ _, mp) s.
Proof.
  revert s. induction rm as [|k rm IH]; intros s; simpl.
  - unfold mret, Py_ret. intros [= <-]. exists (mempool s). by destruct s.
  - unfold mbind, Py_bind. unfold mempool_pop_strict at 1.
    destruct (dict_get k (mempool s)); [|discriminate].
    intros (mp & ->)%IH. exists mp. by destruct s.
Qed.

Lemma add_all_mempool (add : list (string * Transaction)) (s : State) :
  for_each (λ kv : string * Transaction,
              modify (set_mempool (dict_set kv.1 kv.2))) add s
  = (Ok tt,
     set_mempool (λ mp, foldl (λ mp (kv : string * Transaction),
                                 dict_set kv.1 kv.2 mp) mp add) s).
Proof.
  revert s. induction add as [|kv add IH]; intros s; simpl.
  - by destruct s.
  - unfold mbind, Py_bind, modify. rewrite IH. by destruct s.
Qed.

Lemma foldl_dict_set_keeps {V} (k : string) (l : list (string * V))
    (d : list (string * V)) :
  is_Some (dict_get k d) →
  is_Some (dict_get k (foldl (λ d (kv : string * V),
                                dict_set kv.1 kv.2 d) d l)).
Proof.
  revert d. induction l as [|[k' v'] l IH]; intros d Hd; simpl; [done|].
  apply IH. destruct (decide (k = k')) as [->|Hne].
  - by rewrite dict_get_dict_set.
  - by rewrite dict_get_dict_set_ne.
Qed.

Lemma foldl_dict_set_adds {V} (k : string) (v : V)
    (l : list (string * V)) (d : list (string * V)) :
  (k, v) ∈ l →
  is_Some (dict_get k (foldl (λ d (kv : string * V),
                                dict_set kv.1 kv.2 d) d l)).
Proof.
  revert d. induction l as [|[k' v'] l IH]; intros d Hin; simpl.
  - by apply elem_of_nil in Hin.
  - apply elem_of_cons in Hin as [[= <- <-]|Hin]; [|by apply IH].
    apply foldl_dict_set_keeps. by rewrite dict_get_dict_set.
Qed.

Lemma dict_get_elem_of {V} (k : string) (v : V) (d : list (string * V)) :
  dict_get k d = Some v → (k, v) ∈ d.
Proof.
  induction d as [|[k' v'] d IH]; simpl; [done|].
  destruct (decide (k = k')) as [->|Hne].
  - intros [= ->]. by left.
  - intros Hd. right. by apply IH.
Qed.

Lemma comprehension_has_id (l : list Transaction) (txn : Transaction)
    (d : list (string * Transaction)) :
  txn ∈ l →
  is_Some (dict_get (Transaction_id txn)
             (foldl (λ d txn, dict_set (Transaction_id txn) txn d) d l)).
Proof.
  revert d. induction l as [|t l IH]; intros d Hin; simpl.
  - by apply elem_of_nil in Hin.
  - apply elem_of_cons in Hin as [->|Hin]; [|by apply IH].
    assert (∀ d', is_Some (dict_get (Transaction_id t) d') →
                  is_Some (dict_get (Transaction_id t)
                             (foldl (λ d txn,
                                       dict_set (Transaction_id txn) txn d)
                                    d' l))) as Hkeep.
    { clear. induction l as [|t' l IH]; intros d' Hd'; simpl; [done|].
      apply IH. destruct (decide (Transaction_id t = Transaction_id t'))
        as [Heq|Hne].
      - rewrite Heq. by rewrite dict_get_dict_set.
      - by rewrite dict_get_dict_set_ne. }
    apply Hkeep. by rewrite dict_get_dict_set.
Qed.

(** X23.  When [try_reorg] returns [True], the branch is in the active
    chain twice: the chain was rebuilt as [active_chain[:fork_idx] +
    branch] before the loop, and the loop appends every block again.
    The old tail (from [fork_idx + 1] on) has replaced the branch among
    the side branches, the list that was the active chain stays the
    default of [find_block], and every transaction of the branch is in
    the mempool. *)
Theorem try_reorg_success_appends_branch_twice (branch : list Block)
    (branch_idx fork_idx : nat) (s s' : State) :
  try_reorg branch branch_idx fork_idx s = (Ok true, s') →
  active_chain s' = take fork_idx (active_chain s) ++ branch ++ branch
  ∧ side_branches s'
    = delete branch_idx (side_branches s)
      ++ [drop (S fork_idx) (active_chain s)]
  ∧ stale_default_chain s' = Some (default_chain s)
  ∧ utxo_set s' = utxo_set s
  ∧ ∀ block txn, block ∈ branch → txn ∈ txns block →
      is_Some (dict_get (Transaction_id txn) (mempool s')).
Proof.
  intros Hrun. unfold try_reorg in Hrun.
  unfold mbind at 1, Py_bind at 1 in Hrun.
  match type of Hrun with
  | context [reorg_connect ?fi ?old ?br ?st] =>
      destruct (reorg_connect fi old br st) as [[[|]|e] s1] eqn:Hloop
  end; [|discriminate..].
  apply reorg_connect_true in Hloop. subst s1.
  revert Hrun. unfold mbind at 1, Py_bind at 1.
  case_bool_decide as Hidx; [|discriminate].
  unfold mbind at 1, Py_bind at 1.
  match goal with
  | |- context [for_each mempool_pop_strict ?rm ?st] =>
      destruct (for_each mempool_pop_strict rm st) as [[[]|e] s2] eqn:Hpop
  end; [|discriminate].
  apply pop_all_mempool in Hpop as [mp ->].
  unfold mbind, Py_bind. rewrite add_all_mempool.
  destruct (last _); [|discriminate].
  unfold mret, Py_ret. intros [= <-].
  cbn [active_chain side_branches stale_default_chain utxo_set mempool
       set_mempool set_side_branches set_active_chain
       set_stale_default_chain].
  split; [by rewrite <- app_assoc|]. split; [done|]. split; [done|].
  split; [done|].
  intros block txn Hblock Htxn.
  assert (txn ∈ concat (map txns branch)) as Hin.
  { apply list_elem_of_In, in_concat. exists (txns block).
    split; [|by apply list_elem_of_In].
    apply in_map_iff. exists block. split; [done|].
    by apply list_elem_of_In. }
  pose proof (comprehension_has_id _ txn [] Hin) as [t Ht].
  apply dict_get_elem_of in Ht.
  by eapply foldl_dict_set_adds.
Qed.

End reorg_success.

(** ** The further statements at concrete nodes *)

Lemma get_next_work_required_never_retargets_witness :
  get_next_work_required (H := Scenario.env)
    (Some (Block_id (H := Scenario.env) Scenario.G)) Scenario.after_G
  = Ok 22
  ∧ ((22 = Params.INITIAL_DIFFICULTY_BITS
      ∧ (Some (Block_id (H := Scenario.env) Scenario.G) = None
         ∨ Some (Block_id (H := Scenario.env) Scenario.G) = Some ""))
     ∨ ∃ b k idx,
         find_block (H := Scenario.env)
           (Some (Block_id (H := Scenario.env) Scenario.G)) None
           Scenario.after_G = Some (b, k, idx)
         ∧ 22 = bits b ∧ (Z.of_nat k + 1) mod 600 ≠ 0).
Proof.
  split; [vm_compute; reflexivity|].
  apply (get_next_work_required_never_retargets (H := Scenario.env)).
  vm_compute. reflexivity.
Defined.

Lemma connect_block_stops_at_period_end_witness :
  find_block (H := Scenario.env)
    (Some (Block_id (H := Scenario.env) Cases.period_tip)) None
    Cases.period_state
  = Some (Cases.period_tip, 599%nat, 0%nat)
  ∧ (connect_block (H := Scenario.env) Cases.after_period
                   Cases.period_state).1 = Raise TypeError
  ∧ active_chain (connect_block (H := Scenario.env) Cases.after_period
                                Cases.period_state).2
    = active_chain Cases.period_state.
Proof.
  split; [vm_compute; reflexivity|].
  split; [vm_compute; reflexivity|].
  destruct (connect_block_stops_at_period_end (H := Scenario.env)
              Cases.after_period Cases.period_tip
              (Block_id (H := Scenario.env) Cases.period_tip)
              599 0 Cases.period_state) as (_ & Hac & _).
  - reflexivity.
  - vm_compute. discriminate.
  - vm_compute. reflexivity.
  - reflexivity.
  - exact Hac.
Defined.

Lemma connect_block_active_chain_upkeep_witness :
  (connect_block (H := Scenario.env) Scenario.G initial_state).1
  = Ok (Some 0%nat)
  ∧ active_chain (connect_block (H := Scenario.env) Scenario.G
                                initial_state).2 = [Scenario.G]
  ∧ mine_interrupt (connect_block (H := Scenario.env) Scenario.G
                                  initial_state).2 = true
  ∧ outbox (connect_block (H := Scenario.env) Scenario.G initial_state).2
    = [("peer:9999", Scenario.G)].
Proof.
  split; [vm_compute; reflexivity|].
  destruct (connect_block_active_chain_upkeep (H := Scenario.env)
              Scenario.G initial_state
              (connect_block (H := Scenario.env) Scenario.G
                             initial_state).2)
    as (Hac & _ & _ & _ & Hmi & Hout & _).
  - apply pair_eta. vm_compute. reflexivity.
  - rewrite Hac, Hmi, Hout. split; [reflexivity|].
    split; reflexivity.
Defined.

Lemma connect_block_none_changes_nothing_witness :
  (connect_block (H := Scenario.env) Cases.stray Scenario.after_G).1
  = Ok None
  ∧ ((connect_block (H := Scenario.env) Cases.stray Scenario.after_G).2
     = Scenario.after_G
     ∨ ((connect_block (H := Scenario.env) Cases.stray Scenario.after_G).2
        = set_orphan_blocks (λ l, l ++ [Cases.stray]) Scenario.after_G
        ∧ (prev_block_hash Cases.stray = None
           ∨ prev_block_hash Cases.stray = Some "")
        ∧ active_chain Scenario.after_G ≠ [])).
Proof.
  split; [vm_compute; reflexivity|].
  apply (connect_block_none_changes_nothing (H := Scenario.env)).
  apply pair_eta. vm_compute. reflexivity.
Defined.

Lemma connect_block_fork_without_side_branch_witness :
  side_branches Scenario.after_A1 = []
  ∧ validate_block (H := Scenario.env) Scenario.B1 Scenario.after_A1
    = Ok (Scenario.B1, 1%nat)
  ∧ connect_block (H := Scenario.env) Scenario.B1 Scenario.after_A1
    = (Raise IndexError, Scenario.after_A1)
  ∧ validate_block (H := Scenario.env) Scenario.A1 Scenario.after_A1
    = Ok (Scenario.A1, 1%nat)
  ∧ connect_block (H := Scenario.env) Scenario.A1 Scenario.after_A1
    = (Ok None, Scenario.after_A1).
Proof.
  split; [vm_compute; reflexivity|].
  split; [vm_compute; reflexivity|].
  split.
  - destruct (connect_block_fork_without_side_branch (H := Scenario.env)
                Scenario.B1 Scenario.B1 Scenario.G 1 0 Scenario.after_A1)
      as [_ Hc].
    + vm_compute. reflexivity.
    + vm_compute. reflexivity.
    + vm_compute. reflexivity.
    + vm_compute. discriminate.
    + rewrite Hc. reflexivity.
  - split; [vm_compute; reflexivity|].
    destruct (connect_block_fork_without_side_branch (H := Scenario.env)
                Scenario.A1 Scenario.A1 Scenario.G 1 0 Scenario.after_A1)
      as [_ Hc].
    + vm_compute. reflexivity.
    + vm_compute. reflexivity.
    + vm_compute. reflexivity.
    + vm_compute. discriminate.
    + rewrite Hc. reflexivity.
Defined.

Lemma validate_txn_accepts_spendable_inputs_witness :
  validate_txn (H := Scenario.env) Cases.spend_C0 false true Cases.after_C2
  = Ok Cases.spend_C0
  ∧ ∃ utxos,
      Forall2 (spendable (H := Scenario.env) Cases.spend_C0 Cases.after_C2)
              (txins Cases.spend_C0) utxos
      ∧ sum_values (txouts Cases.spend_C0)
        <= sum_Z (map utxo_value utxos).
Proof.
  split; [vm_compute; reflexivity|].
  destruct (validate_txn_accepts_spendable_inputs (H := Scenario.env)
              Cases.spend_C0 Cases.spend_C0 false true Cases.after_C2)
    as (_ & _ & _ & Hins).
  - vm_compute. reflexivity.
  - exact Hins.
Defined.

Lemma select_from_mempool_dangling_input_witness :
  dangling Cases.dangling_state Cases.unknown_input
  ∧ ∀ b', select_from_mempool (H := Scenario.env) Scenario.template
                              Cases.dangling_state ≠ Ok (Some b').
Proof.
  assert (dangling Cases.dangling_state Cases.unknown_input) as Hd.
  { exists (mkOutPoint "nowhere" 0).
    split; [reflexivity|]. split; vm_compute; reflexivity. }
  split; [exact Hd|].
  apply (select_from_mempool_dangling_input (H := Scenario.env)
           Scenario.template
           (Transaction_id (H := Scenario.env) Cases.spend_unknown)
           Cases.spend_unknown [] [] [] Cases.unknown_input
           Cases.dangling_state).
  - reflexivity.
  - reflexivity.
  - constructor.
  - exact Hd.
  - vm_compute. reflexivity.
Defined.

Lemma get_merkle_root_repeats_last_leaf_witness :
  get_merkle_root (H := Scenario.env) ["a"; "b"; "c"; "c"]
  = get_merkle_root (H := Scenario.env) ["a"; "b"; "c"].
Proof.
  apply (get_merkle_root_repeats_last_leaf (H := Scenario.env)
           ["a"; "b"; "c"] "c"); reflexivity.
Defined.

Lemma get_block_subsidy_halves_witness :
  Z.of_nat (length (active_chain Cases.halving_state)) = 210000
  ∧ get_block_subsidy Cases.halving_state
    = get_block_subsidy initial_state / 2.
Proof.
  assert (Z.of_nat (length (active_chain Cases.halving_state)) = 210000)
    as Hlen.
  { unfold Cases.halving_state. cbn [active_chain set_active_chain].
    rewrite length_replicate. reflexivity. }
  split; [exact Hlen|].
  apply get_block_subsidy_halves. rewrite Hlen. reflexivity.
Defined.

Lemma mine_finds_least_nonce_witness :
  (∀ m, 0 <= m < 3 →
        2 ^ (256 - bits Cases.unmined)
        <= header_hash_int (H := Cases.mining_env) Cases.unmined m)
  ∧ header_hash_int (H := Cases.mining_env) Cases.unmined 3
    < 2 ^ (256 - bits Cases.unmined)
  ∧ mine (H := Cases.mining_env) 10 (λ _, false) Cases.unmined
         initial_state
    = Some (Ok (Some (with_nonce Cases.unmined 3)),
            set_mine_interrupt false initial_state)
  ∧ block_hash_int (H := Cases.mining_env) (with_nonce Cases.unmined 3)
    < 2 ^ (256 - bits (with_nonce Cases.unmined 3)).
Proof.
  assert (∀ m, 0 <= m < 3 →
               2 ^ (256 - bits Cases.unmined)
               <= header_hash_int (H := Cases.mining_env) Cases.unmined m)
    as Hfail.
  { intros m Hm.
    assert (m = 0 ∨ m = 1 ∨ m = 2) as [Hm0 | [Hm0 | Hm0]] by lia;
      rewrite Hm0; vm_compute; discriminate. }
  assert (header_hash_int (H := Cases.mining_env) Cases.unmined 3
          < 2 ^ (256 - bits Cases.unmined)) as Hhit
    by (vm_compute; reflexivity).
  split; [exact Hfail|]. split; [exact Hhit|].
  destruct (mine_finds_least_nonce (H := Cases.mining_env) 10 (λ _, false)
              Cases.unmined 3 initial_state) as [Hmine Hpow].
  - vm_compute. discriminate.
  - lia.
  - exact Hfail.
  - exact Hhit.
  - reflexivity.
  - vm_compute. lia.
  - split; [exact Hmine|]. apply Hpow. left. discriminate.
Defined.

Lemma mine_returns_least_nonce_witness :
  mine (H := Cases.mining_env) 10 (λ _, false) Cases.unmined initial_state
  = Some (Ok (Some (with_nonce Cases.unmined 3)),
          set_mine_interrupt false initial_state)
  ∧ ∃ n, with_nonce Cases.unmined 3 = with_nonce Cases.unmined n
         ∧ 0 <= n
         ∧ header_hash_int (H := Cases.mining_env) Cases.unmined n
           < 2 ^ (256 - bits Cases.unmined)
         ∧ (∀ m, 0 <= m < n →
                 2 ^ (256 - bits Cases.unmined)
                 <= header_hash_int (H := Cases.mining_env)
                      Cases.unmined m)
         ∧ set_mine_interrupt false initial_state
           = set_mine_interrupt false initial_state.
Proof.
  split; [vm_compute; reflexivity|].
  apply (mine_returns_least_nonce (H := Cases.mining_env) 10 (λ _, false)).
  vm_compute. reflexivity.
Defined.

Lemma disconnect_block_keeps_block_with_txns_witness :
  txns Scenario.G ≠ []
  ∧ (disconnect_block (H := Scenario.env) Scenario.G Scenario.after_G).1
    = Passed (Raise TypeError)
  ∧ active_chain
      (disconnect_block (H := Scenario.env) Scenario.G Scenario.after_G).2
    = active_chain Scenario.after_G.
Proof.
  split; [vm_compute; discriminate|].
  split; [vm_compute; reflexivity|].
  destruct (disconnect_block_keeps_block_with_txns (H := Scenario.env)
              Scenario.G Scenario.after_G) as (_ & Hac & _).
  - vm_compute. discriminate.
  - exact Hac.
Defined.

Lemma try_reorg_success_appends_branch_twice_witness :
  (try_reorg (H := Scenario.env) [Scenario.B1] 0 1 Cases.fork_state).1
  = Ok true
  ∧ active_chain Cases.fork_state = [Scenario.G; Scenario.A1]
  ∧ active_chain (try_reorg (H := Scenario.env) [Scenario.B1] 0 1
                            Cases.fork_state).2
    = [Scenario.G; Scenario.B1; Scenario.B1].
Proof.
  split; [vm_compute; reflexivity|].
  split; [vm_compute; reflexivity|].
  destruct (try_reorg_success_appends_branch_twice (H := Scenario.env)
              [Scenario.B1] 0 1 Cases.fork_state
              (try_reorg (H := Scenario.env) [Scenario.B1] 0 1
                         Cases.fork_state).2) as (Hac & _).
  - apply pair_eta. vm_compute. reflexivity.
  - rewrite Hac. vm_compute. reflexivity.
Defined.

(** ** [json.loads] after [json.dumps] *)

Lemma append_assoc (a b c : string) : (a +:+ b) +:+ c = a +:+ (b +:+ c).
Proof.
  induction a as [|x a IH]; [done|].
  change (String x ((a +:+ b) +:+ c) = String x (a +:+ (b +:+ c))).
  by rewrite IH.
Qed.

Lemma append_nil_r (a : string) : a +:+ "" = a.
Proof.
  induction a as [|x a IH]; [done|].
  change (String x (a +:+ "") = String x a). by rewrite IH.
Qed.

Lemma append_cons (c : ascii) (a b : string) :
  String c a +:+ b = String c (a +:+ b).
Proof. reflexivity. Qed.

Lemma append_nil_l (b : string) : "" +:+ b = b.
Proof. reflexivity. Qed.

(** *** Strings *)

(** Reading back one escaped character. *)
Lemma parse_string_body_escape_char (c : ascii) (tail : string) :
  parse_string_body (json_escape_char c +:+ tail)
  = '(r, rest) ← parse_string_body tail; Ok (String c r, rest).
Proof.
  destruct c as [[] [] [] [] [] [] [] []]; reflexivity.
Qed.

Lemma parse_string_body_escape (s rest : string) :
  parse_string_body (json_escape s +:+ String dquote rest) = Ok (s, rest).
Proof.
  induction s as [|c s IH]; [reflexivity|].
  cbn [json_escape]. rewrite append_assoc, parse_string_body_escape_char.
  by rewrite IH.
Qed.

(** *** Integers *)

Lemma pretty_N_char_digit (r : N) :
  (r < 10)%N →
  N_of_ascii (pretty_N_char r) = (48 + r)%N.
Proof.
  intros Hr.
  assert (r = 0 ∨ r = 1 ∨ r = 2 ∨ r = 3 ∨ r = 4 ∨ r = 5 ∨ r = 6 ∨ r = 7
          ∨ r = 8 ∨ r = 9)%N as Hcases by lia.
  repeat (destruct Hcases as [->|Hcases]; [reflexivity|]).
  by subst r.
Qed.

Lemma parse_digits_digit (acc : Z) (c : ascii) (s : string) :
  (48 <= N_of_ascii c <= 57)%N →
  parse_digits acc (String c s)
  = parse_digits (10 * acc + Z.of_N (N_of_ascii c - 48)) s.
Proof.
  intros Hc. cbn [parse_digits]. unfold is_digit.
  destruct (N.leb_spec 48 (N_of_ascii c)); [|lia].
  destruct (N.leb_spec (N_of_ascii c) 57); [|lia].
  done.
Qed.

(** The digits of a positive number: a first digit that is not 0, the
    other digits, and what [parse_digits] makes of them. *)
Lemma pretty_N_go_digits (x : N) :
  (0 < x)%N →
  ∃ c tl m,
    (∀ t, pretty_N_go x t = String c (tl +:+ t))
    ∧ (49 <= N_of_ascii c <= 57)%N
    ∧ ∀ acc t, parse_digits acc (String c (tl +:+ t))
               = parse_digits (acc * m + Z.of_N x) t.
Proof.
  induction (N.lt_wf_0 x) as [x _ IH]. intros Hx.
  assert (∃ q r, x = (10 * q + r)%N ∧ (r < 10)%N
                 ∧ ∀ t, pretty_N_go x t
                        = pretty_N_go q (String (pretty_N_char r) t))
    as (q & r & Hdm & Hr & Hstep).
  { exists (x `div` 10)%N, (x `mod` 10)%N.
    split; [apply N.div_mod; lia|].
    split; [apply N.mod_upper_bound; lia|].
    intros t. by apply pretty_N_go_step. }
  pose proof (pretty_N_char_digit r Hr) as Hchar.
  destruct (decide (q = 0)%N) as [Hq|Hq].
  - exists (pretty_N_char r), "", 10.
    split; [|split].
    + intros t. by rewrite Hstep, Hq, pretty_N_go_0.
    + rewrite Hchar. lia.
    + intros acc t. rewrite append_nil_l.
      rewrite parse_digits_digit by (rewrite Hchar; lia).
      rewrite Hchar. f_equal. lia.
  - destruct (IH q) as (c & tl & m & Hgo & Hc & Hparse); [lia..|].
    exists c, (tl +:+ String (pretty_N_char r) ""), (m * 10).
    split; [|split; [done|]].
    + intros t. rewrite Hstep, Hgo. by rewrite append_assoc.
    + intros acc t. rewrite append_assoc, append_cons, append_nil_l.
      rewrite Hparse.
      rewrite parse_digits_digit by (rewrite Hchar; lia).
      rewrite Hchar. f_equal. lia.
Qed.

Lemma closes_not_digit (rest : string) (z : Z) :
  closes rest → parse_digits z rest = (z, rest).
Proof.
  intros [-> | (c & tl & -> & [-> | [-> | ->]])]; reflexivity.
Qed.

Lemma closes_ends_number (rest : string) (z : Z) :
  closes rest →
  match rest with
  | String d _ =>
      let n := N_of_ascii d in
      if ((n =? 46) || (n =? 101) || (n =? 69))%N
      then Raise Unmodelled
      else Ok (JInt z, rest)
  | EmptyString => Ok (JInt z, rest)
  end = Ok (JInt z, rest).
Proof.
  intros [-> | (c & tl & -> & [-> | [-> | ->]])]; reflexivity.
Qed.

Lemma parse_number_positive (neg : bool) (p : positive) (rest : string) :
  closes rest →
  parse_number neg (pretty (Npos p) +:+ rest)
  = Ok (JInt (if neg then Z.neg p else Z.pos p), rest).
Proof.
  intros Hrest.
  destruct (pretty_N_go_digits (Npos p) ltac:(lia))
    as (c & tl & m & Hgo & Hc & Hparse).
  change (pretty (Npos p)) with (pretty_N_go (Npos p) "").
  rewrite Hgo, append_nil_r, append_cons.
  unfold parse_number, is_digit.
  destruct (N.leb_spec 48 (N_of_ascii c)); [|lia].
  destruct (N.leb_spec (N_of_ascii c) 57); [|lia].
  cbn [andb].
  destruct (N.eqb_spec (N_of_ascii c) 48); [lia|].
  rewrite Hparse, closes_not_digit by done.
  rewrite Z.mul_0_l, Z.add_0_l.
  rewrite closes_ends_number by done.
  by destruct neg.
Qed.

(** Settles the tests the parser makes on the code of a character [c]
    that is known to lie in a range. *)
Ltac decide_char c :=
  repeat first
    [ progress cbn [orb andb]
    | match goal with
      | |- context [(N_of_ascii c =? ?k)%N] =>
          destruct (N.eqb_spec (N_of_ascii c) k); [lia|]
      | |- context [(?k <=? N_of_ascii c)%N] =>
          destruct (N.leb_spec k (N_of_ascii c)); [|lia]
      | |- context [(N_of_ascii c <=? ?k)%N] =>
          destruct (N.leb_spec (N_of_ascii c) k); [|lia]
      end ].

(** The first character of a number tells [parse_value] what it is. *)
Lemma parse_value_int (fuel : nat) (z : Z) (rest : string) :
  closes rest →
  parse_value (S fuel) (pretty z +:+ rest) = Ok (JInt z, rest).
Proof.
  intros Hrest. destruct z as [|p|p].
  - change (pretty 0) with "0". rewrite append_cons, append_nil_l.
    destruct Hrest as [-> | (c & tl & -> & [-> | [-> | ->]])]; reflexivity.
  - change (pretty (Z.pos p)) with (pretty (Npos p)).
    pose proof (parse_number_positive false p rest Hrest) as Hnum.
    destruct (pretty_N_go_digits (Npos p) ltac:(lia))
      as (c & tl & m & Hgo & Hc & _).
    change (pretty (Npos p)) with (pretty_N_go (Npos p) "") in *.
    rewrite Hgo, append_nil_r, append_cons in *.
    cbn [parse_value skip_ws]. unfold is_ws, is_digit.
    decide_char c. exact Hnum.
  - change (pretty (Z.neg p)) with ("-" +:+ pretty (Npos p)).
    pose proof (parse_number_positive true p rest Hrest) as Hnum.
    destruct (pretty_N_go_digits (Npos p) ltac:(lia))
      as (c & tl & m & Hgo & Hc & _).
    change (pretty (Npos p)) with (pretty_N_go (Npos p) "") in *.
    rewrite Hgo, append_nil_r, append_cons in Hnum.
    rewrite Hgo, append_nil_r, !append_cons, append_nil_l, append_cons.
    change (parse_value (S fuel) (String "-" (String c (tl +:+ rest))))
      with (match expect_lit "Infinity" (String c (tl +:+ rest)) with
            | Some _ => Raise Unmodelled
            | None => parse_number true (String c (tl +:+ rest))
            end).
    cbn [expect_lit].
    destruct (decide ("I"%char = c)) as [<-|_]; [cbn in Hc; lia|].
    exact Hnum.
Qed.

(** *** Arrays and objects *)

Ltac norm_append :=
  repeat first [rewrite append_assoc | rewrite append_cons
               | rewrite append_nil_l].

Lemma skip_ws_not_ws (c : ascii) (s : string) :
  is_ws c = false → skip_ws (String c s) = String c s.
Proof. intros Hc. cbn [skip_ws]. by rewrite Hc. Qed.

Lemma parse_value_str (fuel : nat) (s rest : string) :
  parse_value (S fuel) (json_quote s +:+ rest) = Ok (JStr s, rest).
Proof.
  unfold json_quote. norm_append.
  change (parse_value (S fuel) (String dquote ?x))
    with ('(str, r) ← parse_string_body x; Ok (JStr str, r)).
  by rewrite parse_string_body_escape.
Qed.

Lemma parse_value_bracket (fuel : nat) (s : string) :
  parse_value (S fuel) (String "[" s)
  = match skip_ws s with
    | String c' rest =>
        if (N_of_ascii c' =? 93)%N then Ok (JArr [], rest)
        else parse_elems fuel s []
    | EmptyString => Raise ValueError
    end.
Proof. reflexivity. Qed.

Lemma parse_value_brace (fuel : nat) (s : string) :
  parse_value (S fuel) (String "{" s)
  = match skip_ws s with
    | String c' rest =>
        if (N_of_ascii c' =? 125)%N then Ok (JObj [], rest)
        else parse_members fuel s []
    | EmptyString => Raise ValueError
    end.
Proof. reflexivity. Qed.

Lemma parse_elems_comma (fuel : nat) (x R : string) (acc : list json)
    (v : json) :
  parse_value fuel x = Ok (v, String "," R) →
  parse_elems (S fuel) x acc = parse_elems fuel R (acc ++ [v]).
Proof. intros Hv. cbn [parse_elems]. rewrite Hv. reflexivity. Qed.

Lemma parse_elems_close (fuel : nat) (x R : string) (acc : list json)
    (v : json) :
  parse_value fuel x = Ok (v, String "]" R) →
  parse_elems (S fuel) x acc = Ok (JArr (acc ++ [v]), R).
Proof. intros Hv. cbn [parse_elems]. rewrite Hv. reflexivity. Qed.

Lemma parse_members_key (fuel : nat) (k R : string)
    (acc : list (string * json)) :
  parse_members (S fuel)
    (String dquote (json_escape k +:+ String dquote (String ":" R))) acc
  = '(v, rest2) ← parse_value fuel R;
    match skip_ws rest2 with
    | String c2 rest3 =>
        let n := N_of_ascii c2 in
        if (n =? 44)%N then parse_members fuel rest3 (dict_set k v acc)
        else if (n =? 125)%N then Ok (JObj (dict_set k v acc), rest3)
        else Raise ValueError
    | EmptyString => Raise ValueError
    end.
Proof.
  change (parse_members (S fuel) (String dquote ?x) acc)
    with ('(k, rest) ← parse_string_body x;
          match skip_ws rest with
          | String c rest' =>
              if (N_of_ascii c =? 58)%N then
                '(v, rest2) ← parse_value fuel rest';
                match skip_ws rest2 with
                | String c2 rest3 =>
                    let n := N_of_ascii c2 in
                    if (n =? 44)%N
                    then parse_members fuel rest3 (dict_set k v acc)
                    else if (n =? 125)%N
                    then Ok (JObj (dict_set k v acc), rest3)
                    else Raise ValueError
                | EmptyString => Raise ValueError
                end
              else Raise ValueError
          | EmptyString => Raise ValueError
          end).
  rewrite parse_string_body_escape. reflexivity.
Qed.

Lemma parse_members_comma (fuel : nat) (k R R2 : string)
    (acc : list (string * json)) (v : json) :
  parse_value fuel R = Ok (v, String "," R2) →
  parse_members (S fuel)
    (String dquote (json_escape k +:+ String dquote (String ":" R))) acc
  = parse_members fuel R2 (dict_set k v acc).
Proof. intros Hv. rewrite parse_members_key, Hv. reflexivity. Qed.

Lemma parse_members_close (fuel : nat) (k R R2 : string)
    (acc : list (string * json)) (v : json) :
  parse_value fuel R = Ok (v, String "}" R2) →
  parse_members (S fuel)
    (String dquote (json_escape k +:+ String dquote (String ":" R))) acc
  = Ok (JObj (dict_set k v acc), R2).
Proof. intros Hv. rewrite parse_members_key, Hv. reflexivity. Qed.

(** The text of a value starts with a character that is neither white
    space nor a closing bracket. *)
Lemma json_dumps_head (j : json) :
  ∃ c tl, json_dumps j = String c tl
          ∧ is_ws c = false ∧ (N_of_ascii c =? 93)%N = false.
Proof.
  destruct j as [|[]|z|s|l|d]; try (by eexists _, _).
  destruct z as [|p|p].
  - by eexists _, _.
  - destruct (pretty_N_go_digits (Npos p) ltac:(lia))
        as (c & tl & m & Hgo & Hc & _).
    exists c, tl. cbn [json_dumps].
    change (pretty (Z.pos p)) with (pretty_N_go (Npos p) "").
    rewrite Hgo, append_nil_r. split; [done|].
    unfold is_ws. by decide_char c.
  - by eexists _, _.
Qed.

Lemma sum_with_cons {A} (f : A → nat) (x : A) (l : list A) :
  sum_with f (x :: l) = (f x + sum_with f l)%nat.
Proof. reflexivity. Qed.

Lemma dict_set_fresh {V} (k : string) (v : V) (acc : list (string * V)) :
  k ∉ acc.*1 → dict_set k v acc = acc ++ [(k, v)].
Proof.
  induction acc as [|[k' v'] acc IH]; [done|].
  cbn [fmap list_fmap fst]. rewrite not_elem_of_cons. intros [Hne Hn].
  cbn [dict_set]. destruct (decide (k = k')) as [|_]; [done|].
  by rewrite IH.
Qed.

Lemma closes_comma (R : string) : closes (String "," R).
Proof. right. exists ","%char, R. split; [done|]. by left. Qed.

Lemma closes_bracket (R : string) : closes (String "]" R).
Proof. right. exists "]"%char, R. split; [done|]. right. by left. Qed.

Lemma closes_brace (R : string) : closes (String "}" R).
Proof. right. exists "}"%char, R. split; [done|]. right. by right. Qed.

Lemma parse_elems_dumps (l : list json) :
  Forall reads_back l → l ≠ [] →
  ∀ fuel acc rest,
    (sum_with (λ x, S (parse_fuel x)) l ≤ fuel)%nat →
    parse_elems fuel (join_comma (map json_dumps l) +:+ String "]" rest) acc
    = Ok (JArr (acc ++ map canonical l), rest).
Proof.
  induction 1 as [|x l Hx Hl IH]; [done|]. intros _ fuel acc rest Hfuel.
  rewrite sum_with_cons in Hfuel.
  destruct fuel as [|fuel]; [lia|].
  destruct l as [|y l].
  - cbn [map join_comma].
    rewrite (parse_elems_close _ _ rest _ (canonical x)); [done|].
    apply Hx; [lia|apply closes_bracket].
  - change (join_comma (map json_dumps (x :: y :: l)))
      with (json_dumps x +:+ "," +:+ join_comma (map json_dumps (y :: l))).
    norm_append.
    erewrite parse_elems_comma;
      [|apply Hx; [lia|apply closes_comma]].
    rewrite IH by (done || lia).
    by rewrite <- app_assoc.
Qed.

Lemma parse_members_dumps (m : list (string * json)) :
  Forall (λ kv, reads_back kv.2) m → m ≠ [] →
  ∀ fuel acc rest,
    NoDup (acc.*1 ++ m.*1) →
    (sum_with (λ kv : string * json, S (parse_fuel kv.2)) m ≤ fuel)%nat →
    parse_members fuel
      (join_comma (map (λ kv : string * json,
                          json_quote kv.1 +:+ ":" +:+ json_dumps kv.2) m)
       +:+ String "}" rest) acc
    = Ok (JObj (acc ++ map (λ kv : string * json, (kv.1, canonical kv.2)) m),
          rest).
Proof.
  induction 1 as [|[k v] m Hx Hm IH]; [done|].
  intros _ fuel acc rest Hnd Hfuel.
  rewrite sum_with_cons in Hfuel. cbn [snd] in Hx, Hfuel.
  destruct fuel as [|fuel]; [lia|].
  assert (k ∉ acc.*1) as Hfresh.
  { apply NoDup_app in Hnd as (_ & Hdisj & _). intros Hin.
    apply (Hdisj k Hin). cbn [fmap list_fmap fst]. by left. }
  destruct m as [|y m].
  - cbn [map join_comma fst snd]. unfold json_quote. norm_append.
    erewrite parse_members_close;
      [|apply Hx; [lia|apply closes_brace]].
    by rewrite dict_set_fresh.
  - set (f := λ kv : string * json,
                json_quote kv.1 +:+ ":" +:+ json_dumps kv.2).
    change (join_comma (map f ((k, v) :: y :: m)))
      with ((json_quote k +:+ ":" +:+ json_dumps v) +:+ ","
            +:+ join_comma (map f (y :: m))).
    unfold json_quote. norm_append.
    erewrite parse_members_comma;
      [|apply Hx; [lia|apply closes_comma]].
    rewrite dict_set_fresh by done.
    rewrite IH; [by rewrite <- app_assoc|done| |lia].
    rewrite fmap_app. cbn [fmap list_fmap fst]. rewrite <- app_assoc.
    exact Hnd.
Qed.

(** Sorting the members and converting their values commute. *)
Lemma insert_sorted_map (f : json → string) (kv : string * json)
    (l : list (string * json)) :
  insert_sorted (kv.1, f kv.2)
    (map (λ kv : string * json, (kv.1, f kv.2)) l)
  = map (λ kv : string * json, (kv.1, f kv.2)) (insert_member kv l).
Proof.
  induction l as [|kv' l IH]; [done|].
  cbn [map insert_sorted insert_member fst].
  destruct (String.leb kv.1 kv'.1); [done|].
  cbn [map]. by rewrite IH.
Qed.

Lemma sort_keys_map (f : json → string) (l : list (string * json)) :
  sort_keys (map (λ kv : string * json, (kv.1, f kv.2)) l)
  = map (λ kv : string * json, (kv.1, f kv.2)) (sort_members l).
Proof.
  induction l as [|kv l IH]; [done|].
  unfold sort_keys, sort_members in *. cbn [map foldr].
  by rewrite IH, insert_sorted_map.
Qed.

Lemma insert_member_map (f : json → json) (kv : string * json)
    (l : list (string * json)) :
  insert_member (kv.1, f kv.2)
    (map (λ kv : string * json, (kv.1, f kv.2)) l)
  = map (λ kv : string * json, (kv.1, f kv.2)) (insert_member kv l).
Proof.
  induction l as [|kv' l IH]; [done|].
  cbn [map insert_member fst].
  destruct (String.leb kv.1 kv'.1); [done|].
  cbn [map]. by rewrite IH.
Qed.

Lemma sort_members_map (f : json → json) (l : list (string * json)) :
  sort_members (map (λ kv : string * json, (kv.1, f kv.2)) l)
  = map (λ kv : string * json, (kv.1, f kv.2)) (sort_members l).
Proof.
  induction l as [|kv l IH]; [done|].
  unfold sort_members in *. cbn [map foldr].
  by rewrite IH, insert_member_map.
Qed.

Lemma insert_member_perm (kv : string * json) (l : list (string * json)) :
  insert_member kv l ≡ₚ kv :: l.
Proof.
  induction l as [|kv' l IH]; [done|].
  cbn [insert_member]. destruct (String.leb kv.1 kv'.1); [done|].
  rewrite IH. apply Permutation_swap.
Qed.

Lemma sort_members_perm (l : list (string * json)) : sort_members l ≡ₚ l.
Proof.
  induction l as [|kv l IH]; [done|].
  unfold sort_members in *. cbn [foldr].
  by rewrite insert_member_perm, IH.
Qed.

Lemma sum_with_perm {A} (f : A → nat) (l1 l2 : list A) :
  l1 ≡ₚ l2 → sum_with f l1 = sum_with f l2.
Proof.
  induction 1 as [|x l1 l2 _ IH|x y l|l1 l2 l3 _ IH1 _ IH2];
    rewrite ?sum_with_cons; [done|by rewrite IH|lia|congruence].
Qed.

Lemma well_keyed_Forall (l : list json) :
  foldr (λ x P, well_keyed x ∧ P) True l ↔ Forall well_keyed l.
Proof.
  induction l as [|x l IH]; cbn [foldr]; [by split|].
  rewrite Forall_cons. by rewrite IH.
Qed.

Lemma well_keyed_members_Forall (d : list (string * json)) :
  foldr (λ (kv : string * json) P, well_keyed kv.2 ∧ P) True d
  ↔ Forall (λ kv, well_keyed kv.2) d.
Proof.
  induction d as [|x d IH]; cbn [foldr]; [by split|].
  rewrite Forall_cons. by rewrite IH.
Qed.

(** The tests [parse_value] makes after an opening bracket, on texts that
    do not start with the closing one. *)
Lemma array_not_empty (l : list json) (R : string)
    (B : result (json * string)) :
  l ≠ [] →
  match skip_ws (join_comma (map json_dumps l) +:+ R) with
  | String c' rest =>
      if (N_of_ascii c' =? 93)%N then Ok (JArr [], rest) else B
  | EmptyString => Raise ValueError
  end = B.
Proof.
  destruct l as [|x l]; [done|]. intros _.
  destruct (json_dumps_head x) as (c & tl & Hx & Hws & Hc).
  assert (∃ t, join_comma (map json_dumps (x :: l)) +:+ R = String c t)
    as [t ->].
  { destruct l as [|y l].
    - cbn [map join_comma]. rewrite Hx. by eexists.
    - change (join_comma (map json_dumps (x :: y :: l)))
        with (json_dumps x +:+ "," +:+ join_comma (map json_dumps (y :: l))).
      rewrite Hx. norm_append. by eexists. }
  rewrite skip_ws_not_ws by done. by rewrite Hc.
Qed.

Lemma object_not_empty (m : list (string * json)) (R : string)
    (B : result (json * string)) :
  m ≠ [] →
  match skip_ws (join_comma (map (λ kv : string * json,
                                    json_quote kv.1 +:+ ":"
                                    +:+ json_dumps kv.2) m) +:+ R) with
  | String c' rest =>
      if (N_of_ascii c' =? 125)%N then Ok (JObj [], rest) else B
  | EmptyString => Raise ValueError
  end = B.
Proof.
  destruct m as [|[k v] m]; [done|]. intros _.
  match goal with
  | |- context [join_comma ?l +:+ R] =>
      assert (∃ t, join_comma l +:+ R = String dquote t) as [t ->]
  end.
  { destruct m as [|y m].
    - cbn [map join_comma fst]. unfold json_quote. norm_append.
      by eexists.
    - set (f := λ kv : string * json,
                  json_quote kv.1 +:+ ":" +:+ json_dumps kv.2).
      change (join_comma (map f ((k, v) :: y :: m)))
        with ((json_quote k +:+ ":" +:+ json_dumps v) +:+ ","
              +:+ join_comma (map f (y :: m))).
      unfold json_quote. norm_append. by eexists. }
  reflexivity.
Qed.

(** [json.loads] reads the text of a document back, one value after the
    other, whatever follows the value. *)
Lemma parse_value_dumps (j : json) : well_keyed j → reads_back j.
Proof.
  induction j as [|b|z|s|l IH|d IH] using json_ind_nested;
    intros Hwk fuel rest Hfuel Hrest;
    (destruct fuel as [|fuel]; [cbn in Hfuel; lia|]).
  - reflexivity.
  - by destruct b.
  - by apply parse_value_int.
  - apply parse_value_str.
  - cbn [json_dumps canonical]. norm_append.
    rewrite parse_value_bracket.
    destruct (decide (l = [])) as [->|Hne]; [reflexivity|].
    rewrite array_not_empty by done.
    cbn [well_keyed] in Hwk. apply well_keyed_Forall in Hwk.
    rewrite parse_elems_dumps; [done| |done|].
    + eapply Forall_impl; [apply Forall_and; split; [exact IH|exact Hwk]|].
      intros x [Hx Hk]. by apply Hx.
    + cbn [parse_fuel] in Hfuel. lia.
  - cbn [json_dumps canonical]. rewrite sort_keys_map, sort_members_map.
    rewrite map_map. cbn [fst snd]. norm_append. rewrite parse_value_brace.
    destruct (decide (d = [])) as [->|Hne]; [reflexivity|].
    assert (sort_members d ≠ []) as Hne'.
    { intros Hnil. pose proof (sort_members_perm d) as Hp.
      rewrite Hnil in Hp. by apply Permutation_nil_l in Hp. }
    rewrite object_not_empty by done.
    cbn [well_keyed] in Hwk. destruct Hwk as [Hnd Hwk].
    apply well_keyed_members_Forall in Hwk.
    rewrite parse_members_dumps; [done| |done| |].
    + rewrite sort_members_perm.
      eapply Forall_impl; [apply Forall_and; split; [exact IH|exact Hwk]|].
      intros x [Hx Hk]. by apply Hx.
    + rewrite app_nil_l. by rewrite sort_members_perm.
    + rewrite (sum_with_perm _ _ d) by apply sort_members_perm.
      cbn [parse_fuel] in Hfuel. lia.
Qed.

(** Fuel: twice the length of the text is enough. *)
Lemma parse_fuel_le (j : json) : (parse_fuel j ≤ 2 * json_size j + 1)%nat.
Proof.
  induction j as [|b|z|s|l IH|d IH] using json_ind_nested;
    try (cbn [parse_fuel]; lia).
  - cbn [parse_fuel json_size].
    assert (sum_with (λ x, S (parse_fuel x)) l
            ≤ 2 * sum_with json_size l + 2 * length l)%nat as Hsum.
    { induction IH as [|x l Hx _ IHl]; [done|].
      rewrite !sum_with_cons. cbn [length]. lia. }
    lia.
  - cbn [parse_fuel json_size].
    assert (sum_with (λ kv : string * json, S (parse_fuel kv.2)) d
            ≤ 2 * sum_with (λ kv : string * json,
                              2 + escaped_length kv.1 + 1 + json_size kv.2) d
              + 2 * length d)%nat as Hsum.
    { induction IH as [|x l Hx _ IHl]; [done|].
      rewrite !sum_with_cons. cbn [length]. lia. }
    lia.
Qed.

(** [json.loads(json.dumps(j, sort_keys=True, ...))] is [j] with the
    members of its objects in key order. *)
Lemma json_loads_json_dumps (j : json) :
  well_keyed j → json_loads (json_dumps j) = Ok (canonical j).
Proof.
  intros Hwk. unfold json_loads.
  pose proof (parse_value_dumps j Hwk
                (2 * String.length (json_dumps j) + 2)%nat ""
                ltac:(rewrite length_json_dumps;
                      pose proof (parse_fuel_le j); lia)
                (or_introl eq_refl)) as Hp.
  rewrite append_nil_r in Hp. rewrite Hp. reflexivity.
Qed.

(** ** [deserialize] after [serialize] *)

Lemma contents_to_objs_obj (d : list (string * json)) :
  contents_to_objs (JObj d)
  = c ← lookup_type (dict_get "_type" d);
    fields ← objs_members (cls_bytes_keys c) d;
    construct c fields.
Proof. reflexivity. Qed.

Lemma objs_members_cons (bk : list string) (k : string) (j : json)
    (d : list (string * json)) :
  objs_members bk ((k, j) :: d)
  = if decide (k = "_type") then objs_members bk d
    else
      v1 ← contents_to_objs j;
      v2 ← (if bool_decide (k ∈ bk) then unhexlify_val v1 else Ok v1);
      rest ← objs_members bk d;
      Ok ((k, v2) :: rest).
Proof. reflexivity. Qed.

Lemma objs_members_tag (bk : list string) (j : json)
    (d : list (string * json)) :
  objs_members bk (("_type", j) :: d) = objs_members bk d.
Proof. reflexivity. Qed.

Lemma objs_members_plain (bk : list string) (k : string) (j : json)
    (d : list (string * json)) (v : pyval) :
  k ≠ "_type" → k ∉ bk → contents_to_objs j = Ok v →
  objs_members bk ((k, j) :: d)
  = rest ← objs_members bk d; Ok ((k, v) :: rest).
Proof.
  intros Hk Hbk Hj. rewrite objs_members_cons.
  destruct (decide (k = "_type")); [done|].
  rewrite Hj. cbn [mbind result_bind].
  by rewrite bool_decide_eq_false_2.
Qed.

Lemma objs_members_bytes (bk : list string) (k s : string)
    (d : list (string * json)) (b : bytes) :
  k ≠ "_type" → k ∈ bk → unhexlify s = Ok b →
  objs_members bk ((k, JStr s) :: d)
  = rest ← objs_members bk d; Ok ((k, VBytes b) :: rest).
Proof.
  intros Hk Hbk Hs. rewrite objs_members_cons.
  destruct (decide (k = "_type")); [done|].
  cbn [contents_to_objs mbind result_bind].
  rewrite bool_decide_eq_true_2 by done.
  cbn [unhexlify_val]. by rewrite Hs.
Qed.

Lemma objs_members_bytes_none (bk : list string) (k : string)
    (d : list (string * json)) :
  k ≠ "_type" → k ∈ bk →
  objs_members bk ((k, JNull) :: d) = Raise TypeError.
Proof.
  intros Hk Hbk. rewrite objs_members_cons.
  destruct (decide (k = "_type")); [done|].
  cbn [contents_to_objs mbind result_bind].
  by rewrite bool_decide_eq_true_2.
Qed.

Lemma objs_members_raise (bk : list string) (k : string) (j : json)
    (d : list (string * json)) (e : exn) :
  k ≠ "_type" → contents_to_objs j = Raise e →
  objs_members bk ((k, j) :: d) = Raise e.
Proof.
  intros Hk Hj. rewrite objs_members_cons.
  destruct (decide (k = "_type")); [done|]. by rewrite Hj.
Qed.

(** Closed statements about the names of the fields. *)
Ltac by_compute :=
  match goal with
  | |- ?P => apply (bool_decide_unpack P); vm_compute; exact I
  end.

(** The members in key order, and the class named by the tag. *)
Ltac open_object :=
  match goal with
  | |- context [sort_members ?l] =>
      let l' := eval vm_compute in (sort_members l) in
      change (sort_members l) with l'
  end;
  rewrite contents_to_objs_obj;
  match goal with
  | |- context [lookup_type ?t] =>
      let c := eval vm_compute in (lookup_type t) in
      change (lookup_type t) with c
  end;
  cbn [mbind result_bind cls_bytes_keys];
  rewrite objs_members_tag.

Ltac plain_field H :=
  erewrite objs_members_plain; [|discriminate|by_compute|exact H].

Ltac bytes_field H :=
  erewrite objs_members_bytes; [|discriminate|by_compute|exact H].

Lemma OutPoint_objs (j1 j2 : json) (v1 v2 : pyval) :
  contents_to_objs j1 = Ok v1 → contents_to_objs j2 = Ok v2 →
  contents_to_objs
    (JObj (sort_members [("txid", j1); ("txout_idx", j2);
                         ("_type", JStr "OutPoint")]))
  = Ok (VObj "OutPoint" [("txid", v1); ("txout_idx", v2)]).
Proof.
  intros H1 H2. open_object. plain_field H1. plain_field H2. reflexivity.
Qed.

Lemma TxOut_objs (j1 j2 : json) (v1 v2 : pyval) :
  contents_to_objs j1 = Ok v1 → contents_to_objs j2 = Ok v2 →
  contents_to_objs
    (JObj (sort_members [("value", j1); ("to_address", j2);
                         ("_type", JStr "TxOut")]))
  = Ok (VObj "TxOut" [("value", v1); ("to_address", v2)]).
Proof.
  intros H1 H2. open_object. plain_field H2. plain_field H1. reflexivity.
Qed.

Lemma UnspentTxOut_objs (j1 j2 j3 j4 j5 j6 : json)
    (v1 v2 v3 v4 v5 v6 : pyval) :
  contents_to_objs j1 = Ok v1 → contents_to_objs j2 = Ok v2 →
  contents_to_objs j3 = Ok v3 → contents_to_objs j4 = Ok v4 →
  contents_to_objs j5 = Ok v5 → contents_to_objs j6 = Ok v6 →
  contents_to_objs
    (JObj (sort_members [("value", j1); ("to_address", j2); ("txid", j3);
                         ("tx_idx", j4); ("is_coinbase", j5);
                         ("height", j6); ("_type", JStr "UnspentTxOut")]))
  = Ok (VObj "UnspentTxOut"
          [("value", v1); ("to_address", v2); ("txid", v3); ("tx_idx", v4);
           ("is_coinbase", v5); ("height", v6)]).
Proof.
  intros H1 H2 H3 H4 H5 H6. open_object.
  plain_field H6. plain_field H5. plain_field H2. plain_field H4.
  plain_field H3. plain_field H1. reflexivity.
Qed.

Lemma TxIn_objs (j1 j4 : json) (v1 v4 : pyval) (s2 s3 : string)
    (b2 b3 : bytes) :
  contents_to_objs j1 = Ok v1 → unhexlify s2 = Ok b2 →
  unhexlify s3 = Ok b3 → contents_to_objs j4 = Ok v4 →
  contents_to_objs
    (JObj (sort_members [("to_spend", j1); ("unlock_sig", JStr s2);
                         ("unlock_pk", JStr s3); ("sequence", j4);
                         ("_type", JStr "TxIn")]))
  = Ok (VObj "TxIn" [("to_spend", v1); ("unlock_sig", VBytes b2);
                     ("unlock_pk", VBytes b3); ("sequence", v4)]).
Proof.
  intros H1 H2 H3 H4. open_object.
  plain_field H4. plain_field H1. bytes_field H3. bytes_field H2.
  reflexivity.
Qed.

(** Without a public key the loop stops at [unlock_pk], which comes
    after [sequence] and [to_spend] in key order. *)
Lemma TxIn_objs_no_pk (j1 j4 j2 : json) (v1 v4 : pyval) :
  contents_to_objs j1 = Ok v1 → contents_to_objs j4 = Ok v4 →
  contents_to_objs
    (JObj (sort_members [("to_spend", j1); ("unlock_sig", j2);
                         ("unlock_pk", JNull); ("sequence", j4);
                         ("_type", JStr "TxIn")]))
  = Raise TypeError.
Proof.
  intros H1 H4. open_object. plain_field H4. plain_field H1.
  rewrite objs_members_bytes_none; [done|discriminate|by_compute].
Qed.

Lemma Transaction_objs (j1 j2 j3 : json) (v1 v2 v3 : pyval) :
  contents_to_objs j1 = Ok v1 → contents_to_objs j2 = Ok v2 →
  contents_to_objs j3 = Ok v3 →
  contents_to_objs
    (JObj (sort_members [("txins", j1); ("txouts", j2); ("locktime", j3);
                         ("_type", JStr "Transaction")]))
  = Ok (VObj "Transaction"
          [("txins", v1); ("txouts", v2); ("locktime", v3)]).
Proof.
  intros H1 H2 H3. open_object.
  plain_field H3. plain_field H1. plain_field H2. reflexivity.
Qed.

Lemma Transaction_objs_raise (j1 j2 j3 : json) (v3 : pyval) (e : exn) :
  contents_to_objs j1 = Raise e → contents_to_objs j3 = Ok v3 →
  contents_to_objs
    (JObj (sort_members [("txins", j1); ("txouts", j2); ("locktime", j3);
                         ("_type", JStr "Transaction")]))
  = Raise e.
Proof.
  intros H1 H3. open_object. plain_field H3.
  rewrite (objs_members_raise _ _ _ _ e); [done|discriminate|done].
Qed.

Lemma Block_objs (j1 j2 j3 j4 j5 j6 j7 : json)
    (v1 v2 v3 v4 v5 v6 v7 : pyval) :
  contents_to_objs j1 = Ok v1 → contents_to_objs j2 = Ok v2 →
  contents_to_objs j3 = Ok v3 → contents_to_objs j4 = Ok v4 →
  contents_to_objs j5 = Ok v5 → contents_to_objs j6 = Ok v6 →
  contents_to_objs j7 = Ok v7 →
  contents_to_objs
    (JObj (sort_members [("version", j1); ("prev_block_hash", j2);
                         ("merkle_hash", j3); ("timestamp", j4);
                         ("bits", j5); ("nonce", j6); ("txns", j7);
                         ("_type", JStr "Block")]))
  = Ok (VObj "Block"
          [("version", v1); ("prev_block_hash", v2); ("merkle_hash", v3);
           ("timestamp", v4); ("bits", v5); ("nonce", v6); ("txns", v7)]).
Proof.
  intros H1 H2 H3 H4 H5 H6 H7. open_object.
  plain_field H5. plain_field H3. plain_field H6. plain_field H2.
  plain_field H4. plain_field H7. plain_field H1. reflexivity.
Qed.

Lemma Block_objs_raise (j1 j2 j3 j4 j5 j6 j7 : json)
    (v2 v3 v4 v5 v6 : pyval) (e : exn) :
  contents_to_objs j2 = Ok v2 → contents_to_objs j3 = Ok v3 →
  contents_to_objs j4 = Ok v4 → contents_to_objs j5 = Ok v5 →
  contents_to_objs j6 = Ok v6 → contents_to_objs j7 = Raise e →
  contents_to_objs
    (JObj (sort_members [("version", j1); ("prev_block_hash", j2);
                         ("merkle_hash", j3); ("timestamp", j4);
                         ("bits", j5); ("nonce", j6); ("txns", j7);
                         ("_type", JStr "Block")]))
  = Raise e.
Proof.
  intros H2 H3 H4 H5 H6 H7. open_object.
  plain_field H5. plain_field H3. plain_field H6. plain_field H2.
  plain_field H4.
  rewrite (objs_members_raise _ _ _ _ e); [done|discriminate|done].
Qed.

(** *** The dictionaries of the records *)

Lemma canonical_obj (cls : string) (fields : list (string * pyval)) :
  canonical (contents_to_primitive (VObj cls fields))
  = JObj (sort_members
            (map (λ kv : string * pyval,
                    (kv.1, canonical (contents_to_primitive kv.2))) fields
             ++ [("_type", JStr cls)])).
Proof.
  cbn [contents_to_primitive canonical]. rewrite map_app, map_map.
  reflexivity.
Qed.

Lemma well_keyed_obj (cls : string) (fields : list (string * pyval)) :
  NoDup (fields.*1 ++ ["_type"]) →
  Forall (λ kv, well_keyed (contents_to_primitive kv.2)) fields →
  well_keyed (contents_to_primitive (VObj cls fields)).
Proof.
  intros Hnd Hall. cbn [contents_to_primitive well_keyed]. split.
  - rewrite fmap_app.
    replace ((map (λ kv : string * pyval,
                     (kv.1, contents_to_primitive kv.2)) fields).*1)
      with (fields.*1); [done|].
    clear. induction fields as [|[k v] fields IH]; [done|].
    cbn [map fmap list_fmap fst]. f_equal. exact IH.
  - apply well_keyed_members_Forall. apply Forall_app.
    split; [|by repeat constructor].
    clear Hnd. induction Hall as [|kv fields Hkv _ IH]; [constructor|].
    cbn [map]. by constructor.
Qed.

Ltac record_well_keyed :=
  apply well_keyed_obj; [by_compute|];
  repeat (constructor; [first [exact I | assumption]|]); constructor.

Section lists.
Context `{ToVal A}.

Lemma list_well_keyed (l : list A) :
  Forall (λ x, well_keyed (contents_to_primitive (to_val x))) l →
  well_keyed (contents_to_primitive (to_val l)).
Proof.
  intros Hall. unfold to_val at 1, list_to_val.
  cbn [contents_to_primitive well_keyed].
  induction Hall as [|x l Hx _ IH]; [done|]. cbn [map foldr]. by split.
Qed.

Lemma list_objs (f : A → bool) (l : list A) :
  (∀ x, contents_to_objs (canonical (contents_to_primitive (to_val x)))
        = if f x then Ok (to_val x) else Raise TypeError) →
  contents_to_objs (canonical (contents_to_primitive (to_val l)))
  = if forallb f l then Ok (to_val l) else Raise TypeError.
Proof.
  intros Hall. unfold to_val at 1 2, list_to_val.
  cbn [contents_to_primitive canonical contents_to_objs].
  assert (rmap contents_to_objs
            (map canonical (map contents_to_primitive (map to_val l)))
          = if forallb f l then Ok (map to_val l) else Raise TypeError)
    as ->; [|by destruct (forallb f l)].
  induction l as [|x l IH]; [done|].
  cbn [map rmap forallb]. rewrite Hall.
  destruct (f x); [|done]. cbn [mbind result_bind andb].
  rewrite IH. by destruct (forallb f l).
Qed.

Lemma list_decodes (f : A → bool) (l : list A) :
  (∀ x, decodes (to_val x)
                (if f x then Ok (to_val x) else Raise TypeError)) →
  decodes (to_val l)
          (if forallb f l then Ok (to_val l) else Raise TypeError).
Proof.
  intros Hall. split.
  - apply list_well_keyed, Forall_forall. intros x _. apply Hall.
  - apply list_objs. intros x. apply Hall.
Qed.
End lists.

Lemma forallb_true {A} (l : list A) : forallb (λ _, true) l = true.
Proof. by induction l. Qed.

Lemma OutPoint_decodes (o : OutPoint) : decodes (to_val o) (Ok (to_val o)).
Proof.
  destruct o as [t k]. split; [record_well_keyed|].
  unfold to_val at 1, OutPoint_to_val. rewrite canonical_obj.
  cbn [map app fst snd]. by apply OutPoint_objs.
Qed.

Lemma TxOut_decodes (o : TxOut) : decodes (to_val o) (Ok (to_val o)).
Proof.
  destruct o as [v a]. split; [record_well_keyed|].
  unfold to_val at 1, TxOut_to_val. rewrite canonical_obj.
  cbn [map app fst snd]. by apply TxOut_objs.
Qed.

Lemma UnspentTxOut_decodes (u : UnspentTxOut) :
  decodes (to_val u) (Ok (to_val u)).
Proof.
  destruct u as [v a t k c h]. split; [record_well_keyed|].
  unfold to_val at 1, UnspentTxOut_to_val. rewrite canonical_obj.
  cbn [map app fst snd]. by apply UnspentTxOut_objs.
Qed.

Lemma TxIn_decodes (i : TxIn) :
  decodes (to_val i)
          (if signed_txin i then Ok (to_val i) else Raise TypeError).
Proof.
  destruct i as [sp sig pk sq].
  assert (decodes (to_val sp) (Ok (to_val sp))) as [Hwk Hsp].
  { destruct sp as [o|]; [apply OutPoint_decodes|by split]. }
  split.
  - destruct pk; record_well_keyed.
  - unfold to_val at 1, TxIn_to_val. rewrite canonical_obj.
    cbn [map app fst snd to_spend unlock_sig unlock_pk sequence].
    destruct pk as [pk|]; cbn [signed_txin unlock_pk].
    + apply TxIn_objs; [exact Hsp|apply unhexlify_hexlify..|done].
    + eapply TxIn_objs_no_pk; [exact Hsp|done].
Qed.

Lemma Transaction_decodes (t : Transaction) :
  decodes (to_val t)
          (if signed_txn t then Ok (to_val t) else Raise TypeError).
Proof.
  destruct t as [ins outs lt].
  destruct (list_decodes signed_txin ins TxIn_decodes) as [Hwk1 Hins].
  destruct (list_decodes (λ _, true) outs TxOut_decodes) as [Hwk2 Houts].
  rewrite forallb_true in Houts.
  assert (decodes (to_val lt) (Ok (to_val lt))) as [Hwk3 Hlt]
    by (by destruct lt).
  split; [record_well_keyed|].
  unfold to_val at 1, Transaction_to_val. rewrite canonical_obj.
  cbn [map app fst snd txins txouts locktime].
  unfold signed_txn. cbn [txins].
  destruct (forallb signed_txin ins).
  - by apply Transaction_objs.
  - by eapply Transaction_objs_raise.
Qed.

Lemma Block_decodes (b : Block) :
  decodes (to_val b)
          (if signed_block b then Ok (to_val b) else Raise TypeError).
Proof.
  destruct b as [v prev mh ts bt nc tx].
  destruct (list_decodes signed_txn tx Transaction_decodes) as [Hwk Htx].
  assert (decodes (to_val prev) (Ok (to_val prev))) as [Hwk2 Hprev]
    by (by destruct prev).
  split; [record_well_keyed|].
  unfold to_val at 1, Block_to_val. rewrite canonical_obj.
  cbn [map app fst snd version prev_block_hash merkle_hash timestamp bits
       nonce txns].
  unfold signed_block. cbn [txns].
  destruct (forallb signed_txn tx).
  - by apply Block_objs.
  - by eapply Block_objs_raise.
Qed.

Lemma deserialize_serialize_decodes `{ToVal A} (x : A) (r : result pyval) :
  decodes (to_val x) r → deserialize (serialize x) = r.
Proof.
  intros [Hwk Hr]. unfold deserialize, serialize, serialize_val.
  by rewrite json_loads_json_dumps.
Qed.

(** X24.  Outpoints, outputs and unspent outputs whose integers have at
    most 4300 digits come back from their serialization:
    [deserialize(serialize(x))] is [x] for every such [OutPoint], [TxOut]
    and [UnspentTxOut], whatever their strings are.  (Beyond 4300 digits
    [json.dumps] raises [ValueError] where the interpreter limits the
    conversion, and [serialize] returns no text.) *)
Theorem deserialize_serialize_plain_records :
  (∀ o : OutPoint,
     ints_print (to_val o) = true →
     deserialize (serialize o) = Ok (to_val o))
  ∧ (∀ o : TxOut,
       ints_print (to_val o) = true →
       deserialize (serialize o) = Ok (to_val o))
  ∧ (∀ u : UnspentTxOut,
       ints_print (to_val u) = true →
       deserialize (serialize u) = Ok (to_val u)).
Proof.
  split; [|split]; intros x _; apply deserialize_serialize_decodes.
  - apply OutPoint_decodes.
  - apply TxOut_decodes.
  - apply UnspentTxOut_decodes.
Qed.

(** X25.  An input, a transaction and a block whose integers have at
    most 4300 digits come back from their serialization exactly when
    every input in them has a public key; otherwise [deserialize] raises
    [TypeError], because it unhexlifies [unlock_pk] whatever it holds.
    The latter is the case of every transaction made by
    [Transaction.create_coinbase] (for a value and a height of at most
    4300 digits, which [str(height)] needs as well) and of every block
    that holds one. *)
Theorem deserialize_serialize_needs_public_keys :
  (∀ i : TxIn,
     ints_print (to_val i) = true →
     deserialize (serialize i)
     = if signed_txin i then Ok (to_val i) else Raise TypeError)
  ∧ (∀ t : Transaction,
       ints_print (to_val t) = true →
       deserialize (serialize t)
       = if signed_txn t then Ok (to_val t) else Raise TypeError)
  ∧ (∀ b : Block,
       ints_print (to_val b) = true →
       deserialize (serialize b)
       = if signed_block b then Ok (to_val b) else Raise TypeError)
  ∧ (∀ pay_to_addr value height,
       int_prints value = true → int_prints height = true →
       deserialize (serialize (create_coinbase pay_to_addr value height))
       = Raise TypeError)
  ∧ (∀ b pay_to_addr value height,
       ints_print (to_val b) = true → int_prints height = true →
       create_coinbase pay_to_addr value height ∈ txns b →
       deserialize (serialize b) = Raise TypeError).
Proof.
  split; [|split; [|split; [|split]]].
  - intros i _. apply deserialize_serialize_decodes, TxIn_decodes.
  - intros t _. apply deserialize_serialize_decodes, Transaction_decodes.
  - intros b _. apply deserialize_serialize_decodes, Block_decodes.
  - intros a v h _ _.
    by rewrite (deserialize_serialize_decodes _ _ (Transaction_decodes _)).
  - intros b a v h _ _ Hin.
    rewrite (deserialize_serialize_decodes _ _ (Block_decodes _)).
    destruct (signed_block b) eqn:Hs; [|done].
    unfold signed_block in Hs. rewrite forallb_forall in Hs.
    apply list_elem_of_In, Hs in Hin. discriminate.
Qed.

(** ** From the miner to the chain *)

Section assembled.
Context `{Env}.









End assembled.

(** ** Answering [GetBlocks] *)

Section getblocks.
Context `{Env}.

(** X27.  The reply to [GetBlocks] holds at most 50 blocks of the active
    chain, from an index that is at least 1: the block at index 0 is
    never sent.  When the requested id is that of a block at an index
    [k >= 1] of the active chain, the reply starts with that block itself
    and not with its successor. *)
Theorem GetBlocks_reply (from_blockid : string) (s : State) :
  let blocks := GetBlocks_blocks from_blockid s in
  (length blocks ≤ 50)%nat
  ∧ (∃ h, (1 ≤ h)%nat
          ∧ ∀ i b, blocks !! i = Some b →
                   active_chain s !! (h + i)%nat = Some b)
  ∧ (∀ blk k,
       stale_default_chain s = None →
       find_block_default (Some from_blockid) s = Some (blk, S k, 0%nat) →
       blocks !! 0%nat = Some blk).
Proof.
  cbn zeta. unfold GetBlocks_blocks. split; [|split].
  - rewrite length_take. lia.
  - eexists. split; [|intros i b Hb].
    2:{ apply lookup_take_Some in Hb as [Hb _].
        rewrite lookup_drop in Hb. exact Hb. }
    destruct (find_block_default _ s) as [[[blk [|h]] idx]|]; lia.
  - intros blk k Hstale Hfind. rewrite Hfind.
    rewrite lookup_take_lt by lia. rewrite lookup_drop, Nat.add_0_r.
    unfold find_block_default, default_chain, find_block in Hfind.
    rewrite Hstale in Hfind.
    destruct (active_chain s) as [|x l] eqn:Hac.
    + cbn [find_in_chains find_in_chain] in Hfind.
      apply find_in_chains_Some in Hfind as (i & _ & Hidx & _). lia.
    + cbn [find_in_chains] in Hfind.
      destruct (find_in_chain _ 0 (x :: l)) as [[b0 k0]|] eqn:Hin;
        [|done].
      injection Hfind as -> ->.
      apply find_in_chain_Some in Hin as (i & -> & Hi & _). exact Hi.
Qed.

End getblocks.

(** ** The codec, the miner and [GetBlocks] at concrete nodes *)

Lemma deserialize_serialize_plain_records_witness :
  ints_print (to_val (mkTxOut (-5000000000) "1addr")) = true
  ∧ deserialize (serialize (mkTxOut (-5000000000) "1addr"))
    = Ok (to_val (mkTxOut (-5000000000) "1addr"))
  ∧ deserialize (serialize (mkOutPoint "ab\12" (2 ^ 70)))
    = Ok (to_val (mkOutPoint "ab\12" (2 ^ 70))).
Proof.
  destruct deserialize_serialize_plain_records as (Hop & Hout & _).
  split; [vm_compute; reflexivity|]. split.
  - apply Hout. vm_compute. reflexivity.
  - apply Hop. vm_compute. reflexivity.
Defined.

Lemma deserialize_serialize_needs_public_keys_witness :
  ints_print (to_val Scenario.G) = true
  ∧ create_coinbase "1miner" 5000000000 0 ∈ txns Scenario.G
  ∧ deserialize (serialize Scenario.G) = Raise TypeError
  ∧ deserialize (serialize Scenario.spend_G) = Ok (to_val Scenario.spend_G).
Proof.
  assert (ints_print (to_val Scenario.G) = true) as Hints
    by (vm_compute; reflexivity).
  assert (create_coinbase "1miner" 5000000000 0 ∈ txns Scenario.G) as Hin
    by (apply list_elem_of_In; vm_compute; left; reflexivity).
  destruct deserialize_serialize_needs_public_keys
    as (_ & Htxn & _ & _ & Hblock).
  split; [exact Hints|]. split; [exact Hin|]. split.
  - apply (Hblock Scenario.G "1miner" 5000000000 0 Hints); [|exact Hin].
    vm_compute. reflexivity.
  - apply (Htxn Scenario.spend_G). vm_compute. reflexivity.
Defined.


Lemma GetBlocks_reply_witness :
  find_block_default (H := Scenario.env)
    (Some (Block_id (H := Scenario.env) Scenario.A1)) Scenario.after_A1
  = Some (Scenario.A1, 1%nat, 0%nat)
  ∧ GetBlocks_blocks (H := Scenario.env)
      (Block_id (H := Scenario.env) Scenario.A1) Scenario.after_A1
    !! 0%nat = Some Scenario.A1.
Proof.
  assert (find_block_default (H := Scenario.env)
            (Some (Block_id (H := Scenario.env) Scenario.A1))
            Scenario.after_A1
          = Some (Scenario.A1, 1%nat, 0%nat)) as Hfind
    by (vm_compute; reflexivity).
  split; [exact Hfind|].
  destruct (GetBlocks_reply (H := Scenario.env)
              (Block_id (H := Scenario.env) Scenario.A1) Scenario.after_A1)
    as (_ & _ & Hfirst).
  apply (Hfirst Scenario.A1 0%nat); [reflexivity|exact Hfind].
Defined.

(** ** Validating a text *)

Lemma as_OutPoint_to_val (o : OutPoint) : as_OutPoint (to_val o) = Some o.
Proof. by destruct o. Qed.

Lemma as_TxOut_to_val (o : TxOut) : as_TxOut (to_val o) = Some o.
Proof. by destruct o. Qed.

Lemma as_TxIn_to_val (i : TxIn) : as_TxIn (to_val i) = Some i.
Proof. by destruct i as [[[t k]|] sg [pk|] sq]. Qed.

Lemma as_list_to_val `{ToVal A} (f : pyval → option A) (l : list A) :
  (∀ x, f (to_val x) = Some x) → as_list f (to_val l) = Some l.
Proof.
  intros Hf. unfold to_val at 1, list_to_val. cbn [as_list].
  induction l as [|x l IH]; [done|].
  cbn [map foldr]. by rewrite Hf, IH.
Qed.

Lemma as_Transaction_to_val (t : Transaction) :
  as_Transaction (to_val t) = Some t.
Proof.
  destruct t as [ins outs lt]. unfold as_Transaction.
  change (field_of "Transaction" "txins"
            (to_val (mkTransaction ins outs lt))) with (Some (to_val ins)).
  change (field_of "Transaction" "txouts"
            (to_val (mkTransaction ins outs lt))) with (Some (to_val outs)).
  change (field_of "Transaction" "locktime"
            (to_val (mkTransaction ins outs lt))) with (Some (to_val lt)).
  cbn [mbind option_bind].
  rewrite (as_list_to_val _ ins as_TxIn_to_val).
  rewrite (as_list_to_val _ outs as_TxOut_to_val).
  by destruct lt.
Qed.

Lemma as_Block_to_val (b : Block) : as_Block (to_val b) = Some b.
Proof.
  destruct b as [v prev mh ts bt nc tx]. unfold as_Block.
  change (field_of "Block" "txns"
            (to_val (mkBlock v prev mh ts bt nc tx))) with (Some (to_val tx)).
  cbn [mbind option_bind].
  rewrite (as_list_to_val _ tx as_Transaction_to_val).
  by destruct prev.
Qed.

Section texts.
Context `{Env}.

(** X28.  Handed the serialization of a transaction or of a block,
    [validate_txn] and [validate_block] do what they do on the value
    itself when every input has a public key, and raise their
    "could not deserialize" error when one has none, before any check
    is made.  No serialized block that holds a transaction made by
    [Transaction.create_coinbase] gets further. *)
Theorem validation_of_serialized_values (s : State) :
  (∀ t c a,
     validate_txn_text (serialize t) c a s
     = if signed_txn t then validate_txn t c a s
       else Raise (TxnValidationError "Could not deserialize" None))
  ∧ (∀ b,
       validate_block_text (serialize b) s
       = if signed_block b then validate_block b s
         else Raise (BlockValidationError "Couldn't deserialize" None))
  ∧ (∀ b pay_to_addr value height,
       create_coinbase pay_to_addr value height ∈ txns b →
       validate_block_text (serialize b) s
       = Raise (BlockValidationError "Couldn't deserialize" None)).
Proof.
  assert (∀ b,
            validate_block_text (serialize b) s
            = if signed_block b then validate_block b s
              else Raise (BlockValidationError "Couldn't deserialize" None))
    as Hblock.
  { intros b. unfold validate_block_text.
    rewrite (deserialize_serialize_decodes _ _ (Block_decodes b)).
    destruct (signed_block b); [|done]. by rewrite as_Block_to_val. }
  split; [|split; [exact Hblock|]].
  - intros t c a. unfold validate_txn_text.
    rewrite (deserialize_serialize_decodes _ _ (Transaction_decodes t)).
    destruct (signed_txn t); [|done]. by rewrite as_Transaction_to_val.
  - intros b addr v h Hin. rewrite Hblock.
    destruct (signed_block b) eqn:Hs; [|done].
    unfold signed_block in Hs. rewrite forallb_forall in Hs.
    apply list_elem_of_In, Hs in Hin. discriminate.
Qed.

End texts.

Lemma validation_of_serialized_values_witness :
  create_coinbase "1miner" 5000000000 0 ∈ txns Scenario.G
  ∧ validate_block_text (H := Scenario.env) (serialize Scenario.G)
      initial_state
    = Raise (BlockValidationError "Couldn't deserialize" None)
  ∧ validate_block (H := Scenario.env) Scenario.G initial_state
    = Ok (Scenario.G, 0%nat).
Proof.
  assert (create_coinbase "1miner" 5000000000 0 ∈ txns Scenario.G) as Hin
    by (apply list_elem_of_In; vm_compute; left; reflexivity).
  split; [exact Hin|]. split; [|vm_compute; reflexivity].
  destruct (validation_of_serialized_values (H := Scenario.env)
              initial_state) as (_ & _ & Hcb).
  exact (Hcb Scenario.G "1miner" 5000000000 0 Hin).
Defined.

(** ** The upkeep for a side-branch block can stop half-way

    [validate_block] hands a block for a side branch back without
    validating its transactions.  When one of them spends an outpoint
    that is not in the UTXO set, [connect_block] has appended the block
    to the branch and inserted the output of the coinbase by the time
    [rm_from_utxo] raises [KeyError]; nothing is undone. *)
Lemma connect_block_side_branch_raises_midway :
  validate_block (H := Scenario.env) Cases.B2_dangling Scenario.side_state
  = Ok (Cases.B2_dangling, 1%nat)
  ∧ (connect_block (H := Scenario.env) Cases.B2_dangling
                   Scenario.side_state).1 = Raise KeyError
  ∧ side_branches (connect_block (H := Scenario.env) Cases.B2_dangling
                                 Scenario.side_state).2
    = [[Scenario.B1; Cases.B2_dangling]]
  ∧ active_chain (connect_block (H := Scenario.env) Cases.B2_dangling
                                Scenario.side_state).2
    = active_chain Scenario.side_state
  ∧ utxo_set Scenario.side_state
      !! mkOutPoint (Transaction_id (H := Scenario.env)
                       (create_coinbase "1other" 5000000000 2)) 0
    = None
  ∧ utxo_set (connect_block (H := Scenario.env) Cases.B2_dangling
                            Scenario.side_state).2
      !! mkOutPoint (Transaction_id (H := Scenario.env)
                       (create_coinbase "1other" 5000000000 2)) 0
    = Some (mkUnspentTxOut 5000000000 "1other"
              (Transaction_id (H := Scenario.env)
                 (create_coinbase "1other" 5000000000 2)) 0 true 2).
Proof.
  split; [vm_compute; reflexivity|].
  split; [vm_compute; reflexivity|].
  split; [vm_compute; reflexivity|].
  split; [vm_compute; reflexivity|].
  split; vm_compute; reflexivity.
Qed.
